(** * TSimpleMCMC: an adaptive Metropolis-Hastings sampler

    A shallow embedding of [TSimpleMCMC.H] (the revision that keeps
    [fCovarianceTrials], [fAcceptanceTrials] and [fStateInitialized]; the older
    revision shares [TSimpleMCMC::Step], the proposal loop and the
    moved-point test verbatim).

    - [double] is IEEE 754 binary64: Rocq's primitive [float], specified by
      [FloatAxioms] against [SpecFloat].
    - [std::vector<double>] is [list float]; an element access past the end is
      undefined behaviour in C++ and is a [Fault] here.
    - The collaborators that are not part of the header are parameters:
      [gRandom] (ROOT's [TRandom]), [std::log], [std::pow], [TDecompChol] and the
      user's likelihood functor.
    - [int] counters are kept as [Z]; signed overflow is undefined in C++, and
      a statement about the value of a counter takes as a hypothesis that the
      counter can be stepped without leaving the range of an [int].
    - The diagnostic stream ([MCMC_DEBUG], [MCMC_ERROR] on [std::cout]) is not
      part of the state.
    - [UpdateProposal] and [ResetProposal] call each other with no bound in the
      code; the depth is bounded here by a fuel argument, and [OutOfFuel] only
      says that the fuel given was not enough.
    - [TConstrainedLikelihood.H], the likelihood of the constrained-sum
      example, is embedded as well; its [exit(1)] is an outcome of its own. *)

From Stdlib Require Import ZArith Floats Lia Bool.
From stdpp Require Import base list.

Set Warnings "-inexact-float".

Open Scope float_scope.

Abbreviation Vector := (list float).

(** ** Outcomes of a call *)

Inductive fault : Type :=
| Terminate                       (* [throw;] with no exception in flight: std::terminate *)
| OutOfBounds (index size : nat)  (* element access past the end of a std::vector *)
| LengthError                     (* std::vector::resize of a negative int seen as size_t *)
| BadConversion.                  (* double to int conversion of an unrepresentable value *)

Inductive outcome (A : Type) : Type :=
| Ret (a : A)
| Fault (f : fault)
| OutOfFuel.
Arguments Ret {A} a.
Arguments Fault {A} f.
Arguments OutOfFuel {A}.

#[global] Instance outcome_ret : MRet outcome := @Ret.
#[global] Instance outcome_bind : MBind outcome := fun A B k c =>
  match c with
  | Ret a => k a
  | Fault f => Fault f
  | OutOfFuel => OutOfFuel
  end.

(** [for (std::size_t i = lo; i < lo + n; ++i) body(i)] over a threaded state. *)
Fixpoint for_loop {A : Type} (n lo : nat) (body : nat -> A -> outcome A) (s : A)
  : outcome A :=
  match n with
  | O => Ret s
  | S n' => s' ← body lo s; for_loop n' (S lo) body s'
  end.

(** ** std::vector<double> *)

Definition is_empty (v : Vector) : bool :=
  match v with [] => true | _ => false end.

(** [v[i]] as an rvalue. *)
Definition at_ {A : Type} (v : list A) (i : nat) : outcome A :=
  match v !! i with
  | Some x => Ret x
  | None => Fault (OutOfBounds i (length v))
  end.

(** [v[i] = x]. *)
Definition assign {A : Type} (v : list A) (i : nat) (x : A) : outcome (list A) :=
  if decide (i < length v)%nat then Ret (<[i:=x]> v)
  else Fault (OutOfBounds i (length v)).

(** [std::copy(src.begin(), src.end(), dst.begin())]: overwrites the first
    [src.size()] elements of [dst]. *)
Definition std_copy (src dst : Vector) : outcome Vector :=
  if decide (length src <= length dst)%nat then Ret (src ++ drop (length src) dst)
  else Fault (OutOfBounds (length dst) (length dst)).

(** [std::max(a,b)] is [(a < b) ? b : a]; [std::min(a,b)] is [(b < a) ? b : a]. *)
Definition std_max (a b : float) : float := if a <? b then b else a.
Definition std_min (a b : float) : float := if b <? a then b else a.

(** [std::size_t] and [int] to [double]. *)
Definition double_of_Z (z : Z) : float :=
  if (z <? 0)%Z then - of_uint63 (Uint63.of_Z (- z)) else of_uint63 (Uint63.of_Z z).
Definition double_of_size (n : nat) : float := double_of_Z (Z.of_nat n).

(** [double] to [int]: truncation toward zero; undefined when the value does
    not fit (taken here as: not finite, or outside the 32-bit range). *)
Definition int_of_double (x : float) : outcome Z :=
  match Prim2SF x with
  | S754_zero _ => Ret 0%Z
  | S754_finite s m e =>
      let a := match e with
               | Zneg k => Z.shiftr (Zpos m) (Zpos k)
               | _ => Z.shiftl (Zpos m) e
               end in
      let z := if s then (- a)%Z else a in
      if ((-2147483648 <=? z) && (z <=? 2147483647))%Z then Ret z
      else Fault BadConversion
  | _ => Fault BadConversion
  end.

(** ** The random source: ROOT's [gRandom] *)

Record TRandom (G : Type) : Type := {
  Uniform01 : G -> float * G;                   (* gRandom->Uniform() *)
  Uniform : float -> float -> G -> float * G;   (* gRandom->Uniform(x1,x2) *)
  Gaus : float -> float -> G -> float * G       (* gRandom->Gaus(mean,sigma) *)
}.
Arguments Uniform01 {G} _ _.
Arguments Uniform {G} _ _ _ _.
Arguments Gaus {G} _ _ _ _.

(** ** The output tree *)

(** One [TTree::Fill]: the branches LogLikelihood and Accepted, and the branch
    Step when the tree was set up with [saveStep]. *)
Record TTree : Type := {
  saveStep : bool;
  entries : list (float * Vector * option Vector)
}.

Definition Fill (ll : float) (acc step : Vector) (t : TTree) : TTree :=
  {| saveStep := saveStep t;
     entries := entries t ++ [(ll, acc, if saveStep t then Some step else None)] |}.

(** ** template <UserLikelihood, UserProposal> class TSimpleMCMC *)

Module TSimpleMCMC.
Section Driver.
Context {G : Type} (gRandom : TRandom G) (std_log : float -> float).
Context (fLogLikelihood : Vector -> float).
(** [UserProposal::operator()(proposed, previous, previousValue)]: the
    proposal vector is passed by reference and comes back filled. *)
Context {UserProposal : Type}
        (ProposeStep : UserProposal -> G -> Vector -> Vector -> float ->
                       outcome (UserProposal * G * Vector)).

Record t : Type := mk {
  fProposeStep : UserProposal;
  fTree : option TTree;
  fLogLikelihoodCount : Z;
  fAccepted : Vector;
  fAcceptedLogLikelihood : float;
  fTrialStep : Vector;
  fProposed : Vector;
  fProposedLogLikelihood : float
}.

(** The constructor: [fProposeStep] is default-constructed by the caller's
    choice of [UserProposal], the tree may be absent, and the two likelihood
    fields have no initialiser (their first values are arguments). *)
Definition new (proposal : UserProposal) (tree : option TTree) (accepted0 proposed0 : float)
  : t :=
  mk proposal tree 0 [] accepted0 [] [] proposed0.

Definition SaveStep (m : t) : t :=
  mk (fProposeStep m)
     (Fill (fAcceptedLogLikelihood m) (fAccepted m) (fTrialStep m) <$> fTree m)
     (fLogLikelihoodCount m) (fAccepted m) (fAcceptedLogLikelihood m)
     (fTrialStep m) (fProposed m) (fProposedLogLikelihood m).

Definition save_if (save : bool) (m : t) : t := if save then SaveStep m else m.

(** [Start(start, save)] *)
Definition Start (start : Vector) (save : bool) (m : t) : t :=
  let ll := fLogLikelihood start in
  save_if save
    (mk (fProposeStep m) (fTree m) (fLogLikelihoodCount m + 1)
        start
        ll
        (resize (length start) 0 (fTrialStep m))
        start
        ll).

(** The loop that caches the trial step, [fTrialStep[i] = fProposed[i] - fAccepted[i]]. *)
Definition cache_trial_step (proposed accepted trial : Vector) : outcome Vector :=
  for_loop (length proposed) 0
    (fun i ts => a ← at_ proposed i; b ← at_ accepted i; assign ts i (a - b))
    trial.

(** The tail of [Step] after a proposal is kept. *)
Definition keep (save : bool) (m : t) (g : G) : outcome (bool * t * G) :=
  acc ← std_copy (fProposed m) (fAccepted m);
  Ret (true,
       save_if save
         (mk (fProposeStep m) (fTree m) (fLogLikelihoodCount m) acc
             (fProposedLogLikelihood m) (fTrialStep m) (fProposed m)
             (fProposedLogLikelihood m)),
       g).

(** [bool Step(bool save)] *)
Definition Step (save : bool) (m : t) (g : G) : outcome (bool * t * G) :=
  if is_empty (fProposed m) || is_empty (fAccepted m) then Fault Terminate
  else
    '(p, g, proposed) ← ProposeStep (fProposeStep m) g (fProposed m) (fAccepted m)
                                     (fAcceptedLogLikelihood m);
    trial_step ← (if save then cache_trial_step proposed (fAccepted m) (fTrialStep m)
                   else Ret (fTrialStep m));
    let m := mk p (fTree m) (fLogLikelihoodCount m + 1) (fAccepted m)
                (fAcceptedLogLikelihood m) trial_step proposed
                (fLogLikelihood proposed) in
    let delta := fProposedLogLikelihood m - fAcceptedLogLikelihood m in
    if delta <? 0 then
      let '(u, g) := Uniform01 gRandom g in
      let trial := std_log u in
      if delta <? trial then Ret (false, save_if save m, g)
      else keep save m g
    else keep save m g.

End Driver.
Arguments t : clear implicits.
End TSimpleMCMC.

(** ** struct TProposeSimpleStep *)

Module TProposeSimpleStep.
Section Simple.
Context {G : Type} (gRandom : TRandom G).

Record t : Type := mk { fSigma : float }.

(** The constructor sets [fSigma(-1.0)]. *)
Definition new : t := mk (-1).

(** [operator()(proposal, current, value)]; [value] is ignored. *)
Definition call (st : t) (g : G) (proposal current : Vector) (value : float)
  : outcome (t * G * Vector) :=
  let sigma := fSigma st in
  let sigma := if sigma <? 0 then sqrt (1 / double_of_size (length proposal))
               else sigma in
  '(g, proposal) ← for_loop (length proposal) 0
      (fun i '(g, proposal) =>
         c ← at_ current i;
         let '(x, g) := Gaus gRandom 0 sigma g in
         proposal ← assign proposal i (c + x);
         Ret (g, proposal))
      (g, proposal);
  Ret (st, g, proposal).
End Simple.
End TProposeSimpleStep.

(** ** ROOT's TMatrixD *)

(** A matrix is the list of its rows.  As in ROOT, reading an element outside
    the matrix yields NaN and writing one changes nothing; [ResizeTo] keeps the
    overlapping elements and zero-fills the new ones. *)
Abbreviation TMatrixD := (list Vector).

Definition mget (m : TMatrixD) (i j : nat) : float :=
  match m !! i with
  | Some row => match row !! j with Some x => x | None => nan end
  | None => nan
  end.

Definition mset (m : TMatrixD) (i j : nat) (x : float) : TMatrixD :=
  match m !! i with
  | Some row => <[i := <[j := x]> row]> m
  | None => m
  end.

Definition ResizeTo (n : nat) (m : TMatrixD) : TMatrixD :=
  resize n (replicate n 0) (resize n 0 <$> m).

(** ** class TProposeAdaptiveStep *)

Module TProposeAdaptiveStep.

(** [struct ProposalType]: [type] is 0 for Gaussian and 1 for Uniform;
    [param1] is the variance hint or the minimum, [param2] the maximum. *)
Record ProposalType : Type := {
  type : Z;
  param1 : float;
  param2 : float
}.

Definition ProposalType_new : ProposalType :=
  {| type := 0; param1 := 0; param2 := 0 |}.

Record t : Type := mk {
  fLastPoint : Vector;
  fLastValue : float;
  fCentralPoint : Vector;
  fCentralPointTrials : float;
  fCurrentCov : TMatrixD;
  fCovarianceTrials : float;
  fCovarianceWindow : float;
  fDecomposition : TMatrixD;
  fProposalType : list ProposalType;
  fTrials : Z;
  fSuccesses : Z;
  fNextUpdate : Z;
  fAcceptance : float;
  fAcceptanceTrials : float;
  fAcceptanceWindow : float;
  fTargetAcceptance : float;
  fSigma : float;
  fStateInitialized : bool
}.

(** The constructor.  [fCentralPointTrials], [fCovarianceTrials] and
    [fAcceptanceTrials] have no initialiser: their first values are whatever
    the storage holds, given here as arguments. *)
Definition new (centralTrials0 covarianceTrials0 acceptanceTrials0 : float) : t :=
  mk [] 0 [] centralTrials0 [] covarianceTrials0 (-1) [] [] 0 0 (-1) 0
     acceptanceTrials0 (-1) 0.44 0 false.

Definition set_fLastPoint v s :=
  mk v (fLastValue s) (fCentralPoint s) (fCentralPointTrials s) (fCurrentCov s)
     (fCovarianceTrials s) (fCovarianceWindow s) (fDecomposition s) (fProposalType s)
     (fTrials s) (fSuccesses s) (fNextUpdate s) (fAcceptance s) (fAcceptanceTrials s)
     (fAcceptanceWindow s) (fTargetAcceptance s) (fSigma s) (fStateInitialized s).
Definition set_fLastValue v s :=
  mk (fLastPoint s) v (fCentralPoint s) (fCentralPointTrials s) (fCurrentCov s)
     (fCovarianceTrials s) (fCovarianceWindow s) (fDecomposition s) (fProposalType s)
     (fTrials s) (fSuccesses s) (fNextUpdate s) (fAcceptance s) (fAcceptanceTrials s)
     (fAcceptanceWindow s) (fTargetAcceptance s) (fSigma s) (fStateInitialized s).
Definition set_fCentralPoint v s :=
  mk (fLastPoint s) (fLastValue s) v (fCentralPointTrials s) (fCurrentCov s)
     (fCovarianceTrials s) (fCovarianceWindow s) (fDecomposition s) (fProposalType s)
     (fTrials s) (fSuccesses s) (fNextUpdate s) (fAcceptance s) (fAcceptanceTrials s)
     (fAcceptanceWindow s) (fTargetAcceptance s) (fSigma s) (fStateInitialized s).
Definition set_fCentralPointTrials v s :=
  mk (fLastPoint s) (fLastValue s) (fCentralPoint s) v (fCurrentCov s)
     (fCovarianceTrials s) (fCovarianceWindow s) (fDecomposition s) (fProposalType s)
     (fTrials s) (fSuccesses s) (fNextUpdate s) (fAcceptance s) (fAcceptanceTrials s)
     (fAcceptanceWindow s) (fTargetAcceptance s) (fSigma s) (fStateInitialized s).
Definition set_fCurrentCov v s :=
  mk (fLastPoint s) (fLastValue s) (fCentralPoint s) (fCentralPointTrials s) v
     (fCovarianceTrials s) (fCovarianceWindow s) (fDecomposition s) (fProposalType s)
     (fTrials s) (fSuccesses s) (fNextUpdate s) (fAcceptance s) (fAcceptanceTrials s)
     (fAcceptanceWindow s) (fTargetAcceptance s) (fSigma s) (fStateInitialized s).
Definition set_fCovarianceTrials v s :=
  mk (fLastPoint s) (fLastValue s) (fCentralPoint s) (fCentralPointTrials s)
     (fCurrentCov s) v (fCovarianceWindow s) (fDecomposition s) (fProposalType s)
     (fTrials s) (fSuccesses s) (fNextUpdate s) (fAcceptance s) (fAcceptanceTrials s)
     (fAcceptanceWindow s) (fTargetAcceptance s) (fSigma s) (fStateInitialized s).
Definition set_fCovarianceWindow v s :=
  mk (fLastPoint s) (fLastValue s) (fCentralPoint s) (fCentralPointTrials s)
     (fCurrentCov s) (fCovarianceTrials s) v (fDecomposition s) (fProposalType s)
     (fTrials s) (fSuccesses s) (fNextUpdate s) (fAcceptance s) (fAcceptanceTrials s)
     (fAcceptanceWindow s) (fTargetAcceptance s) (fSigma s) (fStateInitialized s).
Definition set_fDecomposition v s :=
  mk (fLastPoint s) (fLastValue s) (fCentralPoint s) (fCentralPointTrials s)
     (fCurrentCov s) (fCovarianceTrials s) (fCovarianceWindow s) v (fProposalType s)
     (fTrials s) (fSuccesses s) (fNextUpdate s) (fAcceptance s) (fAcceptanceTrials s)
     (fAcceptanceWindow s) (fTargetAcceptance s) (fSigma s) (fStateInitialized s).
Definition set_fProposalType v s :=
  mk (fLastPoint s) (fLastValue s) (fCentralPoint s) (fCentralPointTrials s)
     (fCurrentCov s) (fCovarianceTrials s) (fCovarianceWindow s) (fDecomposition s) v
     (fTrials s) (fSuccesses s) (fNextUpdate s) (fAcceptance s) (fAcceptanceTrials s)
     (fAcceptanceWindow s) (fTargetAcceptance s) (fSigma s) (fStateInitialized s).
Definition set_fTrials v s :=
  mk (fLastPoint s) (fLastValue s) (fCentralPoint s) (fCentralPointTrials s)
     (fCurrentCov s) (fCovarianceTrials s) (fCovarianceWindow s) (fDecomposition s)
     (fProposalType s) v (fSuccesses s) (fNextUpdate s) (fAcceptance s)
     (fAcceptanceTrials s) (fAcceptanceWindow s) (fTargetAcceptance s) (fSigma s)
     (fStateInitialized s).
Definition set_fSuccesses v s :=
  mk (fLastPoint s) (fLastValue s) (fCentralPoint s) (fCentralPointTrials s)
     (fCurrentCov s) (fCovarianceTrials s) (fCovarianceWindow s) (fDecomposition s)
     (fProposalType s) (fTrials s) v (fNextUpdate s) (fAcceptance s)
     (fAcceptanceTrials s) (fAcceptanceWindow s) (fTargetAcceptance s) (fSigma s)
     (fStateInitialized s).
Definition set_fNextUpdate v s :=
  mk (fLastPoint s) (fLastValue s) (fCentralPoint s) (fCentralPointTrials s)
     (fCurrentCov s) (fCovarianceTrials s) (fCovarianceWindow s) (fDecomposition s)
     (fProposalType s) (fTrials s) (fSuccesses s) v (fAcceptance s)
     (fAcceptanceTrials s) (fAcceptanceWindow s) (fTargetAcceptance s) (fSigma s)
     (fStateInitialized s).
Definition set_fAcceptance v s :=
  mk (fLastPoint s) (fLastValue s) (fCentralPoint s) (fCentralPointTrials s)
     (fCurrentCov s) (fCovarianceTrials s) (fCovarianceWindow s) (fDecomposition s)
     (fProposalType s) (fTrials s) (fSuccesses s) (fNextUpdate s) v
     (fAcceptanceTrials s) (fAcceptanceWindow s) (fTargetAcceptance s) (fSigma s)
     (fStateInitialized s).
Definition set_fAcceptanceTrials v s :=
  mk (fLastPoint s) (fLastValue s) (fCentralPoint s) (fCentralPointTrials s)
     (fCurrentCov s) (fCovarianceTrials s) (fCovarianceWindow s) (fDecomposition s)
     (fProposalType s) (fTrials s) (fSuccesses s) (fNextUpdate s) (fAcceptance s) v
     (fAcceptanceWindow s) (fTargetAcceptance s) (fSigma s) (fStateInitialized s).
Definition set_fAcceptanceWindow v s :=
  mk (fLastPoint s) (fLastValue s) (fCentralPoint s) (fCentralPointTrials s)
     (fCurrentCov s) (fCovarianceTrials s) (fCovarianceWindow s) (fDecomposition s)
     (fProposalType s) (fTrials s) (fSuccesses s) (fNextUpdate s) (fAcceptance s)
     (fAcceptanceTrials s) v (fTargetAcceptance s) (fSigma s) (fStateInitialized s).
Definition set_fSigma v s :=
  mk (fLastPoint s) (fLastValue s) (fCentralPoint s) (fCentralPointTrials s)
     (fCurrentCov s) (fCovarianceTrials s) (fCovarianceWindow s) (fDecomposition s)
     (fProposalType s) (fTrials s) (fSuccesses s) (fNextUpdate s) (fAcceptance s)
     (fAcceptanceTrials s) (fAcceptanceWindow s) (fTargetAcceptance s) v
     (fStateInitialized s).
Definition set_fStateInitialized v s :=
  mk (fLastPoint s) (fLastValue s) (fCentralPoint s) (fCentralPointTrials s)
     (fCurrentCov s) (fCovarianceTrials s) (fCovarianceWindow s) (fDecomposition s)
     (fProposalType s) (fTrials s) (fSuccesses s) (fNextUpdate s) (fAcceptance s)
     (fAcceptanceTrials s) (fAcceptanceWindow s) (fTargetAcceptance s) (fSigma s) v.

(** *** Configuration *)

(** [void SetDim(int dim)] *)
Definition SetDim (dim : Z) (s : t) : outcome t :=
  if negb (is_empty (fLastPoint s)) then Ret s
  else if (dim <? 0)%Z then Fault LengthError
  else Ret (set_fProposalType (resize (Z.to_nat dim) ProposalType_new (fProposalType s))
             (set_fLastPoint (resize (Z.to_nat dim) 0 (fLastPoint s)) s)).

(** The guard of the per-dimension setters:
    [dim < 0 || (std::size_t) dim >= fProposalType.size()]. *)
Definition out_of_range (dim : Z) (s : t) : bool :=
  ((dim <? 0) || (Z.of_nat (length (fProposalType s)) <=? dim))%Z.

(** [void SetUniform(int dim, double minimum, double maximum)] *)
Definition SetUniform (dim : Z) (minimum maximum : float) (s : t) : outcome t :=
  if out_of_range dim s then Ret s
  else Ret (set_fProposalType
              (<[Z.to_nat dim := {| type := 1; param1 := minimum; param2 := maximum |}]>
                 (fProposalType s)) s).

(** [void SetGaussian(int dim, double sigma)] *)
Definition SetGaussian (dim : Z) (sigma : float) (s : t) : outcome t :=
  if out_of_range dim s then Ret s
  else Ret (set_fProposalType
              (alter (fun p => {| type := 0; param1 := sigma * sigma; param2 := param2 p |})
                     (Z.to_nat dim) (fProposalType s)) s).

(** [void SetCovarianceWindow(int w)] *)
Definition SetCovarianceWindow (w : Z) (s : t) : t :=
  set_fCovarianceWindow (double_of_Z w) s.

Definition GetEstimatedCenter (s : t) : Vector := fCentralPoint s.

(** *** The adaptive proposal *)

Section Engine.
Context {G : Type} (gRandom : TRandom G).
Context (std_pow : float -> float -> float).
(** [TDecompChol chol(m); chol.Decompose()] and, on success, [chol.GetU()]. *)
Context (Decompose : TMatrixD -> option TMatrixD).

(** [std::numeric_limits<double>::epsilon()] *)
Definition epsilon : float := 0x1p-52.

(** The head of [UpdateProposal]: the trial counts are deweighted. *)
Definition deweight (s : t) : t :=
  let s := set_fCovarianceTrials (std_max 1000 (0.1 * fCovarianceTrials s)) s in
  let s := set_fCovarianceTrials
             (std_min (fCovarianceTrials s) (0.1 * fCovarianceWindow s)) s in
  let s := set_fAcceptanceTrials (std_max 1000 (0.1 * fAcceptanceTrials s)) s in
  set_fAcceptanceTrials (std_min (fAcceptanceTrials s) (0.1 * fAcceptanceWindow s)) s.

(** The prechain estimate of the variance of one dimension; a type that is
    neither a hinted Gaussian nor Uniform reaches the [throw;]. *)
Definition expectedVariance (p : ProposalType) : outcome float :=
  if (type p =? 0)%Z && (0 <? param1 p) then Ret (param1 p)
  else if (type p =? 1)%Z then
    let w := param2 p - param1 p in Ret (w * w / 12)
  else Fault Terminate.

(** "Check for very small variances." *)
Definition floor_variances (s : t) : outcome TMatrixD :=
  for_loop (length (fLastPoint s)) 0
    (fun i cov =>
       p ← at_ (fProposalType s) i;
       ev ← expectedVariance p;
       let minimum := sqrt epsilon in
       if mget cov i i <? minimum * ev then Ret (mset cov i i (minimum * ev))
       else Ret cov)
    (fCurrentCov s).

(** "Check for very large correlations." *)
Definition cap_correlations (n : nat) (cov : TMatrixD) : outcome TMatrixD :=
  for_loop n 0
    (fun i cov =>
       for_loop (n - (i + 1)) (i + 1)
         (fun j cov =>
            let correlation := mget cov i j / sqrt (mget cov i i) / sqrt (mget cov j j) in
            let maxCorrelation := 0.95 in
            if correlation <? maxCorrelation then Ret cov
            else
              let cov := mset cov i j (maxCorrelation * maxCorrelation) in
              let cov := mset cov i j (mget cov i j * sqrt (mget cov i i)) in
              let cov := mset cov i j (mget cov i j * sqrt (mget cov j j)) in
              Ret (mset cov j i (mget cov i j)))
         cov)
    cov.

(** "Set up the initial estimate of the covariance." *)
Definition seed_covariance (s : t) : outcome TMatrixD :=
  let n := length (fLastPoint s) in
  for_loop n 0
    (fun i cov =>
       for_loop (n - i) i
         (fun j cov =>
            if (i =? j)%nat then
              p ← at_ (fProposalType s) i;
              if (type p =? 0)%Z && (0 <? param1 p) then Ret (mset cov i i (param1 p))
              else Ret (mset cov i i 1)
            else Ret (mset (mset cov j i 0) i j 0))
         cov)
    (ResizeTo n (fCurrentCov s)).

(** [ResetProposal] up to its closing call of [UpdateProposal]. *)
Definition reset (s : t) : outcome t :=
  let n := length (fLastPoint s) in
  let s := set_fTrials 0 s in
  let s := set_fSuccesses 0 s in
  let s := if fSigma s <? 0.01 * sqrt (1 / double_of_size n)
           then set_fSigma (sqrt (1 / double_of_size n)) s else s in
  let s := set_fDecomposition (ResizeTo n (fDecomposition s)) s in
  cov ← seed_covariance s;
  let s := set_fCurrentCov cov s in
  let minWindow := 1000%Z in
  let s := if fCovarianceWindow s <? double_of_Z minWindow
           then set_fCovarianceWindow 10000000 s else s in
  let s := set_fAcceptance (fTargetAcceptance s) s in
  let s := set_fAcceptanceTrials (std_min 10 (0.5 * fAcceptanceWindow s)) s in
  central ← std_copy (fLastPoint s) (resize n 0 (fCentralPoint s));
  let s := set_fCentralPoint central s in
  let s := set_fCentralPointTrials (std_min 10 (0.1 * fCovarianceWindow s)) s in
  Ret s.

(** [ResetProposal], with the [UpdateProposal] of its closing call passed in:
    the two methods call each other. *)
Definition ResetProposal_with (UpdateProposal : t -> outcome t) (s : t) : outcome t :=
  s ← reset s; UpdateProposal s.

(** The body of [UpdateProposal] below the deweighting: a Cholesky attempt,
    the repair of the covariance and a second attempt, and [ResetProposal]
    (passed in) when both fail. *)
Definition refresh (ResetProposal : t -> outcome t) (s : t) : outcome t :=
  match Decompose (fCurrentCov s) with
  | Some u => Ret (set_fDecomposition u s)
  | None =>
      cov ← floor_variances s;
      cov ← cap_correlations (length (fLastPoint s)) cov;
      let s := set_fCurrentCov cov s in
      match Decompose (fCurrentCov s) with
      | Some u => Ret (set_fDecomposition u s)
      | None => ResetProposal s
      end
  end.

(** [void UpdateProposal()].  The recursion through [ResetProposal] is not
    bounded by the code; [fuel] bounds its depth here. *)
Fixpoint UpdateProposal (fuel : nat) (s : t) : outcome t :=
  match fuel with
  | O => OutOfFuel
  | S fuel => refresh (ResetProposal_with (UpdateProposal fuel)) (deweight s)
  end.

(** [void ResetProposal()] *)
Definition ResetProposal (fuel : nat) (s : t) : outcome t :=
  ResetProposal_with (UpdateProposal fuel) s.

(** [void InitializeState(const Vector& current, const double value)] *)
Definition InitializeState (fuel : nat) (current : Vector) (value : float) (s : t)
  : outcome t :=
  if fStateInitialized s then Ret s
  else
    let s := set_fStateInitialized true s in
    s ← (if (length (fLastPoint s) <? 1)%nat
          then SetDim (Z.of_nat (length current)) s
          else Ret s);
    let s := set_fLastValue value s in
    lp ← std_copy current (fLastPoint s);
    let s := set_fLastPoint lp s in
    let s := set_fAcceptanceWindow
               (std_pow (1 * double_of_size (length (fLastPoint s))) 2 + 1000) s in
    nu ← int_of_double (fAcceptanceWindow s);
    let s := set_fNextUpdate nu s in
    ResetProposal fuel s.

(** "Make a quick check to see if the point moved":
    [value != fLastValue || current[1] != fLastPoint[1]], with the
    short-circuit of [||]. *)
Definition moved (current : Vector) (value : float) (s : t) : outcome bool :=
  if negb (value =? fLastValue s) then Ret true
  else
    c ← at_ current 1;
    l ← at_ (fLastPoint s) 1;
    Ret (negb (c =? l)).

(** The update of [fAcceptance] and [fAcceptanceTrials]. *)
Definition update_acceptance (accepted : bool) (s : t) : t :=
  let a := fAcceptance s * fAcceptanceTrials s in
  let a := if accepted then a + 1 else a in
  let a := a / (fAcceptanceTrials s + 1) in
  set_fAcceptanceTrials (std_min (fAcceptanceWindow s) (fAcceptanceTrials s + 1))
    (set_fAcceptance a s).

(** "Update the scale for the proposal step." *)
Definition update_scale (s : t) : t :=
  set_fSigma (fSigma s * std_pow (fAcceptance s / fTargetAcceptance s)
                                 (std_min 0.001 (0.5 / fAcceptanceWindow s))) s.

(** "Update the estimate of the central value." *)
Definition update_center (current : Vector) (s : t) : outcome t :=
  c ← for_loop (length current) 0
        (fun i c =>
           x ← at_ c i;
           ci ← at_ current i;
           assign c i ((x * fCentralPointTrials s + ci) / (fCentralPointTrials s + 1)))
        (fCentralPoint s);
  Ret (set_fCentralPointTrials
         (std_min (fCovarianceWindow s) (fCentralPointTrials s + 1))
         (set_fCentralPoint c s)).

(** "Update the estimate of the covariance." *)
Definition update_covariance (current : Vector) (s : t) : outcome t :=
  cov ← for_loop (length current) 0
          (fun i cov =>
             for_loop (i + 1) 0
               (fun j cov =>
                  let v := mget cov i j in
                  ci ← at_ current i;
                  mi ← at_ (fCentralPoint s) i;
                  cj ← at_ current j;
                  mj ← at_ (fCentralPoint s) j;
                  let r := (ci - mi) * (cj - mj) in
                  let v := (v * fCovarianceTrials s + r) / (fCovarianceTrials s + 1) in
                  if (i =? j)%nat then Ret (mset cov i j v)
                  else Ret (mset (mset cov j i v) i j v))
               cov)
          (fCurrentCov s);
  Ret (set_fCovarianceTrials
         (std_min (fCovarianceWindow s) (fCovarianceTrials s + 1))
         (set_fCurrentCov cov s)).

(** "Periodically change how the proposal is updated":
    [if (accepted && (--fNextUpdate)<1)]. *)
Definition periodic_update (fuel : nat) (accepted : bool) (s : t) : outcome t :=
  if accepted then
    let s := set_fNextUpdate (fNextUpdate s - 1) s in
    if (fNextUpdate s <? 1)%Z then
      nu ← int_of_double (fAcceptanceWindow s + 0.5 * double_of_Z (fSuccesses s));
      UpdateProposal fuel (set_fNextUpdate nu s)
    else Ret s
  else Ret s.

(** [void UpdateState(const Vector& current, const double value)] *)
Definition UpdateState (fuel : nat) (current : Vector) (value : float) (s : t)
  : outcome t :=
  s ← InitializeState fuel current value s;
  let s := set_fTrials (fTrials s + 1) s in
  accepted ← moved current value s;
  let s := if accepted : bool then set_fSuccesses (fSuccesses s + 1) s else s in
  let s := update_acceptance accepted s in
  let s := update_scale s in
  s ← update_center current s;
  s ← update_covariance current s;
  s ← periodic_update fuel accepted s;
  let s := set_fLastValue value s in
  lp ← std_copy current (fLastPoint s);
  Ret (set_fLastPoint lp s).

(** The inner loop of the proposal: row [i] of the decomposition, scaled by
    the one variate [r], is added to the Gaussian dimensions. *)
Definition add_row (s : t) (i : nat) (r : float) (proposal : Vector) : outcome Vector :=
  for_loop (length proposal) 0
    (fun j proposal =>
       pj ← at_ (fProposalType s) j;
       if (type pj =? 1)%Z then Ret proposal
       else
         x ← at_ proposal j;
         assign proposal j (x + fSigma s * r * mget (fDecomposition s) i j))
    proposal.

(** One turn of the outer loop of the proposal. *)
Definition propose_dim (s : t) (i : nat) (gp : G * Vector) : outcome (G * Vector) :=
  let '(g, proposal) := gp in
  p ← at_ (fProposalType s) i;
  if (type p =? 1)%Z then
    let '(x, g) := Uniform gRandom (param1 p) (param2 p) g in
    proposal ← assign proposal i x;
    Ret (g, proposal)
  else
    let '(r, g) := Gaus gRandom 0 1 g in
    proposal ← add_row s i r proposal;
    Ret (g, proposal).

(** "Make the proposal." *)
Definition make_proposal (s : t) (g : G) (proposal : Vector) : outcome (G * Vector) :=
  for_loop (length proposal) 0 (propose_dim s) (g, proposal).

(** [void operator()(Vector& proposal, const Vector& current, const double value)] *)
Definition call (fuel : nat) (s : t) (g : G) (proposal current : Vector) (value : float)
  : outcome (t * G * Vector) :=
  if negb (length proposal =? length current)%nat then Fault Terminate
  else
    s ← UpdateState fuel current value s;
    proposal ← std_copy current proposal;
    '(g, proposal) ← make_proposal s g proposal;
    Ret (s, g, proposal).

End Engine.
End TProposeAdaptiveStep.

(** ** class TConstrainedLikelihood

    The likelihood of the constrained-sum example: a Gaussian constraint on
    the sum of the parameters and a Gaussian prior on each of them. *)

Module TConstrainedLikelihood.

(** A call returns a value, leaves through [exit(status)], or reads a vector
    past its end. *)
Inductive result (A : Type) : Type :=
| Value (a : A)
| Exit (status : Z)
| Overrun (index size : nat).
Arguments Value {A} a.
Arguments Exit {A} status.
Arguments Overrun {A} index size.

#[global] Instance result_ret : MRet result := @Value.
#[global] Instance result_bind : MBind result := fun A B k c =>
  match c with
  | Value a => k a
  | Exit status => Exit status
  | Overrun index size => Overrun index size
  end.

(** [v[i]] *)
Definition read (v : Vector) (i : nat) : result float :=
  match v !! i with
  | Some x => Value x
  | None => Overrun i (length v)
  end.

(** [for (std::size_t i = lo; i < lo + n; ++i) body(i)] *)
Fixpoint loop {A : Type} (n lo : nat) (body : nat -> A -> result A) (a : A) : result A :=
  match n with
  | O => Value a
  | S n' => a' ← body lo a; loop n' (S lo) body a'
  end.

Record t : Type := mk {
  ExpectedValues : Vector;
  PriorConstraints : Vector;
  SummedValues : float;
  SummedConstraint : float
}.

(** [std::size_t GetDim() const] *)
Definition GetDim (l : t) : result nat :=
  if decide (length (ExpectedValues l) = length (PriorConstraints l))
  then Value (length (ExpectedValues l))
  else Exit 1.

(** [double operator()(const Vector& point) const].  The bound [GetDim()] of
    the two loops is the same at every test: the object is not modified. *)
Definition call (l : t) (point : Vector) : result float :=
  let logLikelihood := 0 in
  d ← GetDim l;
  sum ← loop d 0 (fun i sum => x ← read point i; Value (sum + x)) 0;
  let sum := (sum - SummedValues l) / SummedConstraint l in
  let logLikelihood := logLikelihood - 0.5 * sum * sum in
  d ← GetDim l;
  loop d 0
    (fun i logLikelihood =>
       p ← read point i;
       e ← read (ExpectedValues l) i;
       let v := p - e in
       c ← read (PriorConstraints l) i;
       let v := v / c in
       Value (logLikelihood - 0.5 * v * v))
    logLikelihood.

(** [void Init()]: the constraint on the sum, and 25 priors pushed onto the
    two vectors. *)
Definition Init (l : t) : t :=
  mk (ExpectedValues l ++ replicate 24 76 ++ [80])
     (PriorConstraints l ++ replicate 24 (76 * 0.08) ++ [2])
     1902 16.

End TConstrainedLikelihood.

(** ** Stand-ins for the collaborators

    Executable instances of the parameters, used to run the model on concrete
    inputs.  They fix only what the examples below rely on. *)

Module Demo.

(** A scripted random source: the tape lists the successive raw variates.
    [Uniform(x1,x2)] scales one of them as ROOT does, [x1 + (x2-x1)*u];
    [Gaus(mean,sigma)] reads one as a standard normal variate. *)
Definition Rndm (g : list float) : float * list float :=
  match g with
  | [] => (0.5, [])
  | u :: g => (u, g)
  end.

Definition tape : TRandom (list float) :=
  {| Uniform01 := Rndm;
     Uniform := fun x1 x2 g => let '(u, g) := Rndm g in (x1 + (x2 - x1) * u, g);
     Gaus := fun mean sigma g => let '(z, g) := Rndm g in (mean + sigma * z, g) |}.

(** A stand-in for [std::log]: the values IEEE 754 and C (Annex F) fix at
    zero, infinity, NaN and below zero, and a truncated series
    [2 atanh((m-1)/(m+1)) + e ln 2] elsewhere. *)
Definition log (x : float) : float :=
  if x =? 0 then neg_infinity
  else if x <? 0 then nan
  else if x =? infinity then infinity
  else if is_nan x then nan
  else
    let '(m, e) := Z.frexp x in
    let z := (m - 1) / (m + 1) in
    let w := z * z in
    let series := 1 + w * (1/3 + w * (1/5 + w * (1/7 + w * (1/9 + w * (1/11
                  + w * (1/13 + w * (1/15 + w * (1/17 + w * (1/19))))))))) in
    double_of_Z e * 0x1.62e42fefa39efp-1 + 2 * z * series.

(** A stand-in for [std::exp] near zero. *)
Definition exp (t : float) : float :=
  1 + t * (1 + t / 2 * (1 + t / 3 * (1 + t / 4 * (1 + t / 5 * (1 + t / 6
    * (1 + t / 7 * (1 + t / 8))))))).

(** A stand-in for [std::pow]: [pow(1,y) = 1] and [pow(x,0) = 1] for every
    [y] and [x] (C, Annex F), squares exactly, and [exp(y log x)] elsewhere. *)
Definition pow (x y : float) : float :=
  if x =? 1 then 1
  else if y =? 0 then 1
  else if y =? 2 then x * x
  else exp (y * log x).

(** A stand-in for [TDecompChol]: the upper-triangular factor [U] with
    [U^T U = A], row by row; it fails on a pivot that is not positive. *)
Definition dot_col (rows : TMatrixD) (a b : nat) : float :=
  foldl (fun acc row => acc + nth a row nan * nth b row nan) 0 rows.

Fixpoint chol_rows (k n j : nat) (A rows : TMatrixD) : option TMatrixD :=
  match k with
  | O => Some rows
  | S k =>
      let ujj := mget A j j - dot_col rows j j in
      if ujj <=? 0 then None
      else
        let d := sqrt ujj in
        let row := (fun i => if (i <? j)%nat then 0
                             else if (i =? j)%nat then d
                             else (mget A j i - dot_col rows j i) / d) <$> seq 0 n in
        chol_rows k n (S j) A (rows ++ [row])
  end.

Definition Decompose (A : TMatrixD) : option TMatrixD :=
  chol_rows (length A) (length A) 0 A [].

(** The likelihood of the header's usage example: a unit Gaussian. *)
Definition TDummyLogLikelihood (point : Vector) : float :=
  foldl (fun acc x => acc + - (0.5 * x * x)) 0 point.

(** A likelihood with bounded support: zero probability outside [-1,1]^d. *)
Definition TBoxLogLikelihood (point : Vector) : float :=
  if forallb (fun x => (-1 <=? x) && (x <=? 1)) point then 0 else neg_infinity.

(** A proposal that displaces every coordinate by the next variate. *)
Definition TProposeSimple := TProposeSimpleStep.call tape.

Definition TProposeAdaptive (fuel : nat) :=
  TProposeAdaptiveStep.call tape pow Decompose fuel.

(** A random source with two states, alternating between the raw variates
    0.25 and 0.75. *)
Definition flip_Rndm (g : bool) : float * bool :=
  if g then (0.25, false) else (0.75, true).

Definition flip : TRandom bool :=
  {| Uniform01 := flip_Rndm;
     Uniform := fun x1 x2 g => let '(u, g) := flip_Rndm g in (x1 + (x2 - x1) * u, g);
     Gaus := fun mean sigma g => let '(z, g) := flip_Rndm g in (mean + sigma * z, g) |}.

(** A driver around [TProposeSimpleStep], as its constructor leaves it (the
    fields without initialiser are given zero). *)
Definition simple0 : TSimpleMCMC.t TProposeSimpleStep.t :=
  TSimpleMCMC.new TProposeSimpleStep.new None 0 0.

(** The result of a step, or the state it started from when it did not
    return. *)
Definition after {P G : Type} (m : TSimpleMCMC.t P) (r : outcome (bool * TSimpleMCMC.t P * G))
  : TSimpleMCMC.t P :=
  match r with Ret (_, m', _) => m' | _ => m end.

(** The unit Gaussian, started at 0, after one saved step whose proposal
    [3] was rejected: the trial step holds [3]. *)
Definition rejected3 : TSimpleMCMC.t TProposeSimpleStep.t :=
  Eval vm_compute in
    let m := TSimpleMCMC.Start TDummyLogLikelihood [0] true simple0 in
    after m (TSimpleMCMC.Step tape log TDummyLogLikelihood TProposeSimple true m [3; 0.5]).

(** A three-dimensional engine whose middle dimension is Uniform on [-5,5). *)
Definition mixed3 : TProposeAdaptiveStep.t :=
  TProposeAdaptiveStep.mk [0; 0; 0] 0 [0; 0; 0] 10 [] 1000 10000000
    [[1; 0; 0.5]; [0; 1; 0]; [0; 0; 1]]
    [TProposeAdaptiveStep.ProposalType_new;
     {| TProposeAdaptiveStep.type := 1; TProposeAdaptiveStep.param1 := -5;
        TProposeAdaptiveStep.param2 := 5 |};
     TProposeAdaptiveStep.ProposalType_new]
    0 0 1009 0.44 100 1009 0.44 0.5 true.

(** A two-dimensional engine configured before the first step: [SetDim(2)]
    then [SetUniform(0,-5,5)]. *)
Definition uniform0 : TProposeAdaptiveStep.t :=
  Eval vm_compute in
    match s ← TProposeAdaptiveStep.SetDim 2 (TProposeAdaptiveStep.new 0 0 0);
          TProposeAdaptiveStep.SetUniform 0 (-5) 5 s with
    | Ret s => s
    | _ => TProposeAdaptiveStep.new 0 0 0
    end.

(** [uniform0] after the [UpdateState] of its first call, at the point
    [0; 0] of log-likelihood 0. *)
Definition uniform1 : TProposeAdaptiveStep.t :=
  Eval vm_compute in
    match TProposeAdaptiveStep.UpdateState pow Decompose 3 [0; 0] 0 uniform0 with
    | Ret s => s
    | _ => uniform0
    end.

(** A two-dimensional engine, both dimensions Uniform on [-1,1), whose
    covariance estimate has the correlation -2: neither Cholesky attempt of
    [UpdateProposal] succeeds on it. *)
Definition stuck : TProposeAdaptiveStep.t :=
  TProposeAdaptiveStep.mk [0; 0] 0 [0; 0] 10 [[1; -2]; [-2; 1]] 50000 10000000
    [[1; 0]; [0; 1]]
    [{| TProposeAdaptiveStep.type := 1; TProposeAdaptiveStep.param1 := -1;
        TProposeAdaptiveStep.param2 := 1 |};
     {| TProposeAdaptiveStep.type := 1; TProposeAdaptiveStep.param1 := -1;
        TProposeAdaptiveStep.param2 := 1 |}]
    70000 30000 1 0.44 20000 1004 0.44 0.5 true.

(** [mixed3] after the [UpdateState] of a call at the point [0; 0; 0] of
    log-likelihood 0. *)
Definition mixed4 : TProposeAdaptiveStep.t :=
  Eval vm_compute in
    match TProposeAdaptiveStep.UpdateState pow Decompose 3 [0; 0; 0] 0 mixed3 with
    | Ret s => s
    | _ => mixed3
    end.

(** A one-dimensional engine: the engine of the constructor after the
    [UpdateState] of a first call at the point [0], where the log-likelihood
    is NaN. *)
Definition line1 : TProposeAdaptiveStep.t :=
  Eval vm_compute in
    match TProposeAdaptiveStep.UpdateState pow Decompose 3 [0] nan
            (TProposeAdaptiveStep.new 0 0 0) with
    | Ret s => s
    | _ => TProposeAdaptiveStep.new 0 0 0
    end.

End Demo.

(** ** Vocabulary of the statements *)

(** The driver after [Start] on a non-empty point: the three vectors have the
    length of that point. *)
Definition started {P : Type} (m : TSimpleMCMC.t P) : Prop :=
  is_empty (TSimpleMCMC.fAccepted m) = false /\
  length (TSimpleMCMC.fProposed m) = length (TSimpleMCMC.fAccepted m) /\
  length (TSimpleMCMC.fTrialStep m) = length (TSimpleMCMC.fAccepted m).

(** The trial step is cached up to index [i]: below [i] it holds
    [proposed - accepted], from [i] on it still holds [trial]. *)
Definition cached (proposed accepted trial : Vector) (i : nat) (ts : Vector) : Prop :=
  length ts = length trial /\
  (forall k p a, (k < i)%nat -> proposed !! k = Some p -> accepted !! k = Some a ->
                 ts !! k = Some (p - a)) /\
  (forall k, (i <= k)%nat -> ts !! k = trial !! k).

(** What the row [i] of the decomposition, scaled by the variate [r], makes of
    the coordinate [j] whose proposal type is [q] and whose value was [x]. *)
Definition contribution (s : TProposeAdaptiveStep.t) (i : nat) (r : float)
           (q : TProposeAdaptiveStep.ProposalType) (j : nat) (x : float) : float :=
  if (TProposeAdaptiveStep.type q =? 1)%Z then x
  else x + TProposeAdaptiveStep.fSigma s * r
           * mget (TProposeAdaptiveStep.fDecomposition s) i j.

(** The range of a C++ [int].  The counters are kept as [Z]: [++n] is the
    program's [n + 1] for an [int] below [INT_MAX], and [--n] its [n - 1] for
    an [int] above [INT_MIN]. *)
Definition INT_MAX : Z := 2147483647.
Definition INT_MIN : Z := -2147483648.

(** The loop of the simple proposal, turn by turn: the generator before the
    turn [i], each turn before it having made one draw of [Gaus(0,sigma)]. *)
Fixpoint simple_generator_before {G : Type} (gRandom : TRandom G) (sigma : float)
         (g : G) (i : nat) : G :=
  match i with
  | O => g
  | S i => (Gaus gRandom 0 sigma (simple_generator_before gRandom sigma g i)).2
  end.

(** The proposal loop, turn by turn: the generator before the turn [i] (each
    turn makes one draw, [Uniform(param1,param2)] for a Uniform dimension and
    [Gaus(0,1)] for any other), the variate drawn at the turn [i], and the
    coordinate [j], which started at [x], after the rows before [i] have
    been added to it. *)
Fixpoint generator_before {G : Type} (gRandom : TRandom G) (s : TProposeAdaptiveStep.t)
         (g : G) (i : nat) : G :=
  match i with
  | O => g
  | S i =>
      let g' := generator_before gRandom s g i in
      match TProposeAdaptiveStep.fProposalType s !! i with
      | Some p =>
          if (TProposeAdaptiveStep.type p =? 1)%Z
          then (Uniform gRandom (TProposeAdaptiveStep.param1 p)
                        (TProposeAdaptiveStep.param2 p) g').2
          else (Gaus gRandom 0 1 g').2
      | None => g'
      end
  end.

Definition variate {G : Type} (gRandom : TRandom G) (s : TProposeAdaptiveStep.t)
           (g : G) (i : nat) : float :=
  let g' := generator_before gRandom s g i in
  match TProposeAdaptiveStep.fProposalType s !! i with
  | Some p =>
      if (TProposeAdaptiveStep.type p =? 1)%Z
      then (Uniform gRandom (TProposeAdaptiveStep.param1 p)
                    (TProposeAdaptiveStep.param2 p) g').1
      else (Gaus gRandom 0 1 g').1
  | None => 0
  end.

Fixpoint rows_added {G : Type} (gRandom : TRandom G) (s : TProposeAdaptiveStep.t)
         (g : G) (j : nat) (x : float) (i : nat) : float :=
  match i with
  | O => x
  | S i =>
      let y := rows_added gRandom s g j x i in
      match TProposeAdaptiveStep.fProposalType s !! i with
      | Some p =>
          if (TProposeAdaptiveStep.type p =? 1)%Z then y
          else y + TProposeAdaptiveStep.fSigma s * variate gRandom s g i
                   * mget (TProposeAdaptiveStep.fDecomposition s) i j
      | None => y
      end
  end.


(** The engine [s'] has the settings of [s]: the fields that neither
    [UpdateProposal] nor [ResetProposal] assigns. *)
Definition same_settings (s s' : TProposeAdaptiveStep.t) : Prop :=
  TProposeAdaptiveStep.fLastPoint s' = TProposeAdaptiveStep.fLastPoint s /\
  TProposeAdaptiveStep.fLastValue s' = TProposeAdaptiveStep.fLastValue s /\
  TProposeAdaptiveStep.fProposalType s' = TProposeAdaptiveStep.fProposalType s /\
  TProposeAdaptiveStep.fTargetAcceptance s' = TProposeAdaptiveStep.fTargetAcceptance s /\
  TProposeAdaptiveStep.fAcceptanceWindow s' = TProposeAdaptiveStep.fAcceptanceWindow s /\
  TProposeAdaptiveStep.fNextUpdate s' = TProposeAdaptiveStep.fNextUpdate s /\
  TProposeAdaptiveStep.fStateInitialized s' = TProposeAdaptiveStep.fStateInitialized s.

(** The engine [s'] has the history of [s]: the counts, the acceptance, the
    central point and the step scale. *)
Definition same_history (s s' : TProposeAdaptiveStep.t) : Prop :=
  TProposeAdaptiveStep.fTrials s' = TProposeAdaptiveStep.fTrials s /\
  TProposeAdaptiveStep.fSuccesses s' = TProposeAdaptiveStep.fSuccesses s /\
  TProposeAdaptiveStep.fAcceptance s' = TProposeAdaptiveStep.fAcceptance s /\
  TProposeAdaptiveStep.fCentralPoint s' = TProposeAdaptiveStep.fCentralPoint s /\
  TProposeAdaptiveStep.fCentralPointTrials s' = TProposeAdaptiveStep.fCentralPointTrials s /\
  TProposeAdaptiveStep.fSigma s' = TProposeAdaptiveStep.fSigma s /\
  TProposeAdaptiveStep.fCovarianceWindow s' = TProposeAdaptiveStep.fCovarianceWindow s.

(** A matrix of [n] rows and [n] columns. *)
Definition square (n : nat) (m : TMatrixD) : Prop :=
  length m = n /\ forall i row, m !! i = Some row -> length row = n.


(** The history as [ResetProposal] leaves it: no trial counted, the
    acceptance at its target, the central point at the last point. *)
Definition history_erased (s : TProposeAdaptiveStep.t) : Prop :=
  TProposeAdaptiveStep.fTrials s = 0%Z /\
  TProposeAdaptiveStep.fSuccesses s = 0%Z /\
  TProposeAdaptiveStep.fAcceptance s = TProposeAdaptiveStep.fTargetAcceptance s /\
  TProposeAdaptiveStep.fCentralPoint s = TProposeAdaptiveStep.fLastPoint s.


(** * Facts *)

(** ** binary64 arithmetic *)

(** [0 <= d] excludes [d < 0], NaN included. *)
Lemma ltb_zero_of_leb (d : float) : (0 <=? d) = true -> (d <? 0) = false.
Proof.
  rewrite leb_spec, ltb_spec.
  change (Prim2SF 0) with (S754_zero false).
  destruct (Prim2SF d) as [s|s| |s m e]; try destruct s; cbn; congruence.
Qed.

(** [-inf - a = -inf] for every finite [a]. *)
Lemma sub_neg_infinity (a : float) : is_finite a = true -> neg_infinity - a = neg_infinity.
Proof.
  unfold is_finite, is_nan, is_infinity. rewrite !FloatAxioms.eqb_spec, abs_spec.
  intros H. apply Prim2SF_inj. rewrite sub_spec.
  change (Prim2SF neg_infinity) with (S754_infinity true).
  change (Prim2SF infinity) with (S754_infinity false) in H.
  destruct (Prim2SF a) as [s|s| |s m e]; try destruct s; cbn in *; congruence.
Qed.

(** The number 1 is [2^52 * 2^-52]. *)
Lemma Prim2SF_one : Prim2SF 1 = S754_finite false 4503599627370496 (-52).
Proof. reflexivity. Qed.

(** A finite non-zero number divided by itself: the quotient of the mantissas
    is [2^53] exactly, which rounds to 1. *)
Lemma finite_div_self s m e :
  SF64div (S754_finite s m e) (S754_finite s m e) = S754_finite false 4503599627370496 (-52).
Proof.
  unfold SF64div, SFdiv, SFdiv_core_binary.
  replace (Zdigits2 (Z.pos m) + e - (Zdigits2 (Z.pos m) + e))%Z with 0%Z by lia.
  replace (e - e)%Z with 0%Z by lia.
  change (0 - Z.min (fexp prec emax 0) 0)%Z with 53%Z.
  change (Z.min (fexp prec emax 0) 0)%Z with (-53)%Z.
  cbv iota beta.
  assert (Hm : Z.shiftl (Z.pos m) 53 = (9007199254740992 * Z.pos m)%Z).
  { rewrite Z.shiftl_mul_pow2 by lia. change (2 ^ 53)%Z with 9007199254740992%Z. lia. }
  rewrite Hm.
  assert (Hq : Z.div_eucl (9007199254740992 * Z.pos m) (Z.pos m) = (9007199254740992, 0)%Z).
  { pose proof (Z.div_mul 9007199254740992 (Z.pos m) ltac:(lia)) as Hd.
    pose proof (Z.mod_mul 9007199254740992 (Z.pos m) ltac:(lia)) as Hr.
    unfold Z.div, Z.modulo in Hd, Hr.
    destruct (Z.div_eucl (9007199254740992 * Z.pos m) (Z.pos m)) as [q r].
    congruence. }
  rewrite Hq.
  replace (new_location (Z.pos m) 0) with loc_Exact
    by (unfold new_location; now destruct (Z.even (Z.pos m))).
  now destruct s.
Qed.

(** [x / x = 1] for every finite non-zero [x]. *)
Lemma div_self (x : float) : is_finite x = true -> (x =? 0) = false -> x / x = 1.
Proof.
  unfold is_finite, is_nan, is_infinity. rewrite !FloatAxioms.eqb_spec, abs_spec.
  change (Prim2SF infinity) with (S754_infinity false).
  change (Prim2SF 0) with (S754_zero false).
  intros Hf Hz. apply Prim2SF_inj. rewrite div_spec, Prim2SF_one.
  destruct (Prim2SF x) as [s|s| |s m e]; try destruct s; try discriminate;
    apply finite_div_self.
Qed.

(** A canonical mantissa times [2^52], shifted back by 52 bits, is itself:
    nothing is rounded away. *)
Lemma finite_mul_one s m e :
  bounded prec emax m e = true ->
  SF64mul (S754_finite s m e) (S754_finite false 4503599627370496 (-52)) = S754_finite s m e.
Proof.
  unfold bounded, canonical_mantissa. intros [Hc He]%andb_true_iff.
  apply Z.eqb_eq in Hc.
  unfold SF64mul, SFmul, binary_round_aux.
  rewrite Pos.mul_comm. cbv beta iota delta [Pos.mul].
  unfold shr_fexp at 1.
  set (M := Z.pos _).
  assert (HdM : Zdigits2 M = (Z.pos (digits2_pos m) + 52)%Z).
  { subst M. cbn [Zdigits2 digits2_pos]. rewrite !Pos2Z.inj_succ. lia. }
  rewrite HdM.
  replace (fexp prec emax (Z.pos (digits2_pos m) + 52 + (e + -52)) - (e + -52))%Z with 52%Z.
  2:{ replace (Z.pos (digits2_pos m) + 52 + (e + -52))%Z with (Z.pos (digits2_pos m) + e)%Z by lia.
      rewrite Hc. lia. }
  subst M. cbn [shr shr_record_of_loc SpecFloat.iter_pos shr_1 orb].
  cbn [shr_m loc_of_shr_record round_nearest_even].
  unfold shr_fexp. cbn [Zdigits2].
  replace (e + -52 + 52)%Z with e by lia.
  rewrite Hc, Z.sub_diag. cbn [shr shr_record_of_loc shr_m].
  rewrite He. now destruct s.
Qed.

(** [x * 1 = x] for every [x], the infinities and NaN included. *)
Lemma mul_one (x : float) : x * 1 = x.
Proof.
  apply Prim2SF_inj. rewrite mul_spec, Prim2SF_one.
  pose proof (Prim2SF_valid x) as Hv.
  destruct (Prim2SF x) as [s|s| |s m e]; try (now destruct s); [reflexivity |].
  now apply finite_mul_one.
Qed.

(** A positive number of [d] binary digits lies in [[2^(d-1), 2^d)]. *)
Lemma digits2_bounds m :
  (2 ^ (Z.pos (digits2_pos m) - 1) <= Z.pos m < 2 ^ Z.pos (digits2_pos m))%Z.
Proof.
  induction m as [m IH|m IH|]; cbn [digits2_pos]; [| | cbn; lia];
    rewrite Pos2Z.inj_succ;
    replace (Z.succ (Z.pos (digits2_pos m)) - 1)%Z
      with (Z.succ (Z.pos (digits2_pos m) - 1)) by lia;
    rewrite !Z.pow_succ_r by lia; lia.
Qed.

(** Aligning a mantissa on a smaller exponent multiplies it by a power of 2. *)
Lemma shl_align_value m e e' :
  (e' <= e)%Z -> Z.pos (fst (shl_align m e e')) = (Z.pos m * 2 ^ (e - e'))%Z.
Proof.
  intros H. unfold shl_align. destruct (e' - e)%Z as [|d|d] eqn:Hd; cbn [fst]; try lia.
  - replace (e - e')%Z with 0%Z by lia. lia.
  - replace (e - e')%Z with (Z.pos d) by lia.
    change (Pos.iter xO m d) with (shift_pos d m).
    rewrite shift_pos_correct, Z.pow_pos_fold. lia.
Qed.

(** Rounding keeps the sign it was given. *)
Lemma round_aux_not_negative m e l :
  SFltb (binary_round_aux prec emax false m e l) (S754_zero false) = false.
Proof.
  unfold binary_round_aux.
  destruct (shr_fexp prec emax m e l) as [mrs' e'].
  destruct (shr_fexp prec emax _ e' loc_Exact) as [mrs'' e''].
  destruct (shr_m mrs''); [reflexivity | | reflexivity].
  now destruct (e'' <=? emax - prec)%Z.
Qed.

Lemma normalize_not_negative m e :
  (0 <= m)%Z -> SFltb (binary_normalize prec emax m e false) (S754_zero false) = false.
Proof.
  intros H. destruct m as [|p|p]; [reflexivity | | lia].
  unfold binary_normalize, binary_round.
  destruct (shl_align _ _ _). apply round_aux_not_negative.
Qed.

(** Two canonical mantissas with different exponents: the one with the larger
    exponent is the larger number. *)
Lemma canonical_lt m1 e1 m2 e2 :
  canonical_mantissa prec emax m1 e1 = true ->
  canonical_mantissa prec emax m2 e2 = true ->
  (e1 < e2)%Z ->
  (Z.pos m1 < Z.pos m2 * 2 ^ (e2 - e1))%Z.
Proof.
  unfold canonical_mantissa, fexp. intros H1%Z.eqb_eq H2%Z.eqb_eq He.
  change (SpecFloat.emin prec emax) with (-1074)%Z in *. change prec with 53%Z in *.
  pose proof (digits2_bounds m1) as [_ B1]. pose proof (digits2_bounds m2) as [B2 _].
  assert (D2 : Z.pos (digits2_pos m2) = 53%Z) by lia.
  assert (D1 : (Z.pos (digits2_pos m1) <= 53)%Z) by lia.
  rewrite D2 in B2. change (2 ^ (53 - 1))%Z with 4503599627370496%Z in B2.
  assert (Z.pos m1 < 9007199254740992)%Z.
  { eapply Z.lt_le_trans; [exact B1 |]. change 9007199254740992%Z with (2 ^ 53)%Z.
    apply Z.pow_le_mono_r; lia. }
  assert (2 ^ 1 <= 2 ^ (e2 - e1))%Z by (apply Z.pow_le_mono_r; lia).
  change (2 ^ 1)%Z with 2%Z in *. nia.
Qed.

(** The difference of two finite numbers, the smaller taken from the larger,
    is not below zero. *)
Lemma finite_sub_not_negative sx mx ex sy my ey :
  bounded prec emax mx ex = true -> bounded prec emax my ey = true ->
  SFleb (S754_finite sy my ey) (S754_finite sx mx ex) = true ->
  SFltb (SF64sub (S754_finite sx mx ex) (S754_finite sy my ey)) (S754_zero false) = false.
Proof.
  unfold bounded. intros [Hx _]%andb_true_iff [Hy _]%andb_true_iff Hle.
  unfold SF64sub, SFsub. cbv zeta. apply normalize_not_negative.
  rewrite !shl_align_value by lia.
  assert (Px : (0 < 2 ^ (ex - Z.min ex ey))%Z) by (apply Z.pow_pos_nonneg; lia).
  assert (Py : (0 < 2 ^ (ey - Z.min ex ey))%Z) by (apply Z.pow_pos_nonneg; lia).
  unfold SFleb, SFcompare in Hle.
  destruct sx, sy; cbn [cond_Zopp]; try discriminate; try nia.
  - (* both negative *)
    destruct (Z.compare_spec ey ex) as [->|Hlt|Hgt]; try discriminate.
    + rewrite Z.min_id, Z.sub_diag in *. change (2 ^ 0)%Z with 1%Z.
      fold (Pos.compare my mx) in Hle.
      destruct (Pos.compare_spec my mx); cbn in Hle; try discriminate; lia.
    + replace (Z.min ex ey) with ex by lia. rewrite Z.sub_diag. change (2 ^ 0)%Z with 1%Z.
      pose proof (canonical_lt mx ex my ey Hx Hy ltac:(lia)). lia.
  - (* both positive *)
    destruct (Z.compare_spec ey ex) as [->|Hlt|Hgt]; try discriminate.
    + rewrite Z.min_id, Z.sub_diag in *. change (2 ^ 0)%Z with 1%Z.
      fold (Pos.compare my mx) in Hle.
      destruct (Pos.compare_spec my mx); cbn in Hle; try discriminate; lia.
    + replace (Z.min ex ey) with ey by lia. rewrite Z.sub_diag. change (2 ^ 0)%Z with 1%Z.
      pose proof (canonical_lt my ey mx ex Hy Hx ltac:(lia)). lia.
Qed.

(** [a <= b] excludes [b - a < 0]: the difference is zero, positive, or NaN
    (for two infinities of the same sign). *)
Lemma sub_not_negative (a b : float) : (a <=? b) = true -> (b - a <? 0) = false.
Proof.
  rewrite leb_spec, ltb_spec, sub_spec. change (Prim2SF 0) with (S754_zero false).
  pose proof (Prim2SF_valid a) as Ha. pose proof (Prim2SF_valid b) as Hb.
  destruct (Prim2SF a) as [sa|sa| |sa ma ea], (Prim2SF b) as [sb|sb| |sb mb eb];
    try (now apply finite_sub_not_negative);
    try (destruct sa); try (destruct sb); cbn; congruence.
Qed.

(** A number that is not NaN compares equal to itself. *)
Lemma SFcompare_refl x : x <> S754_nan -> SFcompare x x = Some Eq.
Proof.
  destruct x as [s|s| |s m e]; try destruct s; cbn; try congruence; intros _;
    rewrite Z.compare_refl, Pos.compare_cont_refl; reflexivity.
Qed.

(** [is_nan] holds of the NaN of the specification only. *)
Lemma is_nan_Prim2SF (x : float) : is_nan x = true -> Prim2SF x = S754_nan.
Proof.
  unfold is_nan. rewrite FloatAxioms.eqb_spec. unfold SFeqb.
  destruct (Prim2SF x) as [s|s| |s m e] eqn:E; try reflexivity;
    rewrite SFcompare_refl by discriminate; discriminate.
Qed.

(** A difference with a NaN operand is not below zero. *)
Lemma sub_nan_not_negative (a b : float) :
  is_nan a = true \/ is_nan b = true -> (a - b <? 0) = false.
Proof.
  rewrite ltb_spec, sub_spec.
  intros [->%is_nan_Prim2SF | ->%is_nan_Prim2SF]; [reflexivity |].
  now destruct (Prim2SF a).
Qed.

(** Nothing lies below negative infinity: [x - (-inf)] is [+inf] or NaN. *)
Lemma sub_neg_infinity_not_negative (x : float) : (x - neg_infinity <? 0) = false.
Proof.
  rewrite ltb_spec, sub_spec. change (Prim2SF neg_infinity) with (S754_infinity true).
  destruct (Prim2SF x) as [s|s| |s m e]; try destruct s; reflexivity.
Qed.

(** [<] is irreflexive and implies [<=]. *)
Lemma ltb_irrefl (x : float) : (x <? x) = false.
Proof.
  rewrite ltb_spec. unfold SFltb.
  destruct (Prim2SF x) as [s|s| |s m e] eqn:E; try reflexivity;
    rewrite SFcompare_refl by discriminate; reflexivity.
Qed.

Lemma ltb_leb (a b : float) : (a <? b) = true -> (a <=? b) = true.
Proof.
  rewrite ltb_spec, leb_spec. unfold SFltb, SFleb.
  now destruct (SFcompare _ _) as [[]|].
Qed.

(** [min(max(1000, x), w)] is not above [w], and is at least 1000 when [w]
    is, whatever [x] holds (NaN included). *)
Lemma clamp_bounds (x w : float) :
  (w <? std_min (std_max 1000 x) w) = false /\
  ((1000 <=? w) = true -> (1000 <=? std_min (std_max 1000 x) w) = true).
Proof.
  unfold std_min, std_max.
  destruct (w <? (if 1000 <? x then x else 1000)) eqn:E; split;
    try assumption; try apply ltb_irrefl; try tauto.
  intros _. destruct (1000 <? x) eqn:E1; [now apply ltb_leb | reflexivity].
Qed.

(** Rounding with the negative sign gives nothing above zero. *)
Lemma round_aux_not_positive m e l :
  SFltb (S754_zero false) (binary_round_aux prec emax true m e l) = false.
Proof.
  unfold binary_round_aux.
  destruct (shr_fexp prec emax m e l) as [mrs' e'].
  destruct (shr_fexp prec emax _ e' loc_Exact) as [mrs'' e''].
  destruct (shr_m mrs''); [reflexivity | | reflexivity].
  now destruct (e'' <=? emax - prec)%Z.
Qed.

Lemma normalize_not_positive m e :
  (m <= 0)%Z -> SFltb (S754_zero false) (binary_normalize prec emax m e false) = false.
Proof.
  intros H. destruct m as [|p|p]; [reflexivity | lia |].
  unfold binary_normalize, binary_round.
  destruct (shl_align _ _ _). apply round_aux_not_positive.
Qed.

(** Taking a number that is not below zero from one that is not above zero
    gives a number that is not above zero (NaN being neither). *)
Lemma sub_not_positive (a b : float) :
  (0 <? a) = false -> (b <? 0) = false -> (0 <? a - b) = false.
Proof.
  rewrite !ltb_spec, sub_spec. change (Prim2SF 0) with (S754_zero false).
  destruct (Prim2SF a) as [sa|sa| |sa ma ea], (Prim2SF b) as [sb|sb| |sb mb eb];
    try destruct sa; try destruct sb; try reflexivity; try discriminate; intros _ _.
  unfold SF64sub, SFsub. cbv zeta. apply normalize_not_positive.
  cbn [cond_Zopp]. lia.
Qed.

(** [0.5 * v * v] is not below zero, whatever [v] is. *)
Lemma half_square_not_negative (v : float) : (0.5 * v * v <? 0) = false.
Proof.
  rewrite ltb_spec, !mul_spec. change (Prim2SF 0) with (S754_zero false).
  change (Prim2SF 0.5) with (S754_finite false 4503599627370496 (-53)).
  destruct (Prim2SF v) as [s|s| |s m e]; try destruct s; try reflexivity.
  - unfold SF64mul at 2. unfold SFmul. cbn [xorb].
    unfold binary_round_aux at 1.
    destruct (shr_fexp prec emax _ _ loc_Exact) as [mrs' e'].
    destruct (shr_fexp prec emax _ e' loc_Exact) as [mrs'' e''].
    destruct (shr_m mrs'') as [|p|p]; [reflexivity | | reflexivity].
    destruct (e'' <=? emax - prec)%Z; [| reflexivity].
    unfold SF64mul, SFmul. cbn [xorb]. apply round_aux_not_negative.
  - unfold SF64mul at 2. unfold SFmul. cbn [xorb].
    unfold binary_round_aux at 1.
    destruct (shr_fexp prec emax _ _ loc_Exact) as [mrs' e'].
    destruct (shr_fexp prec emax _ e' loc_Exact) as [mrs'' e''].
    destruct (shr_m mrs'') as [|p|p]; [reflexivity | | reflexivity].
    destruct (e'' <=? emax - prec)%Z; [| reflexivity].
    unfold SF64mul, SFmul. cbn [xorb]. apply round_aux_not_negative.
Qed.

(** ** Loops *)

Lemma bind_Ret {A B} (c : outcome A) (k : A -> outcome B) (b : B) :
  c ≫= k = Ret b -> exists a, c = Ret a /\ k a = Ret b.
Proof. destruct c as [a| |]; cbn; [eauto | discriminate..]. Qed.

(** A loop whose body keeps an invariant and always returns does return, with
    the invariant at the final index. *)
Lemma for_loop_total {A} (P : nat -> A -> Prop) body n : forall lo s,
  P lo s ->
  (forall i s, (lo <= i < lo + n)%nat -> P i s -> exists s', body i s = Ret s' /\ P (S i) s') ->
  exists s', for_loop n lo body s = Ret s' /\ P (lo + n)%nat s'.
Proof.
  induction n as [|n IH]; intros lo s H0 Hstep; cbn.
  - exists s. rewrite Nat.add_0_r. auto.
  - destruct (Hstep lo s) as (s1 & -> & H1); [lia | assumption |]. cbn.
    destruct (IH (S lo) s1) as (s' & Hs' & HP); [assumption | |].
    + intros i s2 Hi. apply Hstep. lia.
    + exists s'. split; [assumption |]. now replace (lo + S n)%nat with (S lo + n)%nat by lia.
Qed.

(** A loop that returned has carried every invariant of its body through. *)
Lemma for_loop_inv {A} (P : nat -> A -> Prop) body n : forall lo s s',
  for_loop n lo body s = Ret s' ->
  P lo s ->
  (forall i s s1, (lo <= i < lo + n)%nat -> P i s -> body i s = Ret s1 -> P (S i) s1) ->
  P (lo + n)%nat s'.
Proof.
  induction n as [|n IH]; intros lo s s' Hrun H0 Hstep; cbn in Hrun.
  - injection Hrun as <-. now rewrite Nat.add_0_r.
  - apply bind_Ret in Hrun as (s1 & Hb & Hrun).
    replace (lo + S n)%nat with (S lo + n)%nat by lia.
    apply (IH _ _ _ Hrun).
    + apply (Hstep lo s); [lia | assumption..].
    + intros i s2 s3 Hi. apply Hstep. lia.
Qed.

(** A loop faults with [f] when the body faults with [f] at some index [k]
    and, before [k], either keeps the invariant or faults with [f] itself. *)
Lemma for_loop_fault {A} (P : nat -> A -> Prop) body f n k : forall lo s,
  (lo <= k < lo + n)%nat ->
  P lo s ->
  (forall i s, (lo <= i < k)%nat -> P i s ->
     (exists s', body i s = Ret s' /\ P (S i) s') \/ body i s = Fault f) ->
  (forall s, P k s -> body k s = Fault f) ->
  for_loop n lo body s = Fault f.
Proof.
  induction n as [|n IH]; intros lo s Hk H0 Hstep Hf; [lia |]. cbn.
  destruct (decide (lo = k)) as [-> | Hne].
  - now rewrite (Hf s H0).
  - destruct (Hstep lo s) as [(s1 & -> & H1) | ->]; [lia | assumption | | reflexivity].
    cbn. apply IH; [lia | assumption | | assumption].
    intros i s2 Hi. apply Hstep. lia.
Qed.

Lemma at_Ret {A} (v : list A) i x : at_ v i = Ret x <-> v !! i = Some x.
Proof. unfold at_. destruct (v !! i); split; congruence. Qed.

Lemma assign_Ret {A} (v : list A) i x v' :
  assign v i x = Ret v' <-> (i < length v)%nat /\ v' = <[i:=x]> v.
Proof.
  unfold assign. destruct (decide (i < length v)%nat); split; try intros [? ?]; try congruence; try lia.
  intros [= <-]. auto.
Qed.

Lemma std_copy_same_length (src dst : Vector) :
  length src = length dst -> std_copy src dst = Ret src.
Proof.
  intros H. unfold std_copy. rewrite decide_True by lia.
  rewrite H, drop_all. now rewrite app_nil_r.
Qed.

Section TrialStep.
Variables proposed accepted trial : Vector.

Lemma cached_step i ts ts' :
  cached proposed accepted trial i ts ->
  (a ← at_ proposed i; b ← at_ accepted i; assign ts i (a - b)) = Ret ts' ->
  cached proposed accepted trial (S i) ts'.
Proof.
  intros (Hlen & Hlo & Hhi) Hb.
  apply bind_Ret in Hb as (p & Hp%at_Ret & Hb).
  apply bind_Ret in Hb as (a & Ha%at_Ret & Hb).
  apply assign_Ret in Hb as (Hi & ->).
  split; [| split].
  - now rewrite length_insert.
  - intros k p' a' Hk Hp' Ha'. destruct (decide (k = i)) as [->|Hne].
    + rewrite list_lookup_insert_eq by assumption. congruence.
    + rewrite list_lookup_insert_ne by congruence. apply Hlo; [lia | assumption..].
  - intros k Hk. rewrite list_lookup_insert_ne by lia. apply Hhi. lia.
Qed.

Lemma cache_trial_step_inv ts :
  TSimpleMCMC.cache_trial_step proposed accepted trial = Ret ts ->
  cached proposed accepted trial (length proposed) ts.
Proof.
  intros H. apply (for_loop_inv (cached proposed accepted trial)) in H; [exact H | |].
  - split; [reflexivity | split; [intros; lia | reflexivity]].
  - intros i s s1 _. apply cached_step.
Qed.

Lemma cache_trial_step_total :
  length accepted = length proposed -> length trial = length proposed ->
  exists ts, TSimpleMCMC.cache_trial_step proposed accepted trial = Ret ts /\
             cached proposed accepted trial (length proposed) ts.
Proof.
  intros Ha Ht. apply (for_loop_total (cached proposed accepted trial)).
  - split; [reflexivity | split; [intros; lia | reflexivity]].
  - intros i s [Hi1 Hi2] Hc.
    destruct (lookup_lt_is_Some_2 proposed i) as [p Hp]; [lia |].
    destruct (lookup_lt_is_Some_2 accepted i) as [a Hacc]; [lia |].
    assert (Hb : (a ← at_ proposed i; b ← at_ accepted i; assign s i (a - b))
                 = Ret (<[i := p - a]> s)).
    { unfold at_. rewrite Hp, Hacc. cbn. unfold assign.
      rewrite decide_True; [reflexivity |]. destruct Hc as [-> _]. lia. }
    eexists. split; [exact Hb |]. eapply cached_step; eassumption.
Qed.
End TrialStep.

(** ** TSimpleMCMC::Step *)

Section DriverFacts.
Import TSimpleMCMC.
Context {G : Type} (gRandom : TRandom G) (std_log : float -> float).
Context (fLogLikelihood : Vector -> float).
Context {UserProposal : Type}
        (ProposeStep : UserProposal -> G -> Vector -> Vector -> float ->
                       outcome (UserProposal * G * Vector)).

Abbreviation Step := (Step gRandom std_log fLogLikelihood ProposeStep).
Abbreviation t := (t UserProposal).

Lemma is_empty_length (v : Vector) : is_empty v = false <-> (0 < length v)%nat.
Proof. destruct v; cbn; split; intros; try lia; congruence. Qed.

Lemma fAccepted_save_if save (m : t) : fAccepted (save_if save m) = fAccepted m.
Proof. now destruct save. Qed.

Lemma fAcceptedLogLikelihood_save_if save (m : t) :
  fAcceptedLogLikelihood (save_if save m) = fAcceptedLogLikelihood m.
Proof. now destruct save. Qed.

Lemma fTrialStep_save_if save (m : t) : fTrialStep (save_if save m) = fTrialStep m.
Proof. now destruct save. Qed.

Lemma fProposed_save_if save (m : t) : fProposed (save_if save m) = fProposed m.
Proof. now destruct save. Qed.

Lemma fProposedLogLikelihood_save_if save (m : t) :
  fProposedLogLikelihood (save_if save m) = fProposedLogLikelihood m.
Proof. now destruct save. Qed.

(** [Start] on a non-empty point establishes [started]. *)
Lemma Start_started (start : Vector) save (m : t) :
  is_empty start = false -> started (Start fLogLikelihood start save m).
Proof.
  intros H. unfold started, Start.
  rewrite fAccepted_save_if, fProposed_save_if, fTrialStep_save_if. cbn.
  now rewrite length_resize.
Qed.

(** [Step] before [Start]: the [throw;]. *)
Lemma Step_not_started save (m : t) (g : G) :
  is_empty (fProposed m) || is_empty (fAccepted m) = true ->
  Step save m g = Fault Terminate.
Proof. intros H. unfold TSimpleMCMC.Step. now rewrite H. Qed.

(** [Step] down to its accept/reject test, once the proposal has returned a
    point of the right length. *)
Lemma Step_eq (save : bool) (m : t) g p g1 proposed :
  started m ->
  ProposeStep (fProposeStep m) g (fProposed m) (fAccepted m) (fAcceptedLogLikelihood m)
    = Ret (p, g1, proposed) ->
  length proposed = length (fProposed m) ->
  exists ts : Vector,
    (if save then cache_trial_step proposed (fAccepted m) (fTrialStep m)
     else Ret (fTrialStep m)) = Ret ts /\
    Step save m g =
      let m1 := mk p (fTree m) (fLogLikelihoodCount m + 1) (fAccepted m)
                   (fAcceptedLogLikelihood m) ts proposed (fLogLikelihood proposed) in
      let delta := fLogLikelihood proposed - fAcceptedLogLikelihood m in
      if delta <? 0 then
        if delta <? std_log (Uniform01 gRandom g1).1
        then Ret (false, save_if save m1, (Uniform01 gRandom g1).2)
        else keep save m1 (Uniform01 gRandom g1).2
      else keep save m1 g1.
Proof.
  intros (Hne & Hp & Ht) Hprop Hlen.
  assert (Hts : exists ts : Vector,
             (if save then cache_trial_step proposed (fAccepted m) (fTrialStep m)
              else Ret (fTrialStep m)) = Ret ts).
  { destruct save; [| eauto].
    destruct (cache_trial_step_total proposed (fAccepted m) (fTrialStep m))
      as (ts & Hts & _); [lia.. |]. eauto. }
  destruct Hts as (ts & Hts). exists ts. split; [assumption |].
  unfold TSimpleMCMC.Step.
  assert (is_empty (fProposed m) = false) as ->
      by (apply is_empty_length; apply is_empty_length in Hne; lia).
  rewrite Hne. cbn -[cache_trial_step]. rewrite Hprop. cbn -[cache_trial_step].
  rewrite Hts. cbn.
  destruct (Uniform01 gRandom g1) as [u g2]. reflexivity.
Qed.

Lemma keep_eq save (m : t) (g : G) :
  length (fProposed m) = length (fAccepted m) ->
  keep save m g =
    Ret (true,
         save_if save (mk (fProposeStep m) (fTree m) (fLogLikelihoodCount m) (fProposed m)
                          (fProposedLogLikelihood m) (fTrialStep m) (fProposed m)
                          (fProposedLogLikelihood m)),
         g).
Proof. intros H. unfold keep. now rewrite std_copy_same_length. Qed.

Lemma keep_true save (m m' : t) (g g' : G) b : keep save m g = Ret (b, m', g') -> b = true.
Proof. unfold keep. intros (acc & _ & H)%bind_Ret. congruence. Qed.

(** The step that finds [delta < 0] false keeps the proposal. *)
Lemma Step_keeps save (m : t) g p g1 proposed :
  started m ->
  ProposeStep (fProposeStep m) g (fProposed m) (fAccepted m) (fAcceptedLogLikelihood m)
    = Ret (p, g1, proposed) ->
  length proposed = length (fProposed m) ->
  (fLogLikelihood proposed - fAcceptedLogLikelihood m <? 0) = false ->
  exists m', Step save m g = Ret (true, m', g1) /\
             fAccepted m' = proposed /\
             fAcceptedLogLikelihood m' = fLogLikelihood proposed /\
             fProposed m' = proposed /\
             fProposedLogLikelihood m' = fLogLikelihood proposed.
Proof.
  intros Hs Hprop Hlen Hd.
  destruct (Step_eq save m g p g1 proposed Hs Hprop Hlen) as (ts & _ & ->).
  cbv zeta. rewrite Hd.
  rewrite keep_eq by (cbn; destruct Hs as (_ & ? & _); lia).
  eexists. split; [reflexivity |].
  now rewrite fAccepted_save_if, fAcceptedLogLikelihood_save_if, fProposed_save_if,
    fProposedLogLikelihood_save_if.
Qed.

(** Whatever the path, a step that returns [false] has left the accepted
    point and its likelihood alone. *)
Lemma Step_false_frame save (m m' : t) g g' :
  Step save m g = Ret (false, m', g') ->
  fAccepted m' = fAccepted m /\ fAcceptedLogLikelihood m' = fAcceptedLogLikelihood m.
Proof.
  unfold TSimpleMCMC.Step.
  destruct (is_empty (fProposed m) || is_empty (fAccepted m)); [discriminate |].
  intros ([[p g1] proposed] & _ & H)%bind_Ret.
  apply bind_Ret in H as (ts & _ & H). cbn in H.
  destruct (_ <? 0); [| now apply keep_true in H].
  destruct (Uniform01 gRandom g1) as [u g2].
  destruct (_ <? std_log u); [| now apply keep_true in H].
  injection H as <- <-.
  now rewrite fAccepted_save_if, fAcceptedLogLikelihood_save_if.
Qed.

(** C1: a step whose proposed log-likelihood is at least the accepted one
    (or, as the code tests it, [delta >= 0]) returns [true], and the
    proposed point and its log-likelihood become the accepted ones. *)
Theorem Step_accepts_improvement save (m : t) g p g1 proposed :
  started m ->
  ProposeStep (fProposeStep m) g (fProposed m) (fAccepted m) (fAcceptedLogLikelihood m)
    = Ret (p, g1, proposed) ->
  length proposed = length (fProposed m) ->
  (fAcceptedLogLikelihood m <=? fLogLikelihood proposed) = true \/
  (0 <=? fLogLikelihood proposed - fAcceptedLogLikelihood m) = true ->
  exists m', Step save m g = Ret (true, m', g1) /\
             fAccepted m' = proposed /\
             fAcceptedLogLikelihood m' = fLogLikelihood proposed /\
             fProposed m' = proposed /\
             fProposedLogLikelihood m' = fLogLikelihood proposed.
Proof.
  intros Hs Hprop Hlen Hd. apply Step_keeps with (p := p); try assumption.
  destruct Hd as [Hd|Hd]; [now apply sub_not_negative | now apply ltb_zero_of_leb].
Qed.

(** C2: a step that rejects (it finds [delta < 0] and [delta < trial])
    returns [false] and leaves the accepted point and the accepted
    log-likelihood as they were before the step. *)
Theorem Step_rejection_frame save (m : t) g p g1 proposed :
  started m ->
  ProposeStep (fProposeStep m) g (fProposed m) (fAccepted m) (fAcceptedLogLikelihood m)
    = Ret (p, g1, proposed) ->
  length proposed = length (fProposed m) ->
  (fLogLikelihood proposed - fAcceptedLogLikelihood m <? 0) = true ->
  (fLogLikelihood proposed - fAcceptedLogLikelihood m
     <? std_log (Uniform01 gRandom g1).1) = true ->
  exists m', Step save m g = Ret (false, m', (Uniform01 gRandom g1).2) /\
             fAccepted m' = fAccepted m /\
             fAcceptedLogLikelihood m' = fAcceptedLogLikelihood m.
Proof.
  intros Hs Hprop Hlen Hd Ht.
  destruct (Step_eq save m g p g1 proposed Hs Hprop Hlen) as (ts & _ & ->).
  cbv zeta. rewrite Hd, Ht.
  eexists. split; [reflexivity |].
  now rewrite fAccepted_save_if, fAcceptedLogLikelihood_save_if.
Qed.

(** C3, amended: when the likelihood is [-inf] at the proposed point and the
    accepted log-likelihood is finite, the step rejects for every draw [u]
    whose logarithm is above [-inf]. *)
Theorem Step_rejects_zero_probability save (m : t) g p g1 proposed :
  started m ->
  ProposeStep (fProposeStep m) g (fProposed m) (fAccepted m) (fAcceptedLogLikelihood m)
    = Ret (p, g1, proposed) ->
  length proposed = length (fProposed m) ->
  fLogLikelihood proposed = neg_infinity ->
  is_finite (fAcceptedLogLikelihood m) = true ->
  (neg_infinity <? std_log (Uniform01 gRandom g1).1) = true ->
  exists m', Step save m g = Ret (false, m', (Uniform01 gRandom g1).2) /\
             fAccepted m' = fAccepted m /\
             fAcceptedLogLikelihood m' = fAcceptedLogLikelihood m.
Proof.
  intros Hs Hprop Hlen HL Hfin Hu.
  destruct (Step_eq save m g p g1 proposed Hs Hprop Hlen) as (ts & _ & ->).
  cbv zeta. rewrite HL, sub_neg_infinity, Hu by assumption.
  change (neg_infinity <? 0) with true. cbv iota.
  eexists. split; [reflexivity |].
  now rewrite fAccepted_save_if, fAcceptedLogLikelihood_save_if.
Qed.

(** When [delta] and [trial] are both [-inf] the test [delta < trial] is
    false and the step keeps the proposal. *)
Lemma Step_accepts_at_zero_draw save (m : t) g p g1 proposed :
  started m ->
  ProposeStep (fProposeStep m) g (fProposed m) (fAccepted m) (fAcceptedLogLikelihood m)
    = Ret (p, g1, proposed) ->
  length proposed = length (fProposed m) ->
  fLogLikelihood proposed = neg_infinity ->
  is_finite (fAcceptedLogLikelihood m) = true ->
  std_log (Uniform01 gRandom g1).1 = neg_infinity ->
  exists m', Step save m g = Ret (true, m', (Uniform01 gRandom g1).2) /\
             fAccepted m' = proposed /\
             fAcceptedLogLikelihood m' = neg_infinity.
Proof.
  intros Hs Hprop Hlen HL Hfin Hu.
  destruct (Step_eq save m g p g1 proposed Hs Hprop Hlen) as (ts & _ & ->).
  cbv zeta. rewrite HL, sub_neg_infinity, Hu by assumption.
  change (neg_infinity <? 0) with true. change (neg_infinity <? neg_infinity) with false.
  cbv iota. rewrite keep_eq by (cbn; destruct Hs as (_ & ? & _); lia).
  eexists. split; [reflexivity |].
  now rewrite fAccepted_save_if, fAcceptedLogLikelihood_save_if.
Qed.

(** C10: a step called with [save = false] leaves [fTrialStep] as it was;
    a step called with [save = true] leaves in it, coordinate by
    coordinate, the proposed point minus the accepted point of before the
    step. *)
Theorem Step_trial_step (save : bool) (m m' : t) g b g' :
  Step save m g = Ret (b, m', g') ->
  if save
  then forall i p a, fProposed m' !! i = Some p -> fAccepted m !! i = Some a ->
                     fTrialStep m' !! i = Some (p - a)
  else fTrialStep m' = fTrialStep m.
Proof.
  unfold TSimpleMCMC.Step.
  destruct (is_empty (fProposed m) || is_empty (fAccepted m)); [discriminate |].
  intros ([[p g1] proposed] & _ & H)%bind_Ret.
  apply bind_Ret in H as (ts & Hts & H). cbn in H.
  assert (Hm : fTrialStep m' = ts /\ fProposed m' = proposed).
  { assert (Hk : forall m0 g0, keep save m0 g0 = Ret (b, m', g') ->
                               fTrialStep m' = fTrialStep m0 /\ fProposed m' = fProposed m0).
    { intros m0 g0 (acc & _ & Hk)%bind_Ret.
      injection Hk as _ <- _. now rewrite fTrialStep_save_if, fProposed_save_if. }
    destruct (_ <? 0); [| now apply Hk in H].
    destruct (Uniform01 gRandom g1) as [u g2].
    destruct (_ <? std_log u); [| now apply Hk in H].
    injection H as _ <- _. now rewrite fTrialStep_save_if, fProposed_save_if. }
  destruct Hm as [-> ->]. destruct save.
  - apply cache_trial_step_inv in Hts as (_ & Hlo & _).
    intros i p' a' Hp' Ha'. apply Hlo; [| assumption..].
    now apply lookup_lt_Some in Hp'.
  - now injection Hts as <-.
Qed.
(** *** Every step that returns *)

(** A step that returned went through the proposal and the trial-step cache
    and ended in one of two ways: rejected, or kept with the copy of
    [fProposed] into [fAccepted]. *)
Lemma Step_inv save (m m' : t) (g g' : G) (b : bool) :
  Step save m g = Ret (b, m', g') ->
  exists p g1 proposed (ts : Vector),
    is_empty (fProposed m) || is_empty (fAccepted m) = false /\
    ProposeStep (fProposeStep m) g (fProposed m) (fAccepted m) (fAcceptedLogLikelihood m)
      = Ret (p, g1, proposed) /\
    (if save then cache_trial_step proposed (fAccepted m) (fTrialStep m)
     else Ret (fTrialStep m)) = Ret ts /\
    ((b = false /\
      m' = save_if save (mk p (fTree m) (fLogLikelihoodCount m + 1) (fAccepted m)
                            (fAcceptedLogLikelihood m) ts proposed
                            (fLogLikelihood proposed))) \/
     (b = true /\
      exists acc, std_copy proposed (fAccepted m) = Ret acc /\
        m' = save_if save (mk p (fTree m) (fLogLikelihoodCount m + 1) acc
                              (fLogLikelihood proposed) ts proposed
                              (fLogLikelihood proposed)))).
Proof.
  unfold TSimpleMCMC.Step.
  destruct (is_empty (fProposed m) || is_empty (fAccepted m)) eqn:E; [discriminate |].
  destruct (ProposeStep _ _ _ _ _) as [[[p g1] proposed]| |] eqn:EP; try discriminate.
  cbn [mbind outcome_bind].
  destruct (if save then _ else _) as [ts| |] eqn:ET; try discriminate.
  cbn [mbind outcome_bind fProposedLogLikelihood fAcceptedLogLikelihood].
  intros H. exists p, g1, proposed, ts. repeat split; try assumption.
  assert (K : forall g0,
             keep save (mk p (fTree m) (fLogLikelihoodCount m + 1) (fAccepted m)
                           (fAcceptedLogLikelihood m) ts proposed (fLogLikelihood proposed)) g0
             = Ret (b, m', g') ->
             b = true /\
             exists acc, std_copy proposed (fAccepted m) = Ret acc /\
               m' = save_if save (mk p (fTree m) (fLogLikelihoodCount m + 1) acc
                                     (fLogLikelihood proposed) ts proposed
                                     (fLogLikelihood proposed))).
  { intros g0. unfold keep. cbn [fProposed fAccepted].
    destruct (std_copy proposed (fAccepted m)) as [acc| |]; try discriminate.
    cbn. intros [= <- <- <-]. split; [reflexivity |]. exists acc. split; reflexivity. }
  destruct (_ <? 0).
  - destruct (Uniform01 gRandom g1) as [u g2].
    destruct (_ <? std_log u).
    + injection H as <- <- <-. left. split; reflexivity.
    + right. exact (K _ H).
  - right. exact (K _ H).
Qed.

(** X1: a step called with [save] fills the tree, when there is one, with
    exactly one entry, and that entry holds the accepted log-likelihood, the
    accepted point and the trial step as the step leaves them: after a
    rejection the entry repeats the point the chain stays at.  A step called
    without [save] leaves the tree alone. *)
Theorem Step_fills_tree save (m m' : t) g g' b :
  Step save m g = Ret (b, m', g') ->
  fTree m' = if save
             then Fill (fAcceptedLogLikelihood m') (fAccepted m') (fTrialStep m') <$> fTree m
             else fTree m.
Proof.
  intros (p & g1 & proposed & ts & _ & _ & _ & [[-> ->] | [-> (acc & _ & ->)]])%Step_inv;
    destruct save; reflexivity.
Qed.

(** X2: every step that returns has called the likelihood once, at the
    proposed point: the call counter, an [int] that was below [INT_MAX],
    has gone up by one and is still an [int].  The return value tells what
    became of the accepted state: [true] means the accepted log-likelihood
    is the proposed one and the accepted point was overwritten by the
    proposed point; [false] means both are as before the step. *)
Theorem Step_return_value save (m m' : t) g g' b :
  (INT_MIN <= fLogLikelihoodCount m < INT_MAX)%Z ->
  Step save m g = Ret (b, m', g') ->
  fLogLikelihoodCount m' = (fLogLikelihoodCount m + 1)%Z /\
  (INT_MIN <= fLogLikelihoodCount m' <= INT_MAX)%Z /\
  fProposedLogLikelihood m' = fLogLikelihood (fProposed m') /\
  if b
  then fAcceptedLogLikelihood m' = fProposedLogLikelihood m' /\
       fAccepted m' = fProposed m' ++ drop (length (fProposed m')) (fAccepted m)
  else fAcceptedLogLikelihood m' = fAcceptedLogLikelihood m /\
       fAccepted m' = fAccepted m.
Proof.
  intros Hint (p & g1 & proposed & ts & _ & _ & _ & H)%Step_inv.
  assert (Hn : fLogLikelihoodCount m' = (fLogLikelihoodCount m + 1)%Z)
    by (destruct H as [[_ ->] | [_ (acc & _ & ->)]]; destruct save; reflexivity).
  split; [exact Hn |]. split; [rewrite Hn; lia |].
  destruct H as [[-> ->] | [-> (acc & Hc & ->)]].
  - destruct save; repeat split; reflexivity.
  - unfold std_copy in Hc. destruct (decide _); [| discriminate]. injection Hc as <-.
    destruct save; repeat split; reflexivity.
Qed.

(** X3: a log-likelihood that is NaN, at the proposed point or at the
    accepted one, makes [delta < 0] false: the step keeps the proposal
    without drawing from the random source. *)
Theorem Step_accepts_nan save (m : t) g p g1 proposed :
  started m ->
  ProposeStep (fProposeStep m) g (fProposed m) (fAccepted m) (fAcceptedLogLikelihood m)
    = Ret (p, g1, proposed) ->
  length proposed = length (fProposed m) ->
  is_nan (fLogLikelihood proposed) = true \/ is_nan (fAcceptedLogLikelihood m) = true ->
  exists m', Step save m g = Ret (true, m', g1) /\
             fAccepted m' = proposed /\
             fAcceptedLogLikelihood m' = fLogLikelihood proposed.
Proof.
  intros Hs Hprop Hlen Hnan.
  destruct (Step_keeps save m g p g1 proposed Hs Hprop Hlen) as (m' & H & Ha & Hl & _).
  - now apply sub_nan_not_negative.
  - eauto.
Qed.

(** X4: from an accepted log-likelihood of [-inf] (a chain started at a
    point of zero probability) every proposal is kept, whatever its
    log-likelihood, [-inf] and NaN included. *)
Theorem Step_leaves_zero_probability save (m : t) g p g1 proposed :
  started m ->
  ProposeStep (fProposeStep m) g (fProposed m) (fAccepted m) (fAcceptedLogLikelihood m)
    = Ret (p, g1, proposed) ->
  length proposed = length (fProposed m) ->
  fAcceptedLogLikelihood m = neg_infinity ->
  exists m', Step save m g = Ret (true, m', g1) /\
             fAccepted m' = proposed /\
             fAcceptedLogLikelihood m' = fLogLikelihood proposed.
Proof.
  intros Hs Hprop Hlen Hinf.
  destruct (Step_keeps save m g p g1 proposed Hs Hprop Hlen) as (m' & H & Ha & Hl & _).
  - rewrite Hinf. apply sub_neg_infinity_not_negative.
  - eauto.
Qed.

(** A step keeps the chain started when the proposal it was handed has the
    length of the accepted point. *)
Lemma Step_started save (m m' : t) g g' b :
  started m ->
  Step save m g = Ret (b, m', g') ->
  (forall p g1 v,
     ProposeStep (fProposeStep m) g (fProposed m) (fAccepted m) (fAcceptedLogLikelihood m)
       = Ret (p, g1, v) -> length v = length (fAccepted m)) ->
  started m'.
Proof.
  intros (Hne & Hp & Ht) H Hlen.
  apply Step_inv in H as (p & g1 & proposed & ts & _ & Hprop & Hts & H).
  specialize (Hlen _ _ _ Hprop).
  assert (Hl : length ts = length (fAccepted m)).
  { destruct save; [| congruence].
    apply cache_trial_step_inv in Hts as (-> & _). assumption. }
  destruct H as [[-> ->] | [-> (acc & Hc & ->)]].
  - unfold started.
    rewrite fAccepted_save_if, fProposed_save_if, fTrialStep_save_if. cbn. auto.
  - rewrite std_copy_same_length in Hc by assumption. injection Hc as <-.
    unfold started.
    rewrite fAccepted_save_if, fProposed_save_if, fTrialStep_save_if. cbn.
    repeat split; [| congruence].
    apply is_empty_length. apply is_empty_length in Hne. lia.
Qed.

(** X5: [Start] does not check its point: started on the empty vector, the
    chain is as if [Start] had not been called, and the next [Step]
    terminates the program. *)
Theorem Step_after_empty_Start save save' (m : t) (g : G) :
  Step save (Start fLogLikelihood [] save' m) g = Fault Terminate.
Proof. apply Step_not_started. destruct save'; reflexivity. Qed.

End DriverFacts.

(** ** TProposeSimpleStep *)

Section SimpleFacts.
Import TProposeSimpleStep.
Context {G : Type} (gRandom : TRandom G).

(** The simple proposal returns when the current point is at least as long
    as the proposal, with the state it was called on. *)
Lemma simple_call_returns (st : t) (g : G) (proposal current : Vector) (value : float) :
  (length proposal <= length current)%nat ->
  exists g' v, call gRandom st g proposal current value = Ret (st, g', v) /\
               length v = length proposal.
Proof.
  intros Hle. unfold call.
  set (sigma := if fSigma st <? 0 then _ else _).
  set (body := fun (i : nat) '(g, proposal) => _).
  destruct (for_loop_total (fun _ (gv : G * Vector) => length gv.2 = length proposal)
              body (length proposal) 0 (g, proposal)) as ([g' v] & -> & Hl);
    [reflexivity | | exists g', v; auto].
  intros i [g0 v] Hi Hl. cbn in Hl. unfold body.
  destruct (lookup_lt_is_Some_2 current i) as [c Hc]; [lia |].
  apply at_Ret in Hc. rewrite Hc. cbn [mbind outcome_bind].
  destruct (Gaus gRandom 0 sigma g0) as [x g1].
  unfold assign. rewrite decide_True by lia. cbn [mbind outcome_bind].
  eexists. split; [reflexivity |]. cbn. now rewrite length_insert.
Qed.

(** X6: the simple proposal makes one draw of [Gaus(0, sigma)] per
    coordinate, in the order of the coordinates, and displaces the
    coordinate [i] of the current point by the draw of the turn [i], the one
    made from the generator as the [i] draws before it left it; the
    generator it returns has made [d] draws.  [sigma] is [fSigma], or
    [sqrt(1/d)] while [fSigma] is negative as the constructor leaves it.  The
    call ignores the likelihood value and keeps its state.  A current point
    shorter than the proposal is read past its end. *)
Theorem simple_step_displaces (st : t) (g : G) (proposal current : Vector) (value : float) :
  let sigma := if fSigma st <? 0 then sqrt (1 / double_of_size (length proposal))
               else fSigma st in
  if decide (length proposal <= length current)%nat
  then exists v,
         call gRandom st g proposal current value
         = Ret (st, simple_generator_before gRandom sigma g (length proposal), v) /\
         length v = length proposal /\
         forall i c, (i < length proposal)%nat -> current !! i = Some c ->
                     v !! i = Some (c + (Gaus gRandom 0 sigma
                                           (simple_generator_before gRandom sigma g i)).1)
  else call gRandom st g proposal current value
       = Fault (OutOfBounds (length current) (length current)).
Proof.
  intros sigma. unfold call. fold sigma.
  set (body := fun (i : nat) '(g, proposal) => _).
  set (P := fun (i : nat) (gv : G * Vector) =>
              gv.1 = simple_generator_before gRandom sigma g i /\
              length gv.2 = length proposal /\
              forall k c, (k < i)%nat -> current !! k = Some c ->
                          gv.2 !! k = Some (c + (Gaus gRandom 0 sigma
                                                   (simple_generator_before gRandom sigma g k)).1)).
  assert (Hbody : forall i gv, (i < length proposal)%nat -> (i < length current)%nat ->
                               P i gv -> exists gv', body i gv = Ret gv' /\ P (S i) gv').
  { intros i [g0 v] Hi Hc (Hg & Hl & Hk). cbn in Hg, Hl, Hk. subst g0. unfold body.
    destruct (lookup_lt_is_Some_2 current i Hc) as [c Hci].
    apply at_Ret in Hci as Hat. rewrite Hat. cbn [mbind outcome_bind].
    destruct (Gaus gRandom 0 sigma (simple_generator_before gRandom sigma g i))
      as [x g1] eqn:EG.
    unfold assign. rewrite decide_True by lia. cbn [mbind outcome_bind].
    eexists. split; [reflexivity |]. split; [| split]; cbn.
    - now rewrite EG.
    - now rewrite length_insert.
    - intros k c' Hk' Hc'. destruct (decide (k = i)) as [-> | Hne].
      + rewrite list_lookup_insert_eq by lia. rewrite EG. cbn. congruence.
      + rewrite list_lookup_insert_ne by lia. apply Hk; [lia | assumption]. }
  destruct (decide _) as [Hle | Hgt].
  - destruct (for_loop_total P body (length proposal) 0 (g, proposal))
      as ([g' v] & -> & Hg & Hl & Hk).
    + split; [reflexivity |]. split; [reflexivity |]. intros; lia.
    + intros i gv Hi. apply Hbody; lia.
    + exists v. cbn in Hg, Hl, Hk |- *. subst g'. auto.
  - rewrite (for_loop_fault P body (OutOfBounds (length current) (length current))
               (length proposal) (length current) 0 (g, proposal)); [reflexivity | lia | | |].
    + split; [reflexivity |]. split; [reflexivity |]. intros; lia.
    + intros i gv Hi HP. left. apply Hbody; [lia.. | assumption].
    + intros [g0 v] _. unfold body, at_. now rewrite lookup_ge_None_2 by lia.
Qed.

End SimpleFacts.

(** ** TMatrixD *)

(** [ResizeTo] gives a square matrix, and a write keeps the shape. *)
Lemma ResizeTo_square (n : nat) (m : TMatrixD) : square n (ResizeTo n m).
Proof.
  unfold ResizeTo. split; [apply length_resize |].
  apply Forall_lookup. apply Forall_resize; [apply length_replicate |].
  apply Forall_fmap, Forall_forall. intros row _. apply length_resize.
Qed.

Lemma mset_square n (m : TMatrixD) i j x : square n m -> square n (mset m i j x).
Proof.
  intros [Hl Hr]. unfold mset. destruct (m !! i) as [row|] eqn:E; [| now split].
  split; [now rewrite length_insert |].
  intros k r Hk. destruct (decide (k = i)) as [-> | Hne].
  - rewrite list_lookup_insert_eq in Hk by (apply lookup_lt_Some in E; lia).
    injection Hk as <-. rewrite length_insert. eauto.
  - rewrite list_lookup_insert_ne in Hk by congruence. eauto.
Qed.

(** Reading after a write within a square matrix. *)
Lemma mget_mset n (m : TMatrixD) i j x a b :
  square n m -> (i < n)%nat -> (j < n)%nat ->
  mget (mset m i j x) a b = if decide (a = i /\ b = j) then x else mget m a b.
Proof.
  intros [Hl Hr] Hi Hj. unfold mset, mget.
  destruct (lookup_lt_is_Some_2 m i) as [row E]; [lia |]. rewrite E.
  pose proof (Hr _ _ E) as Hrow.
  destruct (decide (a = i)) as [-> | Hne].
  - rewrite list_lookup_insert_eq by lia. rewrite E.
    destruct (decide (b = j)) as [-> | Hnb].
    + rewrite list_lookup_insert_eq by lia. rewrite decide_True by auto. reflexivity.
    + rewrite list_lookup_insert_ne by congruence. rewrite decide_False by tauto. reflexivity.
  - rewrite list_lookup_insert_ne by congruence. rewrite decide_False by tauto. reflexivity.
Qed.



(** ** TProposeAdaptiveStep *)

Section EngineFacts.
Import TProposeAdaptiveStep.
Context {G : Type} (gRandom : TRandom G).
Context (std_pow : float -> float -> float).
Context (Decompose : TMatrixD -> option TMatrixD).

Abbreviation UpdateProposal := (UpdateProposal Decompose).
Abbreviation UpdateState := (UpdateState std_pow Decompose).
Abbreviation call := (call gRandom std_pow Decompose).

(** *** The moved-point test *)

(** When the likelihood value has changed, [||] short-circuits and no
    coordinate is read. *)
Lemma moved_short_circuit (current : Vector) (value : float) (s : t) :
  (value =? fLastValue s) = false -> moved current value s = Ret true.
Proof. intros H. unfold moved. now rewrite H. Qed.

(** The test, case by case: the comparison of the coordinates is evaluated
    only when the value has not changed, and then it reads index 1 of the
    current vector and of the last point. *)
Lemma moved_cases (current : Vector) (value : float) (s : t) :
  length (fLastPoint s) = length current ->
  if value =? fLastValue s
  then if decide (2 <= length current)%nat
       then exists c l, current !! 1%nat = Some c /\ fLastPoint s !! 1%nat = Some l /\
                        moved current value s = Ret (negb (c =? l))
       else moved current value s = Fault (OutOfBounds 1 (length current))
  else moved current value s = Ret true.
Proof.
  intros Hlen. destruct (value =? fLastValue s) eqn:Hv; [| now apply moved_short_circuit].
  unfold moved. rewrite Hv. cbn [negb].
  destruct (decide (2 <= length current)%nat) as [Hd|Hd].
  - destruct (lookup_lt_is_Some_2 current 1) as [c Hc]; [lia |].
    destruct (lookup_lt_is_Some_2 (fLastPoint s) 1) as [l Hl]; [lia |].
    exists c, l. unfold at_. rewrite Hc, Hl. auto.
  - unfold at_. rewrite (lookup_ge_None_2 current 1) by lia. reflexivity.
Qed.

(** A fault of the test is the fault of [UpdateState]. *)
Lemma UpdateState_moved_fault fuel (current : Vector) value (s s1 : t) f :
  InitializeState std_pow Decompose fuel current value s = Ret s1 ->
  moved current value s1 = Fault f ->
  UpdateState fuel current value s = Fault f.
Proof.
  intros Hi Hm. unfold TProposeAdaptiveStep.UpdateState. rewrite Hi.
  cbn [mbind outcome_bind].
  change (moved current value (set_fTrials (fTrials s1 + 1) s1))
    with (moved current value s1).
  now rewrite Hm.
Qed.

(** *** Precondition checks *)

Lemma call_size_mismatch fuel (s : t) (g : G) (proposal current : Vector) value :
  length proposal <> length current ->
  call fuel s g proposal current value = Fault Terminate.
Proof.
  intros H. unfold TProposeAdaptiveStep.call.
  destruct (Nat.eqb_spec (length proposal) (length current)); [contradiction | reflexivity].
Qed.

Lemma SetDim_again dim (s : t) : is_empty (fLastPoint s) = false -> SetDim dim s = Ret s.
Proof. intros H. unfold SetDim. now rewrite H. Qed.

Lemma SetUniform_out_of_range dim lo hi (s : t) :
  out_of_range dim s = true -> SetUniform dim lo hi s = Ret s.
Proof. intros H. unfold SetUniform. now rewrite H. Qed.

Lemma SetGaussian_out_of_range dim sigma (s : t) :
  out_of_range dim s = true -> SetGaussian dim sigma s = Ret s.
Proof. intros H. unfold SetGaussian. now rewrite H. Qed.

(** C5, amended: [Step] before [Start] and a proposal vector whose length
    differs from the current vector's are fatal; [SetDim] on an engine that
    has its dimensionality, and [SetUniform] or [SetGaussian] with an index
    out of range, return with the engine as it was. *)
Theorem precondition_violations :
  (forall (std_log : float -> float) (L : Vector -> float) (P : Type)
          (propose : P -> G -> Vector -> Vector -> float -> outcome (P * G * Vector))
          save (m : TSimpleMCMC.t P) (g : G),
      is_empty (TSimpleMCMC.fProposed m) || is_empty (TSimpleMCMC.fAccepted m) = true ->
      TSimpleMCMC.Step gRandom std_log L propose save m g = Fault Terminate) /\
  (forall fuel (s : t) (g : G) (proposal current : Vector) value,
      length proposal <> length current ->
      call fuel s g proposal current value = Fault Terminate) /\
  (forall dim (s : t), is_empty (fLastPoint s) = false -> SetDim dim s = Ret s) /\
  (forall dim lo hi sigma (s : t),
      out_of_range dim s = true ->
      SetUniform dim lo hi s = Ret s /\ SetGaussian dim sigma s = Ret s).
Proof.
  split; [| split; [| split]].
  - intros. now apply Step_not_started.
  - apply call_size_mismatch.
  - apply SetDim_again.
  - intros. split; [now apply SetUniform_out_of_range | now apply SetGaussian_out_of_range].
Qed.

(** *** The proposal loop *)

Section Row.
Variables (s : t) (i : nat) (r : float) (proposal : Vector).
Hypothesis Hlen : length (fProposalType s) = length proposal.

Let row_done (j : nat) (v : Vector) : Prop :=
  length v = length proposal /\
  (forall k q x, (k < j)%nat -> fProposalType s !! k = Some q -> proposal !! k = Some x ->
                 v !! k = Some (contribution s i r q k x)) /\
  (forall k, (j <= k)%nat -> v !! k = proposal !! k).

(** The inner loop returns, and gives every coordinate its [contribution]. *)
Lemma add_row_spec :
  exists v, add_row s i r proposal = Ret v /\ length v = length proposal /\
    forall j q x, fProposalType s !! j = Some q -> proposal !! j = Some x ->
                  v !! j = Some (contribution s i r q j x).
Proof.
  destruct (for_loop_total row_done
              (fun j proposal =>
                 pj ← at_ (fProposalType s) j;
                 if (type pj =? 1)%Z then Ret proposal
                 else x ← at_ proposal j;
                      assign proposal j (x + fSigma s * r * mget (fDecomposition s) i j))
              (length proposal) 0 proposal) as (v & Hv & Hl & Hlo & _).
  - split; [reflexivity | split; [intros; lia | reflexivity]].
  - intros j v [_ Hj] (Hl & Hlo & Hhi). cbn in Hj.
    destruct (lookup_lt_is_Some_2 (fProposalType s) j) as [q Hq]; [lia |].
    destruct (lookup_lt_is_Some_2 proposal j) as [x Hx]; [lia |].
    assert (Hvj : v !! j = Some x) by (rewrite Hhi by lia; assumption).
    exists (if (type q =? 1)%Z then v else <[j := contribution s i r q j x]> v).
    split.
    + unfold at_. rewrite Hq. cbn. unfold contribution.
      destruct (type q =? 1)%Z; [reflexivity |]. rewrite Hvj. cbn.
      unfold assign. rewrite decide_True by lia. reflexivity.
    + split; [| split].
      * destruct (type q =? 1)%Z; [assumption | now rewrite length_insert].
      * intros k q' x' Hk Hq' Hx'. destruct (decide (k = j)) as [->|Hne].
        -- replace q' with q by congruence. replace x' with x by congruence.
           unfold contribution at 2. destruct (type q =? 1)%Z eqn:Hty.
           ++ now rewrite Hvj.
           ++ rewrite list_lookup_insert_eq by lia. unfold contribution. now rewrite Hty.
        -- assert (Hold : v !! k = Some (contribution s i r q' k x'))
             by (apply Hlo; [lia | assumption..]).
           destruct (type q =? 1)%Z; [assumption |].
           now rewrite list_lookup_insert_ne by congruence.
      * intros k Hk. destruct (type q =? 1)%Z; [apply Hhi; lia |].
        rewrite list_lookup_insert_ne by lia. apply Hhi. lia.
  - exists v. split; [exact Hv | split; [exact Hl |]].
    intros j q x Hq Hx. apply Hlo; [| assumption..].
    apply lookup_lt_Some in Hx. lia.
Qed.
End Row.

(** One turn of the outer loop, by the type of its dimension. *)
Lemma propose_dim_spec (s : t) (i : nat) (g : G) (proposal : Vector) p :
  length (fProposalType s) = length proposal ->
  fProposalType s !! i = Some p ->
  if (type p =? 1)%Z then
    let '(x, g') := Uniform gRandom (param1 p) (param2 p) g in
    propose_dim gRandom s i (g, proposal) = Ret (g', <[i := x]> proposal)
  else
    let '(r, g') := Gaus gRandom 0 1 g in
    exists v, propose_dim gRandom s i (g, proposal) = Ret (g', v) /\
              length v = length proposal /\
              forall j q x, fProposalType s !! j = Some q -> proposal !! j = Some x ->
                            v !! j = Some (contribution s i r q j x).
Proof.
  intros Hlen Hp. unfold propose_dim, at_. rewrite Hp. cbn.
  destruct (type p =? 1)%Z.
  - destruct (Uniform gRandom (param1 p) (param2 p) g) as [x g'].
    unfold assign. rewrite decide_True; [reflexivity |].
    apply lookup_lt_Some in Hp. lia.
  - destruct (Gaus gRandom 0 1 g) as [r g'].
    destruct (add_row_spec s i r proposal Hlen) as (v & -> & Hl & Hv).
    exists v. auto.
Qed.



(** The operator hands back a proposal of the length of the current point. *)
Lemma add_row_length (s : t) i r (proposal v : Vector) :
  add_row s i r proposal = Ret v -> length v = length proposal.
Proof.
  intros H.
  apply (for_loop_inv (fun _ v => length v = length proposal)) in H; [exact H | reflexivity |].
  intros j v0 v1 _ Hl (q & _ & Hb)%bind_Ret.
  destruct (type q =? 1)%Z; [congruence |].
  apply bind_Ret in Hb as (x & _ & (_ & ->)%assign_Ret). now rewrite length_insert.
Qed.

Lemma make_proposal_length (s : t) (g g' : G) (proposal v : Vector) :
  make_proposal gRandom s g proposal = Ret (g', v) -> length v = length proposal.
Proof.
  intros H.
  apply (for_loop_inv (fun _ gv => length gv.2 = length proposal)) in H;
    [exact H | reflexivity |].
  intros i [g0 v0] [g1 v1] _ Hl (q & _ & Hb)%bind_Ret. cbn in Hl |- *.
  destruct (type q =? 1)%Z.
  - destruct (Uniform gRandom (param1 q) (param2 q) g0) as [x g2].
    apply bind_Ret in Hb as (v2 & (_ & ->)%assign_Ret & [= _ <-]).
    now rewrite length_insert.
  - destruct (Gaus gRandom 0 1 g0) as [r g2].
    apply bind_Ret in Hb as (v2 & Hrow%add_row_length & [= _ <-]). congruence.
Qed.

Lemma call_length fuel (s s' : t) (g g' : G) (proposal current v : Vector) value :
  call fuel s g proposal current value = Ret (s', g', v) -> length v = length current.
Proof.
  unfold TProposeAdaptiveStep.call.
  destruct (Nat.eqb_spec (length proposal) (length current)) as [Hlen|]; [| discriminate].
  cbn [negb]. intros (s1 & _ & H)%bind_Ret.
  rewrite std_copy_same_length in H by lia. cbn [mbind outcome_bind] in H.
  apply bind_Ret in H as ([g1 v1] & Hm%make_proposal_length & [= _ _ <-]). exact Hm.
Qed.

(** With the adaptive proposal in a started driver, the proposed point has
    the length the statements about [Step] ask for. *)
Lemma adaptive_proposal_length fuel (m : TSimpleMCMC.t t) (g g1 : G) p (proposed : Vector) :
  started m ->
  call fuel (TSimpleMCMC.fProposeStep m) g (TSimpleMCMC.fProposed m)
       (TSimpleMCMC.fAccepted m) (TSimpleMCMC.fAcceptedLogLikelihood m)
    = Ret (p, g1, proposed) ->
  length proposed = length (TSimpleMCMC.fProposed m).
Proof. intros (_ & Hp & _) H%call_length. congruence. Qed.

(** *** UpdateProposal *)

(** A [refresh] that returns without its fallback has only touched the
    covariance and its decomposition. *)
Lemma refresh_trials Reset (s s' : t) :
  refresh Decompose (fun _ => OutOfFuel) s = Ret s' ->
  refresh Decompose Reset s = Ret s' /\
  fCovarianceTrials s' = fCovarianceTrials s /\
  fAcceptanceTrials s' = fAcceptanceTrials s.
Proof.
  unfold refresh. destruct (Decompose (fCurrentCov s)) as [u|].
  - intros [= <-]. auto.
  - destruct (floor_variances s) as [cov| |]; cbn [mbind outcome_bind]; try discriminate.
    destruct (cap_correlations _ cov) as [cov'| |]; cbn [mbind outcome_bind];
      try discriminate.
    destruct (Decompose _) as [u|]; [| discriminate].
    intros [= <-]. auto.
Qed.

(** With one unit of fuel [UpdateProposal] returns exactly when it does not
    fall back on [ResetProposal]. *)
Lemma UpdateProposal_1 (s s' : t) :
  UpdateProposal 1 s = Ret s' ->
  refresh Decompose (fun _ => OutOfFuel) (deweight s) = Ret s'.
Proof.
  cbn [TProposeAdaptiveStep.UpdateProposal]. unfold refresh.
  destruct (Decompose (fCurrentCov (deweight s))); [auto |].
  destruct (floor_variances (deweight s)) as [cov| |]; cbn [mbind outcome_bind];
    try discriminate.
  destruct (cap_correlations _ cov) as [cov'| |]; cbn [mbind outcome_bind];
    try discriminate.
  destruct (Decompose _); [auto |].
  unfold ResetProposal_with. destruct (reset _); discriminate.
Qed.

Lemma UpdateProposal_S (fuel : nat) (s : t) :
  UpdateProposal (S fuel) s
  = refresh Decompose (ResetProposal_with (UpdateProposal fuel)) (deweight s).
Proof. reflexivity. Qed.

(** A [refresh] that returns has either not used its fallback, or returns
    what the fallback returned. *)
Lemma refresh_inv Reset (s s' : t) :
  refresh Decompose Reset s = Ret s' ->
  refresh Decompose (fun _ => OutOfFuel) s = Ret s' \/ exists s2, Reset s2 = Ret s'.
Proof.
  unfold refresh. destruct (Decompose (fCurrentCov s)) as [u|]; [auto |].
  destruct (floor_variances s) as [cov| |]; cbn [mbind outcome_bind]; try discriminate.
  destruct (cap_correlations _ cov) as [cov'| |]; cbn [mbind outcome_bind];
    try discriminate.
  destruct (Decompose _) as [u|]; [auto |]. eauto.
Qed.

(** However deep the fallback went, a call that returns does so from an
    activation that did not fall back, with the trial counts that activation
    set on entry. *)
Lemma UpdateProposal_innermost (fuel : nat) : forall (s s' : t),
  UpdateProposal fuel s = Ret s' ->
  exists s0,
    UpdateProposal 1 s0 = Ret s' /\
    fCovarianceTrials s'
      = std_min (std_max 1000 (0.1 * fCovarianceTrials s0)) (0.1 * fCovarianceWindow s0) /\
    fAcceptanceTrials s'
      = std_min (std_max 1000 (0.1 * fAcceptanceTrials s0)) (0.1 * fAcceptanceWindow s0).
Proof.
  induction fuel as [|fuel IH]; intros s s' H; [discriminate |].
  rewrite UpdateProposal_S in H. apply refresh_inv in H as [H|[s2 H]].
  - exists s. rewrite UpdateProposal_S.
    destruct (refresh_trials (ResetProposal_with (UpdateProposal 0)) _ _ H)
      as (Hr & Hc & Ha).
    rewrite Hc, Ha. auto.
  - apply bind_Ret in H as (s3 & _ & H). exact (IH _ _ H).
Qed.

(** C8: every call of [UpdateProposal] starts by setting
    [fCovarianceTrials] to [min(max(1000, 0.1*fCovarianceTrials),
    0.1*fCovarianceWindow)] and [fAcceptanceTrials] to
    [min(max(1000, 0.1*fAcceptanceTrials), 0.1*fAcceptanceWindow)].  A call
    that returns without falling back on [ResetProposal] returns with these
    values; a call that did fall back returns with the values that the
    [UpdateProposal] closing [ResetProposal] set in the same way. *)
Theorem UpdateProposal_deweights (fuel : nat) (s : t) :
  UpdateProposal (S fuel) s
    = refresh Decompose (ResetProposal_with (UpdateProposal fuel)) (deweight s) /\
  fCovarianceTrials (deweight s)
    = std_min (std_max 1000 (0.1 * fCovarianceTrials s)) (0.1 * fCovarianceWindow s) /\
  fAcceptanceTrials (deweight s)
    = std_min (std_max 1000 (0.1 * fAcceptanceTrials s)) (0.1 * fAcceptanceWindow s) /\
  (forall s',
     UpdateProposal 1 s = Ret s' ->
     UpdateProposal (S fuel) s = Ret s' /\
     fCovarianceTrials s'
       = std_min (std_max 1000 (0.1 * fCovarianceTrials s)) (0.1 * fCovarianceWindow s) /\
     fAcceptanceTrials s'
       = std_min (std_max 1000 (0.1 * fAcceptanceTrials s)) (0.1 * fAcceptanceWindow s)) /\
  (forall s',
     UpdateProposal (S fuel) s = Ret s' ->
     exists s0,
       UpdateProposal 1 s0 = Ret s' /\
       fCovarianceTrials s'
         = std_min (std_max 1000 (0.1 * fCovarianceTrials s0)) (0.1 * fCovarianceWindow s0) /\
       fAcceptanceTrials s'
         = std_min (std_max 1000 (0.1 * fAcceptanceTrials s0)) (0.1 * fAcceptanceWindow s0)).
Proof.
  split; [reflexivity |]. split; [reflexivity |]. split; [reflexivity |]. split.
  - intros s' H%UpdateProposal_1.
    destruct (refresh_trials (ResetProposal_with (UpdateProposal fuel)) _ _ H)
      as (Hr & -> & ->).
    auto.
  - apply UpdateProposal_innermost.
Qed.

(** *** The scale update *)

(** C9: when the acceptance equals the target acceptance (a finite, non-zero
    number: the constructor's 0.44), the update
    [fSigma *= pow(fAcceptance/fTargetAcceptance, min(0.001, 0.5/fAcceptanceWindow))]
    leaves [fSigma] as it was; [pow(1,y) = 1] for every [y] is C's
    requirement on [std::pow]. *)
Theorem update_scale_fixed_point (s : t) :
  (forall y, std_pow 1 y = 1) ->
  fAcceptance s = fTargetAcceptance s ->
  is_finite (fTargetAcceptance s) = true ->
  (fTargetAcceptance s =? 0) = false ->
  update_scale std_pow s = s /\ fSigma (update_scale std_pow s) = fSigma s.
Proof.
  intros Hpow Heq Hfin Hnz.
  assert (H : update_scale std_pow s = s).
  { unfold update_scale. rewrite Heq, div_self by assumption.
    rewrite Hpow, mul_one. now destruct s. }
  now rewrite H.
Qed.
(** *** The whole proposal *)

(** The proposal loop returns; it leaves the generator after one draw per
    dimension, every Uniform coordinate at its draw and every other
    coordinate at its start plus the rows of the Gaussian dimensions. *)
Lemma make_proposal_spec (s : t) (g : G) (proposal : Vector) :
  length (fProposalType s) = length proposal ->
  exists v,
    make_proposal gRandom s g proposal
    = Ret (generator_before gRandom s g (length proposal), v) /\
    length v = length proposal /\
    forall j p x, fProposalType s !! j = Some p -> proposal !! j = Some x ->
                  v !! j = Some (if (type p =? 1)%Z then variate gRandom s g j
                                 else rows_added gRandom s g j x (length proposal)).
Proof.
  intros Hlen.
  set (turned (i : nat) (gv : G * Vector) :=
         gv.1 = generator_before gRandom s g i /\
         length gv.2 = length proposal /\
         forall j p x, fProposalType s !! j = Some p -> proposal !! j = Some x ->
                       gv.2 !! j
                       = Some (if (type p =? 1)%Z
                               then (if (j <? i)%nat then variate gRandom s g j else x)
                               else rows_added gRandom s g j x i)).
  destruct (for_loop_total turned (propose_dim gRandom s) (length proposal) 0 (g, proposal))
    as ([g' v] & Hrun & Hg & Hl & Hv).
  - split; [reflexivity |]. split; [reflexivity |].
    intros j p x _ Hx. cbn [fst snd rows_added]. change (j <? 0)%nat with false.
    now destruct (type p =? 1)%Z.
  - intros i [gi vi] [_ Hi] (Hg & Hl & Hv). cbn [fst snd] in Hg, Hl, Hv.
    cbn [Nat.add] in Hi. subst gi.
    destruct (lookup_lt_is_Some_2 (fProposalType s) i) as [q Hq]; [lia |].
    pose proof (propose_dim_spec s i (generator_before gRandom s g i) vi q
                  ltac:(lia) Hq) as Hstep.
    destruct (type q =? 1)%Z eqn:Hq1.
    + destruct (Uniform gRandom (param1 q) (param2 q) (generator_before gRandom s g i))
        as [u gi'] eqn:Hu.
      eexists. split; [exact Hstep |]. split; [| split]; cbn [fst snd].
      * cbn [generator_before]. now rewrite Hq, Hq1, Hu.
      * now rewrite length_insert.
      * intros j p x Hp Hx. destruct (decide (j = i)) as [-> | Hne].
        -- rewrite list_lookup_insert_eq by lia.
           replace p with q by congruence. rewrite Hq1.
           destruct (Nat.ltb_spec i (S i)); [| lia].
           unfold variate. now rewrite Hq, Hq1, Hu.
        -- rewrite list_lookup_insert_ne by congruence. rewrite (Hv j p x Hp Hx).
           cbn [rows_added]. rewrite Hq, Hq1.
           destruct (Nat.ltb_spec j i), (Nat.ltb_spec j (S i)); try lia; reflexivity.
    + destruct (Gaus gRandom 0 1 (generator_before gRandom s g i)) as [r gi'] eqn:Hr.
      destruct Hstep as (v' & Hv' & Hl' & Hpt).
      exists (gi', v'). split; [exact Hv' |]. split; [| split]; cbn [fst snd].
      * cbn [generator_before]. now rewrite Hq, Hq1, Hr.
      * lia.
      * intros j p x Hp Hx. rewrite (Hpt j p _ Hp (Hv j p x Hp Hx)).
        unfold contribution. cbn [rows_added]. rewrite Hq, Hq1.
        destruct (type p =? 1)%Z eqn:Hp1.
        -- assert (j <> i) by (intros ->; congruence).
           destruct (Nat.ltb_spec j i), (Nat.ltb_spec j (S i)); try lia; reflexivity.
        -- unfold variate. now rewrite Hq, Hq1, Hr.
  - cbn [fst snd Nat.add] in Hg, Hl, Hv. subst g'. exists v. split; [exact Hrun |]. split; [exact Hl |].
    intros j p x Hp Hx. rewrite (Hv j p x Hp Hx).
    destruct (type p =? 1)%Z; [| reflexivity].
    apply lookup_lt_Some in Hx. destruct (Nat.ltb_spec j (length proposal)); [reflexivity | lia].
Qed.

(** C6: proposal generation, the whole loop of the operator after
    [UpdateState].  The loop visits the dimensions in order, [gen i] being
    the generator before the turn [i], [r i] the variate drawn at that turn
    and [sum j x i] the coordinate [j], started at [x], after the rows before
    [i].  At a dimension [i] that is not Uniform the loop makes exactly one
    draw, of [Gaus(0,1)], and with that one variate [r i] the row [i] adds
    [fSigma * r i * fDecomposition(i,j)] to every coordinate [j] that is not
    Uniform.  At a Uniform dimension the one draw is of
    [Uniform(param1,param2)], no normal variate is drawn and nothing is added
    to any coordinate.  The operator returns the generator after the last
    turn; a coordinate that is not Uniform is the current one plus all the
    rows, and a Uniform coordinate is its own draw, with no contribution of
    any row. *)
Theorem call_shares_variate fuel (s s1 : t) (g : G) (proposal current : Vector) value :
  length proposal = length current ->
  UpdateState fuel current value s = Ret s1 ->
  length (fProposalType s1) = length current ->
  let gen := generator_before gRandom s1 g in
  let r := variate gRandom s1 g in
  let sum := rows_added gRandom s1 g in
  gen 0%nat = g /\
  (forall j x, sum j x 0%nat = x) /\
  (forall i p, fProposalType s1 !! i = Some p ->
     if (type p =? 1)%Z
     then Uniform gRandom (param1 p) (param2 p) (gen i) = (r i, gen (S i)) /\
          forall j x, sum j x (S i) = sum j x i
     else Gaus gRandom 0 1 (gen i) = (r i, gen (S i)) /\
          forall j x, sum j x (S i)
                      = sum j x i + fSigma s1 * r i * mget (fDecomposition s1) i j) /\
  exists v,
    call fuel s g proposal current value = Ret (s1, gen (length current), v) /\
    length v = length current /\
    forall j q x, fProposalType s1 !! j = Some q -> current !! j = Some x ->
                  v !! j = Some (if (type q =? 1)%Z then r j
                                 else sum j x (length current)).
Proof.
  intros Hlen Hs1 Hpt gen r sum.
  split; [reflexivity |]. split; [reflexivity |]. split.
  - intros i p Hp. subst gen r sum. unfold variate.
    cbn [generator_before rows_added]. rewrite Hp.
    destruct (type p =? 1)%Z eqn:Hp1.
    + split; [now destruct (Uniform gRandom _ _ _) | reflexivity].
    + split; [now destruct (Gaus gRandom _ _ _) |].
      intros j x. unfold variate. now rewrite Hp, Hp1.
  - destruct (make_proposal_spec s1 g current Hpt) as (v & Hm & Hl & Hv).
    exists v. split; [| split; assumption].
    unfold TProposeAdaptiveStep.call. rewrite Hlen, Nat.eqb_refl. cbn [negb].
    rewrite Hs1. cbn [mbind outcome_bind].
    rewrite std_copy_same_length by lia. cbn [mbind outcome_bind].
    now rewrite Hm.
Qed.

(** X7: what the proposal operator returns, in full.  After
    [UpdateState], the loop makes exactly one draw per dimension, in the
    order of the dimensions: [Uniform(param1,param2)] for a Uniform
    dimension, [Gaus(0,1)] for any other.  A Uniform coordinate is its draw.
    Any other coordinate is the current one plus, row after row,
    [fSigma * r_i * fDecomposition(i,j)] for every row [i] that is not
    Uniform, [r_i] being the draw of that row. *)
Theorem call_proposal fuel (s s1 : t) (g : G) (proposal current : Vector) value :
  length proposal = length current ->
  UpdateState fuel current value s = Ret s1 ->
  length (fProposalType s1) = length current ->
  exists v,
    call fuel s g proposal current value
    = Ret (s1, generator_before gRandom s1 g (length current), v) /\
    length v = length current /\
    forall j p x, fProposalType s1 !! j = Some p -> current !! j = Some x ->
                  v !! j = Some (if (type p =? 1)%Z then variate gRandom s1 g j
                                 else rows_added gRandom s1 g j x (length current)).
Proof.
  intros Hlen Hs1 Hpt.
  destruct (make_proposal_spec s1 g current Hpt) as (v & Hm & Hl & Hv).
  exists v. split; [| split; assumption].
  unfold TProposeAdaptiveStep.call. rewrite Hlen, Nat.eqb_refl. cbn [negb].
  rewrite Hs1. cbn [mbind outcome_bind].
  rewrite std_copy_same_length by lia. cbn [mbind outcome_bind].
  now rewrite Hm.
Qed.

(** *** What [UpdateProposal] and [ResetProposal] leave and erase *)

(** The three ways out of the body of [UpdateProposal]. *)
Lemma refresh_cases Reset (s s' : t) :
  refresh Decompose Reset s = Ret s' ->
  (exists u, s' = set_fDecomposition u s) \/
  (exists u cov, s' = set_fDecomposition u (set_fCurrentCov cov s)) \/
  (exists cov, Reset (set_fCurrentCov cov s) = Ret s').
Proof.
  unfold refresh. destruct (Decompose (fCurrentCov s)) as [u|].
  - intros [= <-]. eauto.
  - intros (cov & _ & H)%bind_Ret. apply bind_Ret in H as (cov' & _ & H).
    destruct (Decompose _) as [u|]; [injection H as <- |]; eauto.
Qed.

Lemma reset_inv (s s' : t) :
  reset s = Ret s' -> same_settings s s' /\ history_erased s'.
Proof.
  unfold reset. cbv zeta.
  intros (cov & Hcov & H)%bind_Ret.
  apply bind_Ret in H as (central & Hc & H).
  injection H as <-.
  destruct (fSigma _ <? _); destruct (fCovarianceWindow _ <? _);
    (rewrite std_copy_same_length in Hc by (now rewrite length_resize));
    injection Hc as <-; repeat split; reflexivity.
Qed.

Lemma same_settings_trans (s1 s2 s3 : t) :
  same_settings s1 s2 -> same_settings s2 s3 -> same_settings s1 s3.
Proof. unfold same_settings. intuition congruence. Qed.

Lemma history_erased_kept (s s' : t) :
  same_settings s s' -> history_erased s -> same_history s s' \/ history_erased s' ->
  history_erased s'.
Proof.
  intros Hs He [Hh | Hh]; [| assumption].
  unfold same_settings, same_history, history_erased in *. intuition congruence.
Qed.

(** The deweighting and the assignments of the covariance and of its
    decomposition touch neither the settings nor the history. *)
Lemma deweight_settings cov (s : t) : same_settings s (set_fCurrentCov cov (deweight s)).
Proof. repeat split; reflexivity. Qed.

Lemma decomposed_history u cov (s : t) :
  same_history s (set_fDecomposition u (deweight s)) /\
  same_history s (set_fDecomposition u (set_fCurrentCov cov (deweight s))).
Proof. repeat split; reflexivity. Qed.

Lemma UpdateProposal_inv (fuel : nat) : forall (s s' : t),
  UpdateProposal fuel s = Ret s' ->
  same_settings s s' /\ (same_history s s' \/ history_erased s').
Proof.
  induction fuel as [|fuel IH]; intros s s' H; [discriminate |].
  rewrite UpdateProposal_S in H.
  apply refresh_cases in H as [(u & ->) | [(u & cov & ->) | (cov & H)]].
  - split; [| left; apply (decomposed_history u [] s)]. repeat split; reflexivity.
  - split; [| left; apply (decomposed_history u cov s)]. repeat split; reflexivity.
  - revert H. generalize (deweight_settings cov s).
    generalize (set_fCurrentCov cov (deweight s)). intros s2 Hs2 H.
    apply bind_Ret in H as (s3 & Hr & H).
    destruct (reset_inv _ _ Hr) as (Hs3 & He3). destruct (IH _ _ H) as (Hs & Hh).
    split.
    + exact (same_settings_trans _ _ _ (same_settings_trans _ _ _ Hs2 Hs3) Hs).
    + right. exact (history_erased_kept _ _ Hs He3 Hh).
Qed.

(** X8: [UpdateProposal] and [ResetProposal] never assign the last point and
    value, the proposal types, the target acceptance, the acceptance window,
    the countdown to the next update or the initialisation flag.  A
    returning [UpdateProposal] has either kept the history (the counts, the
    acceptance, the central point, the scale) or erased it through
    [ResetProposal]; a returning [ResetProposal] has erased it: no trial
    counted, the acceptance at its target, the central point at the last
    point. *)
Theorem proposal_updates_keep_settings (fuel : nat) (s s' : t) :
  (UpdateProposal fuel s = Ret s' ->
   same_settings s s' /\ (same_history s s' \/ history_erased s')) /\
  (ResetProposal Decompose fuel s = Ret s' ->
   same_settings s s' /\ history_erased s').
Proof.
  split; [apply UpdateProposal_inv |].
  unfold ResetProposal, ResetProposal_with. intros (s3 & Hr & H)%bind_Ret.
  destruct (reset_inv _ _ Hr) as (Hs3 & He3).
  destruct (UpdateProposal_inv _ _ _ H) as (Hs & Hh).
  split; [exact (same_settings_trans _ _ _ Hs3 Hs) |].
  exact (history_erased_kept _ _ Hs He3 Hh).
Qed.

(** X9: after every returning [UpdateProposal] the two trial counts are
    not above a tenth of their windows, and they are at least 1000 when a
    tenth of the window is, whatever the counts held before the call (the
    constructor leaves them uninitialised). *)
Theorem UpdateProposal_trial_bounds (fuel : nat) (s s' : t) :
  UpdateProposal fuel s = Ret s' ->
  (0.1 * fCovarianceWindow s' <? fCovarianceTrials s') = false /\
  (0.1 * fAcceptanceWindow s' <? fAcceptanceTrials s') = false /\
  ((1000 <=? 0.1 * fCovarianceWindow s') = true -> (1000 <=? fCovarianceTrials s') = true) /\
  ((1000 <=? 0.1 * fAcceptanceWindow s') = true -> (1000 <=? fAcceptanceTrials s') = true).
Proof.
  intros (s0 & H1 & -> & ->)%UpdateProposal_innermost.
  apply UpdateProposal_1, refresh_cases in H1 as [(u & ->) | [(u & cov & ->) | (cov & H)]];
    [| | discriminate];
    change (fCovarianceWindow (set_fDecomposition u _)) with (fCovarianceWindow s0);
    change (fAcceptanceWindow (set_fDecomposition u _)) with (fAcceptanceWindow s0);
    pose proof (clamp_bounds (0.1 * fCovarianceTrials s0) (0.1 * fCovarianceWindow s0));
    pose proof (clamp_bounds (0.1 * fAcceptanceTrials s0) (0.1 * fAcceptanceWindow s0));
    tauto.
Qed.

(** The repair of the covariance faults on a Gaussian dimension without a
    variance hint. *)
Lemma floor_variances_unhinted (s : t) (i : nat) p :
  (length (fLastPoint s) <= length (fProposalType s))%nat ->
  (i < length (fLastPoint s))%nat ->
  fProposalType s !! i = Some p ->
  type p = 0%Z ->
  (0 <? param1 p) = false ->
  floor_variances s = Fault Terminate.
Proof.
  intros Hlen Hi Hp Ht Hh. unfold floor_variances.
  apply (for_loop_fault (fun _ _ => True) _ Terminate _ i); [lia | exact I | |].
  - intros k cov Hk _.
    destruct (lookup_lt_is_Some_2 (fProposalType s) k) as [q Hq]; [lia |].
    apply at_Ret in Hq. rewrite Hq. cbn [mbind outcome_bind].
    destruct (expectedVariance q) as [ev|[]|] eqn:E; cbn [mbind outcome_bind];
      try (unfold expectedVariance in E;
           destruct (_ && _); [discriminate |]; destruct (_ =? 1)%Z; discriminate).
    + left. destruct (mget cov k k <? _); eexists; (split; [reflexivity | exact I]).
    + now right.
  - intros cov _. apply at_Ret in Hp. rewrite Hp. cbn [mbind outcome_bind].
    unfold expectedVariance. rewrite Ht, Hh. reflexivity.
Qed.

(** X10: when the Cholesky decomposition of the covariance estimate fails,
    [UpdateProposal] terminates the program if some dimension is Gaussian
    without a variance hint, which is what every dimension is unless
    [SetGaussian] or [SetUniform] was called for it: the repair reaches
    [throw;] at that dimension. *)
Theorem UpdateProposal_unhinted_gaussian (fuel : nat) (s : t) (i : nat) p :
  Decompose (fCurrentCov s) = None ->
  (length (fLastPoint s) <= length (fProposalType s))%nat ->
  (i < length (fLastPoint s))%nat ->
  fProposalType s !! i = Some p ->
  type p = 0%Z ->
  (0 <? param1 p) = false ->
  UpdateProposal (S fuel) s = Fault Terminate.
Proof.
  intros Hd Hlen Hi Hp Ht Hh. rewrite UpdateProposal_S. unfold refresh.
  change (fCurrentCov (deweight s)) with (fCurrentCov s). rewrite Hd.
  now rewrite (floor_variances_unhinted (deweight s) i p).
Qed.

Abbreviation InitializeState := (InitializeState std_pow Decompose).

(** *** The first call *)

(** The state that [InitializeState] hands to [ResetProposal]. *)
Lemma InitializeState_inv fuel (current : Vector) value (s s' : t) :
  fStateInitialized s = false ->
  InitializeState fuel current value s = Ret s' ->
  exists s1 sx,
    (if (length (fLastPoint s) <? 1)%nat
     then SetDim (Z.of_nat (length current)) (set_fStateInitialized true s)
     else Ret (set_fStateInitialized true s)) = Ret s1 /\
    std_copy current (fLastPoint s1) = Ret (fLastPoint sx) /\
    fLastValue sx = value /\
    fProposalType sx = fProposalType s1 /\
    fStateInitialized sx = fStateInitialized s1 /\
    fAcceptanceWindow sx = std_pow (1 * double_of_size (length (fLastPoint sx))) 2 + 1000 /\
    int_of_double (fAcceptanceWindow sx) = Ret (fNextUpdate sx) /\
    ResetProposal Decompose fuel sx = Ret s'.
Proof.
  intros Hi. unfold TProposeAdaptiveStep.InitializeState. rewrite Hi. cbv zeta.
  change (fLastPoint (set_fStateInitialized true s)) with (fLastPoint s).
  intros (s1 & H1 & H)%bind_Ret. exists s1.
  apply bind_Ret in H as (lp & Hlp & H).
  apply bind_Ret in H as (nu & Hnu & H).
  match type of H with ResetProposal _ _ ?x = _ => exists x end.
  split; [exact H1 |]. split; [exact Hlp |].
  split; [reflexivity |]. split; [reflexivity |]. split; [reflexivity |].
  split; [reflexivity |]. split; [exact Hnu | exact H].
Qed.

(** [ResetProposal] keeps the settings and erases the history, however deep
    the recursion with [UpdateProposal] went. *)
Lemma ResetProposal_inv fuel (s s' : t) :
  ResetProposal Decompose fuel s = Ret s' -> same_settings s s' /\ history_erased s'.
Proof.
  unfold ResetProposal, ResetProposal_with. intros (s3 & Hr & H)%bind_Ret.
  destruct (reset_inv _ _ Hr) as (Hs3 & He3).
  destruct (UpdateProposal_inv _ _ _ H) as (Hs & Hh).
  split; [exact (same_settings_trans _ _ _ Hs3 Hs) |].
  exact (history_erased_kept _ _ Hs He3 Hh).
Qed.

(** The dimensioning step of [InitializeState]: an engine without
    dimensionality takes the one of the current point. *)
Lemma dimension_step (n : nat) (s s1 : t) :
  (if (length (fLastPoint s) <? 1)%nat
   then SetDim (Z.of_nat n) (set_fStateInitialized true s)
   else Ret (set_fStateInitialized true s)) = Ret s1 ->
  fStateInitialized s1 = true /\
  fLastPoint s1 = (if is_empty (fLastPoint s) then replicate n 0 else fLastPoint s) /\
  fProposalType s1 = (if is_empty (fLastPoint s)
                      then resize n ProposalType_new (fProposalType s)
                      else fProposalType s).
Proof.
  unfold SetDim. change (fLastPoint (set_fStateInitialized true s)) with (fLastPoint s).
  destruct (fLastPoint s) as [|x l] eqn:E; cbn [length Nat.ltb Nat.leb is_empty negb].
  - destruct (Z.ltb_spec (Z.of_nat n) 0); [lia |]. intros [= <-].
    rewrite Nat2Z.id. cbn. now rewrite resize_nil.
  - intros [= <-]. cbn. auto.
Qed.

(** The first [InitializeState], on an engine without dimensionality or of
    the dimensionality of the current point. *)
Lemma InitializeState_first fuel (current : Vector) value (s s' : t) :
  fStateInitialized s = false ->
  fLastPoint s = [] \/ length (fLastPoint s) = length current ->
  InitializeState fuel current value s = Ret s' ->
  fStateInitialized s' = true /\
  fLastPoint s' = current /\
  fLastValue s' = value /\
  fProposalType s' = (if is_empty (fLastPoint s)
                      then resize (length current) ProposalType_new (fProposalType s)
                      else fProposalType s) /\
  fAcceptanceWindow s' = std_pow (1 * double_of_size (length current)) 2 + 1000 /\
  int_of_double (fAcceptanceWindow s') = Ret (fNextUpdate s') /\
  history_erased s'.
Proof.
  intros Hi Hdim H.
  apply InitializeState_inv in H
    as (s1 & sx & H1 & Hlp & Hv & Hp & Hsi & Hw & Hnu & H); [| assumption].
  apply dimension_step in H1 as (Hi1 & Hl1 & Hp1).
  apply ResetProposal_inv in H as ((Ha & Hb & Hc & Hd & He & Hf & Hg) & Her).
  assert (Hlen : length (fLastPoint s1) = length current).
  { rewrite Hl1. destruct Hdim as [-> | Hdim]; [cbn; now rewrite length_replicate |].
    destruct (fLastPoint s); [| assumption]. cbn. now rewrite length_replicate. }
  rewrite std_copy_same_length in Hlp by congruence. injection Hlp as Hlp.
  split; [now rewrite Hg, Hsi |]. split; [congruence |]. split; [congruence |].
  split; [now rewrite Hc, Hp |]. split; [now rewrite He, Hw, <- Hlp |].
  split; [now rewrite He, Hf | assumption].
Qed.

(** X11: an engine dimensioned by [SetDim] below the dimensionality of the
    chain is not stopped by the check of [InitializeState], which only
    reports the mismatch: the copy of the current point into [fLastPoint]
    runs past its end, in [InitializeState] and so in the first call of the
    proposal. *)
Theorem dimension_mismatch_overruns fuel (s : t) (g : G) (proposal current : Vector) value :
  fStateInitialized s = false ->
  (0 < length (fLastPoint s) < length current)%nat ->
  length proposal = length current ->
  InitializeState fuel current value s
    = Fault (OutOfBounds (length (fLastPoint s)) (length (fLastPoint s))) /\
  call fuel s g proposal current value
    = Fault (OutOfBounds (length (fLastPoint s)) (length (fLastPoint s))).
Proof.
  intros Hi Hlen Hpc.
  assert (H : InitializeState fuel current value s
              = Fault (OutOfBounds (length (fLastPoint s)) (length (fLastPoint s)))).
  { unfold TProposeAdaptiveStep.InitializeState. rewrite Hi. cbv zeta.
    change (fLastPoint (set_fStateInitialized true s)) with (fLastPoint s).
    destruct (Nat.ltb_spec (length (fLastPoint s)) 1); [lia |].
    cbn [mbind outcome_bind outcome_ret mret].
    change (fLastPoint (set_fLastValue value (set_fStateInitialized true s)))
      with (fLastPoint s).
    unfold std_copy. rewrite decide_False by lia. reflexivity. }
  split; [exact H |].
  unfold TProposeAdaptiveStep.call, TProposeAdaptiveStep.UpdateState.
  rewrite Hpc, Nat.eqb_refl, H. reflexivity.
Qed.

(** *** Every call of [UpdateState] *)

(** The fields that the running estimates of [UpdateState] leave alone. *)
Let kept (s s' : t) : Prop :=
  same_settings s s' /\ fTrials s' = fTrials s /\ fSuccesses s' = fSuccesses s /\
  fDecomposition s' = fDecomposition s.

Lemma update_center_kept (current : Vector) (s s' : t) :
  update_center current s = Ret s' -> kept s s'.
Proof.
  unfold update_center. intros (c & _ & [= <-])%bind_Ret. repeat split; reflexivity.
Qed.

Lemma update_center_cov (current : Vector) (s s' : t) :
  update_center current s = Ret s' -> fCurrentCov s' = fCurrentCov s.
Proof. unfold update_center. now intros (c & _ & [= <-])%bind_Ret. Qed.

Lemma update_covariance_kept (current : Vector) (s s' : t) :
  update_covariance current s = Ret s' -> kept s s'.
Proof.
  unfold update_covariance. intros (c & _ & [= <-])%bind_Ret. repeat split; reflexivity.
Qed.

(** The counting of the trial and of the success, and the updates of the
    acceptance and of the scale. *)
Lemma counted (accepted : bool) (s1 : t) :
  let s2 := set_fTrials (fTrials s1 + 1) s1 in
  let s3 := if accepted then set_fSuccesses (fSuccesses s2 + 1) s2 else s2 in
  let s5 := update_scale std_pow (update_acceptance accepted s3) in
  same_settings s1 s5 /\ fTrials s5 = (fTrials s1 + 1)%Z /\
  fSuccesses s5 = (fSuccesses s1 + if accepted then 1 else 0)%Z /\
  fDecomposition s5 = fDecomposition s1 /\ fCurrentCov s5 = fCurrentCov s1.
Proof.
  destruct accepted; repeat split; try reflexivity.
  change (fSuccesses s1 = (fSuccesses s1 + 0)%Z). lia.
Qed.

(** The periodic update: nothing on a step that did not move; on one that
    moved, the countdown, and [UpdateProposal] when it falls below 1. *)
Lemma periodic_update_inv fuel (accepted : bool) (s s' : t) :
  periodic_update Decompose fuel accepted s = Ret s' ->
  (fLastPoint s' = fLastPoint s /\ fLastValue s' = fLastValue s /\
   fProposalType s' = fProposalType s /\ fStateInitialized s' = fStateInitialized s /\
   fAcceptanceWindow s' = fAcceptanceWindow s) /\
  ((fTrials s' = fTrials s /\ fSuccesses s' = fSuccesses s) \/
   (fTrials s' = 0%Z /\ fSuccesses s' = 0%Z)) /\
  (accepted = false -> s' = s) /\
  (accepted = true -> (1 <= fNextUpdate s - 1)%Z ->
   s' = set_fNextUpdate (fNextUpdate s - 1) s).
Proof.
  unfold periodic_update. destruct accepted; cycle 1.
  { intros [= <-]. split; [repeat split; reflexivity |].
    split; [left; split; reflexivity |]. split; [reflexivity | discriminate]. }
  cbv zeta.
  change (fNextUpdate (set_fNextUpdate (fNextUpdate s - 1) s)) with (fNextUpdate s - 1)%Z.
  destruct (Z.ltb_spec (fNextUpdate s - 1) 1) as [Hlt | Hge].
  - intros (nu & _ & H)%bind_Ret. revert H.
    assert (Hk : forall s2 : t,
               s2 = set_fNextUpdate nu (set_fNextUpdate (fNextUpdate s - 1) s) ->
               (fLastPoint s2 = fLastPoint s /\ fLastValue s2 = fLastValue s /\
                fProposalType s2 = fProposalType s /\
                fStateInitialized s2 = fStateInitialized s /\
                fAcceptanceWindow s2 = fAcceptanceWindow s) /\
               fTrials s2 = fTrials s /\ fSuccesses s2 = fSuccesses s)
      by (intros s2 ->; repeat split; reflexivity).
    specialize (Hk _ eq_refl). revert Hk.
    generalize (set_fNextUpdate nu (set_fNextUpdate (fNextUpdate s - 1) s)).
    intros s2 ((Ha & Hb & Hc & Hd & He) & Ht & Hs) H.
    apply UpdateProposal_inv in H as ((Ha' & Hb' & Hc' & _ & He' & _ & Hd') & Hh).
    split; [repeat split; congruence |]. split; [| split; [discriminate | lia]].
    destruct Hh as [(Ht' & Hs' & _) | (Ht' & Hs' & _)]; [left | right]; split; congruence.
  - intros [= <-]. split; [repeat split; reflexivity |].
    split; [left; split; reflexivity |]. split; [discriminate | reflexivity].
Qed.

Lemma UpdateState_inv fuel (current : Vector) value (s s' : t) :
  UpdateState fuel current value s = Ret s' ->
  exists s1 (accepted : bool) s7 s8,
    InitializeState fuel current value s = Ret s1 /\
    moved current value s1 = Ret accepted /\
    same_settings s1 s7 /\ fTrials s7 = (fTrials s1 + 1)%Z /\
    fSuccesses s7 = (fSuccesses s1 + if accepted then 1 else 0)%Z /\
    fDecomposition s7 = fDecomposition s1 /\
    periodic_update Decompose fuel accepted s7 = Ret s8 /\
    std_copy current (fLastPoint s8) = Ret (fLastPoint s') /\
    fLastValue s' = value /\
    fProposalType s' = fProposalType s8 /\ fStateInitialized s' = fStateInitialized s8 /\
    fAcceptanceWindow s' = fAcceptanceWindow s8 /\
    fTrials s' = fTrials s8 /\ fSuccesses s' = fSuccesses s8 /\
    fNextUpdate s' = fNextUpdate s8 /\ fDecomposition s' = fDecomposition s8 /\
    fCurrentCov s' = fCurrentCov s8 /\
    exists s6, fCurrentCov s6 = fCurrentCov s1 /\ fLastPoint s6 = fLastPoint s1 /\
               update_covariance current s6 = Ret s7.
Proof.
  unfold TProposeAdaptiveStep.UpdateState. intros (s1 & Hinit & H)%bind_Ret.
  cbv zeta in H. apply bind_Ret in H as (accepted & Hm & H).
  change (moved current value s1 = Ret accepted) in Hm.
  pose proof (counted accepted s1) as Hk. cbv zeta in Hk. revert Hk H.
  match goal with |- context [update_center current ?x] => generalize x end.
  intros s5 (Hs5 & Ht5 & Hc5 & Hd5 & Hv5) H.
  apply bind_Ret in H as (s6 & H6 & H).
  pose proof (update_center_cov _ _ _ H6) as Hv6.
  apply update_center_kept in H6 as (Hs6 & Ht6 & Hc6 & Hd6).
  apply bind_Ret in H as (s7 & H7 & H).
  pose proof (update_covariance_kept _ _ _ H7) as (Hs7 & Ht7 & Hc7 & Hd7).
  apply bind_Ret in H as (s8 & H8 & H).
  apply bind_Ret in H as (lp & Hlp & H). injection H as <-.
  exists s1, accepted, s7, s8.
  split; [assumption |]. split; [assumption |].
  split; [exact (same_settings_trans _ _ _ (same_settings_trans _ _ _ Hs5 Hs6) Hs7) |].
  split; [congruence |]. split; [congruence |]. split; [congruence |].
  split; [assumption |]. split; [exact Hlp |].
  do 9 (split; [reflexivity |]). exists s6.
  split; [congruence |]. split; [| assumption].
  destruct Hs5 as (E5 & _), Hs6 as (E6 & _). congruence.
Qed.


Lemma InitializeState_again fuel (current : Vector) value (s : t) :
  fStateInitialized s = true -> InitializeState fuel current value s = Ret s.
Proof. intros H. unfold TProposeAdaptiveStep.InitializeState. now rewrite H. Qed.

(** X12: a call of [UpdateState] that returns keeps the counts sound.
    Given an engine that is not initialised, or an initialised one with
    [0 <= fSuccesses <= fTrials] and [fTrials], an [int], below [INT_MAX], and
    given that the countdown as [InitializeState] leaves it is an [int]
    above [INT_MIN] (so that [++fTrials], [++fSuccesses] and [--fNextUpdate]
    stay in range), [0 <= fSuccesses <= fTrials <= INT_MAX] holds after the
    call, whether or not the call went through [UpdateProposal] or
    [ResetProposal]. *)
Theorem UpdateState_counts fuel (current : Vector) value (s s' : t) :
  (fStateInitialized s = true ->
   (0 <= fSuccesses s <= fTrials s)%Z /\ (fTrials s < INT_MAX)%Z) ->
  (forall s1, InitializeState fuel current value s = Ret s1 ->
              (INT_MIN < fNextUpdate s1 <= INT_MAX)%Z) ->
  UpdateState fuel current value s = Ret s' ->
  (0 <= fSuccesses s' <= fTrials s')%Z /\ (fTrials s' <= INT_MAX)%Z.
Proof.
  intros Hc _ H.
  apply UpdateState_inv in H
    as (s1 & accepted & s7 & s8 & Hinit & _ & _ & Ht7 & Hs7 & _ & H8 & _ & _ & _ & _ & _
        & -> & -> & _).
  assert (H1 : (0 <= fSuccesses s1 <= fTrials s1)%Z /\ (fTrials s1 < INT_MAX)%Z).
  { destruct (fStateInitialized s) eqn:Hi.
    - rewrite InitializeState_again in Hinit by assumption. injection Hinit as <-. auto.
    - apply InitializeState_inv in Hinit as (s0 & sx & _ & _ & _ & _ & _ & _ & _ & Hr);
        [| assumption].
      apply ResetProposal_inv in Hr as (_ & -> & -> & _). unfold INT_MAX. lia. }
  unfold INT_MAX in *.
  apply periodic_update_inv in H8 as (_ & [[-> ->] | [-> ->]] & _); [| lia].
  rewrite Ht7, Hs7. destruct accepted; lia.
Qed.


(** X14: the first call of [UpdateState] on an engine without
    dimensionality gives it the dimensionality of the current point, every
    dimension Gaussian without variance hint, and the acceptance window
    [d^2 + 1000], which is also the countdown to the first update; an engine
    dimensioned by [SetDim] keeps its proposal types.  The first call counts
    one trial and, unless the value or the coordinate 1 is NaN, no
    success. *)
Theorem UpdateState_first_call fuel (current : Vector) value (s s' : t) c :
  fStateInitialized s = false ->
  fLastPoint s = [] \/ length (fLastPoint s) = length current ->
  current !! 1%nat = Some c ->
  is_nan value = false -> is_nan c = false ->
  UpdateState fuel current value s = Ret s' ->
  fProposalType s' = (if is_empty (fLastPoint s)
                      then resize (length current) ProposalType_new (fProposalType s)
                      else fProposalType s) /\
  fAcceptanceWindow s' = std_pow (1 * double_of_size (length current)) 2 + 1000 /\
  int_of_double (fAcceptanceWindow s') = Ret (fNextUpdate s') /\
  fTrials s' = 1%Z /\ fSuccesses s' = 0%Z.
Proof.
  intros Hsi Hdim Hc Hnv Hnc H.
  apply UpdateState_inv in H
    as (s1 & accepted & s7 & s8 & Hinit & Hm & (_ & _ & Hp7 & _ & Hw7 & Hn7 & _) & Ht7 & Hs7
        & _ & H8 & _ & _ & -> & _ & -> & -> & -> & -> & _).
  apply InitializeState_first in Hinit
    as (_ & Hl1 & Hv1 & Hp1 & Hw1 & Hn1 & (Ht1 & Hs1 & _)); [| assumption..].
  assert (accepted = false) as ->.
  { unfold moved in Hm. rewrite Hv1, Hl1 in Hm. apply at_Ret in Hc. rewrite Hc in Hm.
    cbn [mbind outcome_bind] in Hm. unfold is_nan in Hnv, Hnc.
    destruct (value =? value); [| discriminate]. cbn in Hm.
    destruct (c =? c); [| discriminate]. now injection Hm as <-. }
  apply periodic_update_inv in H8 as (_ & _ & -> & _); [| reflexivity].
  rewrite Hp7, Hw7, Hn7, Ht7, Hs7, Ht1, Hs1. auto.
Qed.

(** X15: on an initialised engine whose counters are [int]s that can be
    stepped ([fTrials] and [fSuccesses] below [INT_MAX], [fNextUpdate] above
    [INT_MIN]), a step that did not move counts a trial and nothing else: no
    success, the countdown and the decomposition as they were.  A step that
    moved counts a trial and a success and takes one from the countdown; the
    decomposition changes only when the countdown falls below 1.  The
    counters are [int]s after the call. *)
Theorem UpdateState_countdown fuel (current : Vector) value (s s' : t) (accepted : bool) :
  fStateInitialized s = true ->
  (INT_MIN <= fTrials s < INT_MAX)%Z ->
  (INT_MIN <= fSuccesses s < INT_MAX)%Z ->
  (INT_MIN < fNextUpdate s <= INT_MAX)%Z ->
  moved current value s = Ret accepted ->
  UpdateState fuel current value s = Ret s' ->
  (accepted = false \/ (1 <= fNextUpdate s - 1)%Z) ->
  (fTrials s' = (fTrials s + 1)%Z /\
   fSuccesses s' = (fSuccesses s + if accepted then 1 else 0)%Z /\
   fNextUpdate s' = (fNextUpdate s - if accepted then 1 else 0)%Z /\
   fDecomposition s' = fDecomposition s) /\
  (INT_MIN <= fTrials s' <= INT_MAX)%Z /\
  (INT_MIN <= fSuccesses s' <= INT_MAX)%Z /\
  (INT_MIN <= fNextUpdate s' <= INT_MAX)%Z.
Proof.
  intros Hsi Hit His Hin Hm H Hcase.
  assert (Hv : fTrials s' = (fTrials s + 1)%Z /\
               fSuccesses s' = (fSuccesses s + if accepted then 1 else 0)%Z /\
               fNextUpdate s' = (fNextUpdate s - if accepted then 1 else 0)%Z /\
               fDecomposition s' = fDecomposition s).
  { apply UpdateState_inv in H
      as (s1 & accepted' & s7 & s8 & Hinit & Hm' & (_ & _ & _ & _ & _ & Hn7 & _) & Ht7 & Hs7
          & Hd7 & H8 & _ & _ & _ & _ & _ & -> & -> & -> & -> & _).
    rewrite InitializeState_again in Hinit by assumption. injection Hinit as <-.
    assert (accepted' = accepted) as -> by congruence.
    apply periodic_update_inv in H8 as (_ & _ & Hf & Ht).
    destruct accepted.
    - destruct Hcase as [? | Hn]; [discriminate |].
      rewrite Ht by (rewrite ?Hn7; auto).
      change (fTrials s7 = (fTrials s + 1)%Z /\ fSuccesses s7 = (fSuccesses s + 1)%Z /\
              (fNextUpdate s7 - 1)%Z = (fNextUpdate s - 1)%Z /\
              fDecomposition s7 = fDecomposition s).
      rewrite Hn7. auto.
    - rewrite Hf by reflexivity. rewrite Hn7, Z.sub_0_r. auto. }
  split; [exact Hv |]. destruct Hv as (-> & -> & -> & _).
  unfold INT_MIN, INT_MAX in *. destruct accepted; lia.
Qed.

(** *** The covariance estimate *)

(** The variance that [ResetProposal] gives a dimension: the hint of a
    hinted Gaussian, and 1 otherwise. *)
Let seed_variance (s : t) (a : nat) : float :=
  match fProposalType s !! a with
  | Some p => if (type p =? 0)%Z && (0 <? param1 p) then param1 p else 1
  | None => 1
  end.

Let seeded (s : t) (i j : nat) (cov : TMatrixD) : Prop :=
  square (length (fLastPoint s)) cov /\
  forall a b, (a < length (fLastPoint s))%nat -> (b < length (fLastPoint s))%nat ->
              (Nat.min a b < i)%nat \/ (Nat.min a b = i /\ Nat.max a b < j)%nat ->
              mget cov a b = if decide (a = b) then seed_variance s a else 0.

Lemma seed_covariance_inv (s : t) (cov : TMatrixD) :
  seed_covariance s = Ret cov -> seeded s (length (fLastPoint s)) 0 cov.
Proof.
  unfold seed_covariance. cbv zeta. set (n := length (fLastPoint s)). intros H.
  eapply (for_loop_inv (fun i cov => seeded s i 0 cov)) in H; [exact H | |].
  - split; [apply ResizeTo_square |]. intros a b _ _ [? | [_ ?]]; lia.
  - clear H. intros i c c' Hi Hc H. cbn in Hi.
    eapply (for_loop_inv (fun j cov => seeded s i j cov)) in H.
    + replace (i + (n - i))%nat with n in H by lia.
      destruct H as [Hsq H]. split; [assumption |].
      intros a b Ha Hb Hab. apply H; [assumption.. | fold n in Ha, Hb; lia].
    + destruct Hc as [Hsq Hc]. split; [assumption |].
      intros a b Ha Hb Hab. apply Hc; [assumption.. | lia].
    + clear H Hc. intros j d d1 Hj [Hsq Hc] H. fold n in Hsq.
      destruct (Nat.eqb_spec i j) as [<- | Hne].
      * apply bind_Ret in H as (p & Hp%at_Ret & H).
        assert (d1 = mset d i i (seed_variance s i)) as ->.
        { unfold seed_variance. rewrite Hp. destruct (_ && _); congruence. }
        split; [now apply mset_square |].
        intros a b Ha Hb Hab. rewrite (mget_mset n) by (assumption || lia).
        destruct (decide (a = i /\ b = i)) as [[-> ->] | Hn].
        -- now rewrite decide_True.
        -- apply Hc; [assumption.. | lia].
      * injection H as <-.
        split; [now apply mset_square, mset_square |].
        intros a b Ha Hb Hab.
        rewrite (mget_mset n) by (try apply mset_square; assumption || lia).
        rewrite (mget_mset n) by (assumption || lia).
        destruct (decide (a = i /\ b = j)) as [[-> ->] | Hn1];
          [now rewrite decide_False by lia |].
        destruct (decide (a = j /\ b = i)) as [[-> ->] | Hn2];
          [now rewrite decide_False by lia |].
        apply Hc; [assumption.. | lia].
Qed.

(** [seed_covariance] reads the last point, the proposal types and the
    covariance only. *)
Lemma seed_covariance_ext (s1 s2 : t) :
  fLastPoint s1 = fLastPoint s2 -> fProposalType s1 = fProposalType s2 ->
  fCurrentCov s1 = fCurrentCov s2 -> seed_covariance s1 = seed_covariance s2.
Proof. unfold seed_covariance. now intros -> -> ->. Qed.

(** The covariance that [reset] leaves is the one [seed_covariance] makes of
    the state it was called on. *)
Lemma reset_cov (s s' : t) :
  reset s = Ret s' ->
  seed_covariance s = Ret (fCurrentCov s') /\ fLastPoint s' = fLastPoint s.
Proof.
  unfold reset. cbv zeta.
  intros (cov & Hcov & H)%bind_Ret.
  apply bind_Ret in H as (central & Hc & H).
  injection H as <-.
  destruct (fSigma _ <? _); destruct (fCovarianceWindow _ <? _);
    (split; [| reflexivity]);
    (erewrite seed_covariance_ext; [exact Hcov | reflexivity..]).
Qed.

(** X16: [ResetProposal] forgets the covariance estimate: before its
    closing [UpdateProposal] the estimate is the diagonal matrix that holds
    the variance hint of every Gaussian dimension that has one and 1 for
    every other dimension.  When the Cholesky decomposition of that matrix
    succeeds, [ResetProposal] returns with it and with its factor. *)
Theorem reset_seeds_covariance (fuel : nat) (s s1 : t) :
  reset s = Ret s1 ->
  square (length (fLastPoint s)) (fCurrentCov s1) /\
  (forall i p, (i < length (fLastPoint s))%nat -> fProposalType s !! i = Some p ->
               mget (fCurrentCov s1) i i
               = if (type p =? 0)%Z && (0 <? param1 p) then param1 p else 1) /\
  (forall i j, (i < length (fLastPoint s))%nat -> (j < length (fLastPoint s))%nat ->
               i <> j -> mget (fCurrentCov s1) i j = 0) /\
  ResetProposal Decompose fuel s = UpdateProposal fuel s1 /\
  (forall u, Decompose (fCurrentCov s1) = Some u ->
             exists s', ResetProposal Decompose (S fuel) s = Ret s' /\
                        fCurrentCov s' = fCurrentCov s1 /\ fDecomposition s' = u).
Proof.
  intros H. pose proof (reset_cov _ _ H) as ((Hsq & Hc)%seed_covariance_inv & _).
  split; [assumption |]. split; [| split; [| split]].
  - intros i p Hi Hp. rewrite Hc by (assumption || lia).
    rewrite decide_True by reflexivity. unfold seed_variance. now rewrite Hp.
  - intros i j Hi Hj Hne. rewrite Hc by (assumption || lia). now rewrite decide_False.
  - unfold ResetProposal, ResetProposal_with. now rewrite H.
  - intros u Hu. unfold ResetProposal, ResetProposal_with. rewrite H.
    cbn [mbind outcome_bind]. rewrite UpdateProposal_S. unfold refresh.
    change (fCurrentCov (deweight s1)) with (fCurrentCov s1). rewrite Hu.
    eexists. split; [reflexivity |]. split; reflexivity.
Qed.










(** *** Configuration *)

(** X18: within the range of the dimensions, [SetUniform] stores the type
    Uniform with the two bounds, and [SetGaussian] stores the type Gaussian
    with the square of its argument as variance hint, keeping the second
    parameter the dimension had; both leave every other dimension and the
    last point alone. *)
Theorem setters_store (dim : Z) (lo hi sigma : float) (s : t) :
  out_of_range dim s = false ->
  exists p su sg,
    fProposalType s !! Z.to_nat dim = Some p /\
    SetUniform dim lo hi s = Ret su /\
    SetGaussian dim sigma s = Ret sg /\
    fProposalType su !! Z.to_nat dim = Some {| type := 1; param1 := lo; param2 := hi |} /\
    fProposalType sg !! Z.to_nat dim
      = Some {| type := 0; param1 := sigma * sigma; param2 := param2 p |} /\
    (forall j, j <> Z.to_nat dim ->
               fProposalType su !! j = fProposalType s !! j /\
               fProposalType sg !! j = fProposalType s !! j) /\
    fLastPoint su = fLastPoint s /\ fLastPoint sg = fLastPoint s.
Proof.
  intros Hr. unfold SetUniform, SetGaussian. rewrite Hr.
  unfold out_of_range in Hr. apply orb_false_elim in Hr as (H0%Z.ltb_ge & H1%Z.leb_gt).
  destruct (lookup_lt_is_Some_2 (fProposalType s) (Z.to_nat dim)) as [p Hp]; [lia |].
  exists p. eexists. eexists. split; [exact Hp |].
  split; [reflexivity |]. split; [reflexivity |].
  change (fProposalType (set_fProposalType ?l s)) with l.
  split; [apply list_lookup_insert_eq; lia |].
  split; [now rewrite list_lookup_alter_eq, Hp |].
  split; [| split; reflexivity].
  intros j Hj. now rewrite list_lookup_insert_ne, list_lookup_alter_ne by congruence.
Qed.

(** X19: on an engine as constructed, which has no dimension yet,
    [SetUniform] and [SetGaussian] return without effect for every index,
    and so does [SetDim(0)]; [SetDim(n)] for a positive [n] gives [n]
    dimensions, all Gaussian without variance hint, after which [SetDim]
    has no effect; a negative [n] is a length error in [resize]. *)
Theorem fresh_engine_configuration (c0 cov0 a0 : float) :
  let s0 := new c0 cov0 a0 in
  (forall dim lo hi, SetUniform dim lo hi s0 = Ret s0) /\
  (forall dim sigma, SetGaussian dim sigma s0 = Ret s0) /\
  SetDim 0 s0 = Ret s0 /\
  (forall n, (0 < n)%Z ->
             exists s, SetDim n s0 = Ret s /\
                       fLastPoint s = replicate (Z.to_nat n) 0 /\
                       fProposalType s = replicate (Z.to_nat n) ProposalType_new /\
                       forall n', SetDim n' s = Ret s) /\
  (forall n, (n < 0)%Z -> SetDim n s0 = Fault LengthError).
Proof.
  intros s0.
  assert (Hr : forall dim, out_of_range dim s0 = true).
  { intros dim. unfold out_of_range. cbn. destruct (Z.ltb_spec dim 0); [reflexivity |].
    apply Z.leb_le. assumption. }
  split; [intros; unfold SetUniform; now rewrite Hr |].
  split; [intros; unfold SetGaussian; now rewrite Hr |].
  split; [reflexivity |]. split.
  - intros n Hn. unfold SetDim. cbn [s0 new fLastPoint is_empty negb].
    destruct (Z.ltb_spec n 0); [lia |]. eexists. split; [reflexivity |].
    unfold s0, new. cbn [fLastPoint fProposalType set_fProposalType set_fLastPoint].
    rewrite !resize_nil. split; [reflexivity |]. split; [reflexivity |].
    intros n'. destruct (Z.to_nat n) eqn:E; [lia | reflexivity].
  - intros n Hn. unfold SetDim. cbn [s0 new fLastPoint is_empty negb].
    destruct (Z.ltb_spec n 0); [reflexivity | lia].
Qed.

(** The covariance window that [reset] leaves is not below 1000. *)
Lemma reset_window (s s' : t) :
  reset s = Ret s' ->
  fCovarianceWindow s'
  = (if fCovarianceWindow s <? 1000 then 10000000 else fCovarianceWindow s) /\
  (fCovarianceWindow s' <? 1000) = false.
Proof.
  unfold reset. cbv zeta.
  intros (cov & Hcov & H)%bind_Ret.
  apply bind_Ret in H as (central & Hc & H).
  injection H as <-. clear Hc Hcov.
  destruct (fSigma _ <? _);
    match goal with
    | |- context [?x <? double_of_Z 1000] => change x with (fCovarianceWindow s)
    end;
    change (double_of_Z 1000) with 1000;
    destruct (fCovarianceWindow s <? 1000) eqn:E; split; try reflexivity; exact E.
Qed.

Lemma UpdateProposal_window (fuel : nat) : forall (s s' : t),
  (fCovarianceWindow s <? 1000) = false ->
  UpdateProposal fuel s = Ret s' ->
  fCovarianceWindow s' = fCovarianceWindow s.
Proof.
  induction fuel as [|fuel IH]; intros s s' Hw H; [discriminate |].
  rewrite UpdateProposal_S in H.
  apply refresh_cases in H as [(u & ->) | [(u & cov & ->) | (cov & H)]];
    [reflexivity.. |].
  revert H.
  assert (Hk : forall s2 : t, s2 = set_fCurrentCov cov (deweight s) ->
                              fCovarianceWindow s2 = fCovarianceWindow s)
    by (now intros s2 ->).
  specialize (Hk _ eq_refl). revert Hk. generalize (set_fCurrentCov cov (deweight s)).
  intros s2 Hk H. apply bind_Ret in H as (s3 & (H3 & Hw3)%reset_window & H).
  rewrite (IH _ _ Hw3 H), H3, Hk, Hw. reflexivity.
Qed.

(** X20: [ResetProposal] replaces a covariance window below 1000, the
    constructor's [-1] included, by 10000000, and keeps any other window,
    also when the closing [UpdateProposal] resets again; so does a window
    given to [SetCovarianceWindow] before the reset. *)
Theorem ResetProposal_covariance_window (fuel : nat) (w : Z) (s s' : t) :
  (ResetProposal Decompose fuel s = Ret s' ->
   fCovarianceWindow s'
   = if fCovarianceWindow s <? 1000 then 10000000 else fCovarianceWindow s) /\
  (ResetProposal Decompose fuel (SetCovarianceWindow w s) = Ret s' ->
   fCovarianceWindow s'
   = if double_of_Z w <? 1000 then 10000000 else double_of_Z w).
Proof.
  assert (Hr : forall s0 : t,
             ResetProposal Decompose fuel s0 = Ret s' ->
             fCovarianceWindow s'
             = if fCovarianceWindow s0 <? 1000 then 10000000 else fCovarianceWindow s0).
  { intros s0. unfold ResetProposal, ResetProposal_with.
    intros (s3 & (H3 & Hw3)%reset_window & H)%bind_Ret.
    now rewrite (UpdateProposal_window _ _ _ Hw3 H). }
  split; [apply Hr |]. intros H. apply Hr in H. exact H.
Qed.

(** *** Steps that return *)

Lemma update_center_returns (current : Vector) (s : t) :
  (length current <= length (fCentralPoint s))%nat ->
  exists s', update_center current s = Ret s' /\
             length (fCentralPoint s') = length (fCentralPoint s).
Proof.
  intros Hlen. unfold update_center.
  destruct (for_loop_total (fun _ (c : Vector) => length c = length (fCentralPoint s))
              (fun i c =>
                 x ← at_ c i;
                 ci ← at_ current i;
                 assign c i ((x * fCentralPointTrials s + ci) / (fCentralPointTrials s + 1)))
              (length current) 0 (fCentralPoint s)) as (c & -> & Hc); [reflexivity | |].
  - intros i c Hi Hc.
    destruct (lookup_lt_is_Some_2 c i) as [x Hx]; [lia |].
    destruct (lookup_lt_is_Some_2 current i) as [ci Hci]; [lia |].
    apply at_Ret in Hx, Hci. rewrite Hx, Hci. cbn [mbind outcome_bind].
    unfold assign. rewrite decide_True by lia.
    eexists. split; [reflexivity |]. now rewrite length_insert.
  - eexists. split; [reflexivity |]. exact Hc.
Qed.

Lemma update_covariance_returns (current : Vector) (s : t) :
  (length current <= length (fCentralPoint s))%nat ->
  exists s', update_covariance current s = Ret s' /\ fCentralPoint s' = fCentralPoint s.
Proof.
  intros Hlen. unfold update_covariance.
  match goal with
  | |- context [for_loop (length current) 0 ?body ?c0] =>
      destruct (for_loop_total (fun _ (_ : TMatrixD) => True) body (length current) 0 c0)
        as (cov & -> & _); [exact I | |]
  end.
  - intros i c Hi _.
    match goal with
    | |- context [for_loop (i + 1) 0 ?body c] =>
        destruct (for_loop_total (fun _ (_ : TMatrixD) => True) body (i + 1) 0 c)
          as (c' & -> & _); [exact I | | eauto]
    end.
    intros j d Hj _.
    destruct (lookup_lt_is_Some_2 current i) as [ci Hci]; [lia |].
    destruct (lookup_lt_is_Some_2 (fCentralPoint s) i) as [mi Hmi]; [lia |].
    destruct (lookup_lt_is_Some_2 current j) as [cj Hcj]; [lia |].
    destruct (lookup_lt_is_Some_2 (fCentralPoint s) j) as [mj Hmj]; [lia |].
    apply at_Ret in Hci, Hmi, Hcj, Hmj. cbv zeta. rewrite Hci, Hmi, Hcj, Hmj.
    cbn [mbind outcome_bind]. destruct (i =? j)%nat; eauto.
  - eexists. split; reflexivity.
Qed.

(** On an initialised engine whose vectors have the dimensionality of the
    point, [UpdateState] returns when no update of the proposal is due. *)
Lemma UpdateState_returns fuel (current : Vector) value (s : t) (accepted : bool) :
  fStateInitialized s = true ->
  length (fLastPoint s) = length current ->
  length (fCentralPoint s) = length current ->
  moved current value s = Ret accepted ->
  accepted = false \/ (1 <= fNextUpdate s - 1)%Z ->
  exists s1,
    UpdateState fuel current value s = Ret s1 /\
    fStateInitialized s1 = true /\ fLastPoint s1 = current /\
    length (fCentralPoint s1) = length current /\
    fProposalType s1 = fProposalType s.
Proof.
  intros Hsi Hl Hc Hm Hcase. unfold TProposeAdaptiveStep.UpdateState.
  rewrite InitializeState_again by assumption. cbn [mbind outcome_bind]. cbv zeta.
  match goal with
  | |- context [moved current value ?x] =>
      change (moved current value x) with (moved current value s)
  end.
  rewrite Hm. cbn [mbind outcome_bind].
  pose proof (counted accepted s) as Hk. cbv zeta in Hk. revert Hk.
  match goal with
  | |- context [update_center current ?x] =>
      assert (Hc5 : fCentralPoint x = fCentralPoint s) by (destruct accepted; reflexivity);
      revert Hc5; generalize x
  end.
  intros s5 Hc5 ((Hl5 & _ & Hp5 & _ & _ & Hn5 & Hi5) & _).
  destruct (update_center_returns current s5) as (s6 & E6 & Hc6); [rewrite Hc5; lia |].
  rewrite E6. cbn [mbind outcome_bind].
  apply update_center_kept in E6 as ((Hl6 & _ & Hp6 & _ & _ & Hn6 & Hi6) & _).
  destruct (update_covariance_returns current s6) as (s7 & E7 & Hc7);
    [rewrite Hc6, Hc5; lia |].
  rewrite E7. cbn [mbind outcome_bind].
  apply update_covariance_kept in E7 as ((Hl7 & _ & Hp7 & _ & _ & Hn7 & Hi7) & _).
  assert (Hl7' : length current = length (fLastPoint s7)) by congruence.
  unfold periodic_update. destruct accepted.
  - destruct Hcase as [? | Hn]; [discriminate |]. cbv zeta.
    change (fNextUpdate (set_fNextUpdate (fNextUpdate s7 - 1) s7)) with (fNextUpdate s7 - 1)%Z.
    destruct (Z.ltb_spec (fNextUpdate s7 - 1) 1) as [Hlt | _]; [exfalso; lia |].
    cbn [mbind outcome_bind].
    change (fLastPoint (set_fLastValue value (set_fNextUpdate (fNextUpdate s7 - 1) s7)))
      with (fLastPoint s7).
    rewrite std_copy_same_length by assumption. cbn [mbind outcome_bind].
    eexists. split; [reflexivity |].
    split; [exact (eq_trans Hi7 (eq_trans Hi6 (eq_trans Hi5 Hsi))) |].
    split; [reflexivity |]. split; [| exact (eq_trans Hp7 (eq_trans Hp6 Hp5))].
    change (length (fCentralPoint s7) = length current). congruence.
  - cbn [mbind outcome_bind].
    change (fLastPoint (set_fLastValue value s7)) with (fLastPoint s7).
    rewrite std_copy_same_length by assumption. cbn [mbind outcome_bind].
    eexists. split; [reflexivity |].
    split; [exact (eq_trans Hi7 (eq_trans Hi6 (eq_trans Hi5 Hsi))) |].
    split; [reflexivity |]. split; [| exact (eq_trans Hp7 (eq_trans Hp6 Hp5))].
    change (length (fCentralPoint s7) = length current). congruence.
Qed.

(** *** The moved-point test in [UpdateState] *)

(** C4: every call of [UpdateState] whose initialisation returned runs the
    test [value != fLastValue || current[1] != fLastPoint[1]] on the engine
    [s1] that [InitializeState] leaves, and the outcome of the test is the
    outcome of the call.  When the value equals the last value, the test
    reads index 1 of the current point and of the last point: in two or
    more dimensions the access is in bounds and the step counts as moved
    exactly when the two coordinates differ; in fewer than two dimensions
    the access is out of bounds, and that is the outcome of [UpdateState]
    and of the operator.  When the value differs from the last value, as a
    NaN always does, [||] does not evaluate the comparison: nothing is read
    at index 1, in one dimension as well, and the step counts as moved.
    A step that counts as moved adds one to [fSuccesses], unless the update
    it triggers resets the counts; one that does not leaves [fSuccesses] as
    it was; and on an initialised engine the call returns when no update of
    the proposal is due.  The counters are [int]s that can be stepped. *)
Theorem UpdateState_moved_test fuel (current : Vector) value (s s1 : t) :
  InitializeState fuel current value s = Ret s1 ->
  length (fLastPoint s1) = length current ->
  (INT_MIN <= fTrials s1 < INT_MAX)%Z ->
  (INT_MIN <= fSuccesses s1 < INT_MAX)%Z ->
  (INT_MIN < fNextUpdate s1 <= INT_MAX)%Z ->
  let counted_as (accepted : bool) : Prop :=
    moved current value s1 = Ret accepted /\
    (forall s', UpdateState fuel current value s = Ret s' ->
       (fTrials s' = (fTrials s1 + 1)%Z /\
        fSuccesses s' = (fSuccesses s1 + if accepted then 1 else 0)%Z) \/
       (accepted = true /\ fTrials s' = 0%Z /\ fSuccesses s' = 0%Z)) /\
    (fStateInitialized s = true -> length (fCentralPoint s) = length current ->
     accepted = false \/ (1 <= fNextUpdate s - 1)%Z ->
     exists s', UpdateState fuel current value s = Ret s') in
  if value =? fLastValue s1
  then if decide (2 <= length current)%nat
       then exists c l, current !! 1%nat = Some c /\ fLastPoint s1 !! 1%nat = Some l /\
                        counted_as (negb (c =? l))
       else UpdateState fuel current value s = Fault (OutOfBounds 1 (length current)) /\
            forall (g : G) (proposal : Vector),
              length proposal = length current ->
              call fuel s g proposal current value
              = Fault (OutOfBounds 1 (length current))
  else counted_as true.
Proof.
  intros Hinit Hlen _ _ _ counted_as.
  assert (Hc : forall accepted, moved current value s1 = Ret accepted -> counted_as accepted).
  { intros accepted Hm. split; [exact Hm |]. split.
    - intros s' H.
      apply UpdateState_inv in H
        as (s1' & accepted' & s7 & s8 & Hinit' & Hm' & _ & Ht7 & Hs7 & _ & H8 & _ & _ & _ & _
            & _ & Ht & Hs & _).
      assert (s1' = s1) as -> by congruence.
      assert (accepted' = accepted) as -> by congruence.
      apply periodic_update_inv in H8 as (_ & Hcnt & Hf & _).
      rewrite Ht, Hs. destruct accepted.
      + destruct Hcnt as [[-> ->] | [-> ->]]; [left | right]; auto.
      + rewrite Hf by reflexivity. left. auto.
    - intros Hsi Hcp Hcase.
      rewrite InitializeState_again in Hinit by assumption. injection Hinit as <-.
      destruct (UpdateState_returns fuel current value s accepted Hsi Hlen Hcp Hm Hcase)
        as (s' & H & _).
      eauto. }
  pose proof (moved_cases current value s1 Hlen) as Hm.
  destruct (value =? fLastValue s1).
  - destruct (decide (2 <= length current)%nat) as [Hd | Hd].
    + destruct Hm as (c & l & Hc' & Hl & Hm). exists c, l. auto.
    + pose proof (UpdateState_moved_fault fuel current value s s1 _ Hinit Hm) as Hf.
      split; [exact Hf |]. intros g proposal Hp.
      unfold TProposeAdaptiveStep.call. rewrite Hp, Nat.eqb_refl. cbn [negb].
      now rewrite Hf.
  - auto.
Qed.

(** X21: the proposal operator does not fault on an ordinary step: on an
    initialised engine whose vectors have the dimensionality of the point,
    once the moved-point test has returned (as it does in two or more
    dimensions), the operator returns whenever no update of the proposal is
    due (the point did not move, or the countdown stays at 1 or more), with
    a proposal of that dimensionality, and it leaves the engine in such a
    state again. *)
Theorem adaptive_call_returns fuel (s : t) (g : G) (proposal current : Vector) value
        (accepted : bool) :
  fStateInitialized s = true ->
  length proposal = length current ->
  length (fLastPoint s) = length current ->
  length (fCentralPoint s) = length current ->
  length (fProposalType s) = length current ->
  moved current value s = Ret accepted ->
  accepted = false \/ (1 <= fNextUpdate s - 1)%Z ->
  exists s1 g' v,
    call fuel s g proposal current value = Ret (s1, g', v) /\
    length v = length current /\
    fStateInitialized s1 = true /\
    length (fLastPoint s1) = length current /\
    length (fCentralPoint s1) = length current /\
    length (fProposalType s1) = length current.
Proof.
  intros Hsi Hpc Hl Hc Hp Hm Hcase.
  destruct (UpdateState_returns fuel current value s accepted Hsi Hl Hc Hm Hcase)
    as (s1 & Hs1 & Hsi1 & Hl1 & Hc1 & Hp1).
  destruct (make_proposal_spec s1 g current) as (v & Hv & Hlv & _); [congruence |].
  exists s1, (generator_before gRandom s1 g (length current)), v.
  split; [| repeat split; congruence].
  unfold TProposeAdaptiveStep.call. rewrite Hpc, Nat.eqb_refl. cbn [negb].
  rewrite Hs1. cbn [mbind outcome_bind].
  rewrite std_copy_same_length by lia. cbn [mbind outcome_bind].
  now rewrite Hv.
Qed.

End EngineFacts.

(** ** Chains *)

Section Chains.
Context {G : Type} (gRandom : TRandom G) (std_log : float -> float).
Context (fLogLikelihood : Vector -> float).
Context (std_pow : float -> float -> float).
Context (Decompose : TMatrixD -> option TMatrixD).

(** X22: a started chain driven by [TProposeSimpleStep] never faults: every
    step returns, for every likelihood and random source, and leaves the
    chain started, so that any number of steps can follow. *)
Theorem simple_Step_returns save (m : TSimpleMCMC.t TProposeSimpleStep.t) (g : G) :
  started m ->
  exists b m' g',
    TSimpleMCMC.Step gRandom std_log fLogLikelihood (TProposeSimpleStep.call gRandom)
      save m g = Ret (b, m', g') /\
    started m'.
Proof.
  intros Hs. pose proof Hs as (Hne & Hp & Ht).
  destruct (simple_call_returns gRandom (TSimpleMCMC.fProposeStep m) g
              (TSimpleMCMC.fProposed m) (TSimpleMCMC.fAccepted m)
              (TSimpleMCMC.fAcceptedLogLikelihood m)) as (g1 & v & Hcall & Hl); [lia |].
  assert (Hret : exists b m' g',
             TSimpleMCMC.Step gRandom std_log fLogLikelihood
               (TProposeSimpleStep.call gRandom) save m g = Ret (b, m', g')).
  { destruct (Step_eq gRandom std_log fLogLikelihood (TProposeSimpleStep.call gRandom)
                save m g _ g1 v Hs Hcall Hl) as (ts & _ & ->). cbv zeta.
    destruct (_ <? 0); [destruct (_ <? std_log _) |];
      try (rewrite keep_eq by (cbn; lia)); eauto. }
  destruct Hret as (b & m' & g' & H). exists b, m', g'. split; [assumption |].
  apply (Step_started gRandom std_log fLogLikelihood (TProposeSimpleStep.call gRandom)
           save m m' g g' b Hs H).
  intros p g2 v' Hv. rewrite Hcall in Hv. injection Hv as <- <- <-. lia.
Qed.

(** X23: a step of a started chain driven by [TProposeAdaptiveStep] that
    returns leaves the chain started: the three vectors keep the
    dimensionality, and the next step does not meet the start-point check. *)
Theorem adaptive_Step_started fuel save (m m' : TSimpleMCMC.t TProposeAdaptiveStep.t)
        (g g' : G) b :
  started m ->
  TSimpleMCMC.Step gRandom std_log fLogLikelihood
    (TProposeAdaptiveStep.call gRandom std_pow Decompose fuel) save m g = Ret (b, m', g') ->
  started m'.
Proof.
  intros Hs H.
  apply (Step_started gRandom std_log fLogLikelihood _ save m m' g g' b Hs H).
  intros p g1 v Hv. now apply call_length in Hv.
Qed.

End Chains.

(** ** TConstrainedLikelihood *)

Section ConstrainedFacts.
Import TConstrainedLikelihood.

Lemma loop_total {A} (P : nat -> A -> Prop) body n : forall lo a,
  P lo a ->
  (forall i a, (lo <= i < lo + n)%nat -> P i a ->
               exists a', body i a = Value a' /\ P (S i) a') ->
  exists a', loop n lo body a = Value a' /\ P (lo + n)%nat a'.
Proof.
  induction n as [|n IH]; intros lo a H0 Hstep; cbn.
  - exists a. rewrite Nat.add_0_r. auto.
  - destruct (Hstep lo a) as (a1 & -> & H1); [lia | assumption |]. cbn.
    destruct (IH (S lo) a1) as (a' & Ha' & HP); [assumption | |].
    + intros i a2 Hi. apply Hstep. lia.
    + exists a'. split; [assumption |]. now replace (lo + S n)%nat with (S lo + n)%nat by lia.
Qed.

Lemma loop_overrun {A} body n k size : forall lo (a : A),
  (lo <= k < lo + n)%nat ->
  (forall i a, (lo <= i < k)%nat -> exists a', body i a = Value a') ->
  (forall a, body k a = Overrun k size) ->
  loop n lo body a = Overrun k size.
Proof.
  induction n as [|n IH]; intros lo a Hk Hstep Hf; [lia |]. cbn.
  destruct (decide (lo = k)) as [-> | Hne].
  - now rewrite Hf.
  - destruct (Hstep lo a) as (a1 & ->); [lia |]. cbn.
    apply IH; [lia | | assumption]. intros i a2 Hi. apply Hstep. lia.
Qed.

(** X24: when the two vectors of priors have the same length and the point
    has at least that many coordinates, the constrained likelihood returns a
    value, and that value is never above zero: it is zero, negative,
    [-inf] or NaN, whatever the point and the priors hold. *)
Theorem constrained_likelihood_not_positive (l : t) (point : Vector) :
  length (ExpectedValues l) = length (PriorConstraints l) ->
  (length (ExpectedValues l) <= length point)%nat ->
  exists logLikelihood,
    call l point = Value logLikelihood /\ (0 <? logLikelihood) = false.
Proof.
  intros Hdim Hlen. unfold call, GetDim. rewrite decide_True by assumption.
  cbv zeta. cbn [mbind result_bind].
  destruct (loop_total (fun _ _ => True)
              (fun i sum => x ← read point i; Value (sum + x))
              (length (ExpectedValues l)) 0 0) as (sum & -> & _); [exact I | |].
  { intros i a Hi _. destruct (lookup_lt_is_Some_2 point i) as [x Hx]; [lia |].
    unfold read. rewrite Hx. cbn. eauto. }
  cbn [mbind result_bind].
  set (s := (sum - SummedValues l) / SummedConstraint l).
  destruct (loop_total (fun _ ll => (0 <? ll) = false)
              (fun i logLikelihood =>
                 p ← read point i;
                 e ← read (ExpectedValues l) i;
                 c ← read (PriorConstraints l) i;
                 Value (logLikelihood - 0.5 * ((p - e) / c) * ((p - e) / c)))
              (length (ExpectedValues l)) 0 (0 - 0.5 * s * s)) as (ll & Hrun & Hll).
  - apply sub_not_positive; [reflexivity | apply half_square_not_negative].
  - intros i a Hi Ha.
    destruct (lookup_lt_is_Some_2 point i) as [p Hp]; [lia |].
    destruct (lookup_lt_is_Some_2 (ExpectedValues l) i) as [e He]; [lia |].
    destruct (lookup_lt_is_Some_2 (PriorConstraints l) i) as [c Hc]; [lia |].
    unfold read. rewrite Hp, He, Hc. cbn [mbind result_bind].
    eexists. split; [reflexivity |].
    apply sub_not_positive; [assumption | apply half_square_not_negative].
  - exists ll. split; [exact Hrun | exact Hll].
Qed.

(** X25: the constrained likelihood does not return when its two vectors of
    priors differ in length, where [GetDim] leaves through [exit(1)] before
    anything is read, or when the point has fewer coordinates than there are
    priors, where the sum reads the point past its end.  [Init] keeps the
    two vectors in step. *)
Theorem constrained_likelihood_edges (l : t) (point : Vector) :
  (length (ExpectedValues l) <> length (PriorConstraints l) -> call l point = Exit 1) /\
  (length (ExpectedValues l) = length (PriorConstraints l) ->
   (length point < length (ExpectedValues l))%nat ->
   call l point = Overrun (length point) (length point)) /\
  (length (ExpectedValues l) = length (PriorConstraints l) ->
   GetDim (Init l) = Value (length (ExpectedValues l) + 25)%nat).
Proof.
  split; [| split].
  - intros H. unfold call, GetDim. now rewrite decide_False.
  - intros Hdim Hlen. unfold call, GetDim. rewrite decide_True by assumption.
    cbv zeta. cbn [mbind result_bind].
    rewrite (loop_overrun _ _ (length point) (length point)); [reflexivity | lia | |].
    + intros i a Hi. destruct (lookup_lt_is_Some_2 point i) as [x Hx]; [lia |].
      unfold read. rewrite Hx. cbn. eauto.
    + intros a. unfold read. now rewrite lookup_ge_None_2 by lia.
  - intros Hdim. unfold GetDim, Init. cbn [ExpectedValues PriorConstraints].
    rewrite !length_app, !length_replicate. cbn [length].
    rewrite decide_True by lia. f_equal; lia.
Qed.

End ConstrainedFacts.

(** ** The statements on concrete runs *)

Section Runs.
Import Demo.

Abbreviation SimpleStep :=
  (TSimpleMCMC.Step tape log TDummyLogLikelihood TProposeSimple).
Abbreviation BoxStep :=
  (TSimpleMCMC.Step tape log TBoxLogLikelihood TProposeSimple).

(** From the point 1 the proposal 0.5 is an improvement and is kept. *)
Lemma Step_accepts_improvement_witness :
  let m := TSimpleMCMC.Start TDummyLogLikelihood [1] true simple0 in
  exists m', SimpleStep true m [-0.5] = Ret (true, m', []) /\
             TSimpleMCMC.fAccepted m' = [0.5] /\
             TSimpleMCMC.fAcceptedLogLikelihood m' = TDummyLogLikelihood [0.5] /\
             TSimpleMCMC.fProposed m' = [0.5] /\
             TSimpleMCMC.fProposedLogLikelihood m' = TDummyLogLikelihood [0.5].
Proof.
  apply (Step_accepts_improvement tape log TDummyLogLikelihood TProposeSimple true
           (TSimpleMCMC.Start TDummyLogLikelihood [1] true simple0) [-0.5]
           TProposeSimpleStep.new [] [0.5]).
  - repeat split.
  - reflexivity.
  - reflexivity.
  - left. reflexivity.
Defined.

(** From the point 0 the proposal 3 has [delta = -4.5], below [log 0.5]. *)
Lemma Step_rejection_frame_witness :
  let m := TSimpleMCMC.Start TDummyLogLikelihood [0] true simple0 in
  exists m', SimpleStep true m [3; 0.5] = Ret (false, m', []) /\
             TSimpleMCMC.fAccepted m' = [0] /\
             TSimpleMCMC.fAcceptedLogLikelihood m' = TDummyLogLikelihood [0].
Proof.
  apply (Step_rejection_frame tape log TDummyLogLikelihood TProposeSimple true
           (TSimpleMCMC.Start TDummyLogLikelihood [0] true simple0) [3; 0.5]
           TProposeSimpleStep.new [0.5] [3]).
  - repeat split.
  - reflexivity.
  - reflexivity.
  - reflexivity.
  - reflexivity.
Defined.

(** The proposal 5 is outside the box; with the draw 0.5 it is rejected. *)
Lemma Step_rejects_zero_probability_witness :
  let m := TSimpleMCMC.Start TBoxLogLikelihood [0] true simple0 in
  exists m', BoxStep true m [5; 0.5] = Ret (false, m', []) /\
             TSimpleMCMC.fAccepted m' = [0] /\
             TSimpleMCMC.fAcceptedLogLikelihood m' = 0.
Proof.
  apply (Step_rejects_zero_probability tape log TBoxLogLikelihood TProposeSimple true
           (TSimpleMCMC.Start TBoxLogLikelihood [0] true simple0) [5; 0.5]
           TProposeSimpleStep.new [0.5] [5]).
  - repeat split.
  - reflexivity.
  - reflexivity.
  - reflexivity.
  - reflexivity.
  - reflexivity.
Defined.

(** C3 as stated fails: the proposal 5 has likelihood [-inf], the accepted
    log-likelihood is 0, and with the draw [u = 0], whose logarithm is
    [-inf], the step returns [true] and the accepted point becomes 5. *)
Lemma Step_accepts_zero_probability_at_zero_draw :
  let m := TSimpleMCMC.Start TBoxLogLikelihood [0] true simple0 in
  TProposeSimple (TSimpleMCMC.fProposeStep m) [5; 0] (TSimpleMCMC.fProposed m)
    (TSimpleMCMC.fAccepted m) (TSimpleMCMC.fAcceptedLogLikelihood m)
    = Ret (TProposeSimpleStep.new, [0], [5]) /\
  TBoxLogLikelihood [5] = neg_infinity /\
  is_finite (TSimpleMCMC.fAcceptedLogLikelihood m) = true /\
  Uniform01 tape [0] = (0, []) /\
  log 0 = neg_infinity /\
  (exists m', BoxStep true m [5; 0] = Ret (true, m', []) /\
              TSimpleMCMC.fAccepted m' = [5] /\
              TSimpleMCMC.fAcceptedLogLikelihood m' = neg_infinity) /\
  (forall m' g', BoxStep true m [5; 0] <> Ret (false, m', g')).
Proof.
  cbv zeta. repeat (split; [reflexivity |]).
  assert (H : exists m',
             BoxStep true (TSimpleMCMC.Start TBoxLogLikelihood [0] true simple0) [5; 0]
             = Ret (true, m', []) /\
             TSimpleMCMC.fAccepted m' = [5] /\
             TSimpleMCMC.fAcceptedLogLikelihood m' = neg_infinity).
  { eexists. split; [vm_compute; reflexivity |]. split; reflexivity. }
  split; [exact H |].
  destruct H as (m1 & -> & _). discriminate.
Qed.

(** C5 as stated fails: [SetDim] on an engine that has its dimensionality
    returns, and so do the setters given the index 7 of a two-dimensional
    engine. *)
Lemma checked_setters_return :
  is_empty (TProposeAdaptiveStep.fLastPoint uniform0) = false /\
  TProposeAdaptiveStep.out_of_range 7 uniform0 = true /\
  TProposeAdaptiveStep.SetDim 3 uniform0 = Ret uniform0 /\
  TProposeAdaptiveStep.SetUniform 7 0 1 uniform0 = Ret uniform0 /\
  TProposeAdaptiveStep.SetGaussian 7 2 uniform0 = Ret uniform0 /\
  (forall f, TProposeAdaptiveStep.SetDim 3 uniform0 <> Fault f) /\
  (forall f, TProposeAdaptiveStep.SetUniform 7 0 1 uniform0 <> Fault f) /\
  (forall f, TProposeAdaptiveStep.SetGaussian 7 2 uniform0 <> Fault f).
Proof. repeat split; discriminate. Qed.

(** In two dimensions, at an unchanged value: the test reads the
    coordinate 1 of both points and, as they differ, the step counts as
    moved. *)
Lemma UpdateState_moved_test_witness :
  exists c l,
    [0.5; 0.5] !! 1%nat = Some c /\
    TProposeAdaptiveStep.fLastPoint uniform1 !! 1%nat = Some l /\
    TProposeAdaptiveStep.moved [0.5; 0.5] 0 uniform1 = Ret (negb (c =? l)) /\
    (forall s',
       TProposeAdaptiveStep.UpdateState pow Decompose 3 [0.5; 0.5] 0 uniform1 = Ret s' ->
       (TProposeAdaptiveStep.fTrials s' = (TProposeAdaptiveStep.fTrials uniform1 + 1)%Z /\
        TProposeAdaptiveStep.fSuccesses s'
        = (TProposeAdaptiveStep.fSuccesses uniform1 + if negb (c =? l)%float then 1 else 0)%Z) \/
       (negb (c =? l) = true /\ TProposeAdaptiveStep.fTrials s' = 0%Z /\
        TProposeAdaptiveStep.fSuccesses s' = 0%Z)) /\
    (TProposeAdaptiveStep.fStateInitialized uniform1 = true ->
     length (TProposeAdaptiveStep.fCentralPoint uniform1) = length [0.5; 0.5] ->
     negb (c =? l) = false \/ (1 <= TProposeAdaptiveStep.fNextUpdate uniform1 - 1)%Z ->
     exists s',
       TProposeAdaptiveStep.UpdateState pow Decompose 3 [0.5; 0.5] 0 uniform1 = Ret s').
Proof.
  refine (UpdateState_moved_test tape pow Decompose 3 [0.5; 0.5] 0 uniform1 uniform1
            _ _ _ _ _).
  - reflexivity.
  - reflexivity.
  - vm_compute. split; [discriminate | reflexivity].
  - vm_compute. split; [discriminate | reflexivity].
  - vm_compute. split; [reflexivity | discriminate].
Defined.

(** C4 as stated fails in one dimension when the value has changed.  The
    first call of a one-dimensional sampler at a point whose log-likelihood
    is NaN returns, and so does the next call, at the log-likelihood -1:
    both run the test, neither reads index 1, and both count as moved. *)
Lemma call_in_one_dimension_returns :
  (exists v, TProposeAdaptive 3 (TProposeAdaptiveStep.new 0 0 0) [0.25] [0] [0] nan
             = Ret (line1, [], v)) /\
  TProposeAdaptiveStep.fLastPoint line1 = [0] /\
  TProposeAdaptiveStep.fSuccesses line1 = 1%Z /\
  TProposeAdaptiveStep.moved [0] (-1) line1 = Ret true /\
  (exists s' v, TProposeAdaptive 3 line1 [0.25] [0] [0] (-1) = Ret (s', [], v) /\
                TProposeAdaptiveStep.fSuccesses s' = 2%Z).
Proof.
  split; [eexists; vm_compute; reflexivity |].
  split; [reflexivity |]. split; [reflexivity |]. split; [reflexivity |].
  eexists. eexists. split; vm_compute; reflexivity.
Qed.

(** The first step of the adaptive sampler on the two-dimensional unit
    Gaussian: the proposal is kept. *)
Example adaptive_first_step :
  let m := TSimpleMCMC.Start TDummyLogLikelihood [0; 0] true
             (TSimpleMCMC.new (TProposeAdaptiveStep.new 0 0 0) None 0 0) in
  match TSimpleMCMC.Step tape log TDummyLogLikelihood (TProposeAdaptive 3) true m
          [0.25; -0.5; 0.75] with
  | Ret (b, m', g') =>
      b = true /\ g' = [] /\
      TSimpleMCMC.fTrialStep m' = TSimpleMCMC.fAccepted m' /\
      TProposeAdaptiveStep.fDecomposition (TSimpleMCMC.fProposeStep m') = [[1; 0]; [0; 1]]
  | _ => False
  end.
Proof. vm_compute. repeat split. Qed.

(** The first call of the operator on a one-dimensional sampler. *)
Example call_in_one_dimension :
  TProposeAdaptive 3 (TProposeAdaptiveStep.new 0 0 0) [] [0] [0] 0
  = Fault (OutOfBounds 1 1).
Proof. vm_compute. reflexivity. Qed.

(** A call on [mixed3] with the variates 2, 0.25 and 3: the rows 0 and 2 are
    Gaussian and the dimension 1 is Uniform. *)
Lemma call_shares_variate_witness :
  let gen := generator_before tape mixed4 [2; 0.25; 3; -1] in
  let r := variate tape mixed4 [2; 0.25; 3; -1] in
  let sum := rows_added tape mixed4 [2; 0.25; 3; -1] in
  gen 0%nat = [2; 0.25; 3; -1] /\
  (forall j x, sum j x 0%nat = x) /\
  (forall i p, TProposeAdaptiveStep.fProposalType mixed4 !! i = Some p ->
     if (TProposeAdaptiveStep.type p =? 1)%Z
     then Uniform tape (TProposeAdaptiveStep.param1 p) (TProposeAdaptiveStep.param2 p) (gen i)
          = (r i, gen (S i)) /\
          forall j x, sum j x (S i) = sum j x i
     else Gaus tape 0 1 (gen i) = (r i, gen (S i)) /\
          forall j x, sum j x (S i)
                      = sum j x i
                        + TProposeAdaptiveStep.fSigma mixed4 * r i
                          * mget (TProposeAdaptiveStep.fDecomposition mixed4) i j) /\
  exists v,
    TProposeAdaptive 3 mixed3 [2; 0.25; 3; -1] [0; 0; 0] [0; 0; 0] 0
    = Ret (mixed4, gen 3%nat, v) /\
    length v = 3%nat /\
    forall j q x,
      TProposeAdaptiveStep.fProposalType mixed4 !! j = Some q -> [0; 0; 0] !! j = Some x ->
      v !! j = Some (if (TProposeAdaptiveStep.type q =? 1)%Z then r j else sum j x 3%nat).
Proof.
  refine (call_shares_variate tape pow Decompose 3 mixed3 mixed4 [2; 0.25; 3; -1]
            [0; 0; 0] [0; 0; 0] 0 _ _ _).
  - reflexivity.
  - vm_compute. reflexivity.
  - reflexivity.
Defined.

(** That call: the variate 2 of the row 0 moves the coordinates 0 and 2, by
    [U(0,0) = 1] and [U(0,2) = 0.5]; the Uniform coordinate 1 is its draw
    [-5 + 10 * 0.25]; the variate 3 of the row 2 moves the coordinate 2. *)
Example call_on_mixed3 :
  let sigma := TProposeAdaptiveStep.fSigma mixed4 in
  TProposeAdaptive 3 mixed3 [2; 0.25; 3; -1] [0; 0; 0] [0; 0; 0] 0
  = Ret (mixed4, [-1], [sigma * 2 * 1 + sigma * 3 * 0; -2.5;
                        sigma * 2 * 0.5 + sigma * 3 * 1]).
Proof. vm_compute. reflexivity. Qed.

Example propose_dim_row_0 :
  TProposeAdaptiveStep.propose_dim tape mixed3 0 ([2], [0; 0; 0]) = Ret ([], [1; 0; 0.5]).
Proof. vm_compute. reflexivity. Qed.



(** A refresh on a covariance that decomposes at once: the trial counts are
    the deweighted ones, here [max(1000, 100.1)] under the cap [10^6] and
    [max(1000, 10.14)] under the cap [100.4]. *)
Example UpdateProposal_uniform1 :
  exists s', TProposeAdaptiveStep.UpdateProposal Decompose 1 uniform1 = Ret s' /\
             TProposeAdaptiveStep.fCovarianceTrials uniform1 = 1001 /\
             TProposeAdaptiveStep.fCovarianceTrials s' = 1000 /\
             TProposeAdaptiveStep.fAcceptanceTrials s' = 0.1 * 1004.
Proof. eexists. split; [vm_compute; reflexivity |]. repeat split. Qed.

(** On [stuck] both attempts fail and [ResetProposal] closes with a second
    [UpdateProposal]: the count 50000 is deweighted to 5000 by the outer
    activation and to 1000 by the inner one. *)
Example UpdateProposal_stuck :
  TProposeAdaptiveStep.UpdateProposal Decompose 1 stuck = OutOfFuel /\
  TProposeAdaptiveStep.fCovarianceTrials (TProposeAdaptiveStep.deweight stuck) = 5000 /\
  exists s', TProposeAdaptiveStep.UpdateProposal Decompose 2 stuck = Ret s' /\
             TProposeAdaptiveStep.fCovarianceTrials s' = 1000.
Proof.
  split; [vm_compute; reflexivity |]. split; [reflexivity |].
  eexists. split; [vm_compute; reflexivity |]. reflexivity.
Qed.

Lemma pow_one (y : float) : pow 1 y = 1.
Proof. reflexivity. Qed.

(** At acceptance 0.44 the scale 0.7 stays 0.7. *)
Lemma update_scale_fixed_point_witness :
  let s := TProposeAdaptiveStep.set_fAcceptance 0.44
             (TProposeAdaptiveStep.set_fSigma 0.7
                (TProposeAdaptiveStep.set_fAcceptanceWindow 1004
                   (TProposeAdaptiveStep.new 0 0 0))) in
  TProposeAdaptiveStep.update_scale pow s = s /\
  TProposeAdaptiveStep.fSigma (TProposeAdaptiveStep.update_scale pow s) = 0.7.
Proof.
  apply (update_scale_fixed_point pow
           (TProposeAdaptiveStep.set_fAcceptance 0.44
              (TProposeAdaptiveStep.set_fSigma 0.7
                 (TProposeAdaptiveStep.set_fAcceptanceWindow 1004
                    (TProposeAdaptiveStep.new 0 0 0))))).
  - intros y. reflexivity.
  - reflexivity.
  - reflexivity.
  - reflexivity.
Defined.

(** After the saved step that left [3] in the trial step, a step with
    [save = false] proposes 1 from 0 and the trial step still holds [3]. *)
Lemma Step_trial_step_witness :
  exists b m' g',
    SimpleStep false rejected3 [1; 0.9] = Ret (b, m', g') /\
    TSimpleMCMC.fProposed m' = [1] /\
    TSimpleMCMC.fAccepted rejected3 = [0] /\
    TSimpleMCMC.fTrialStep m' = TSimpleMCMC.fTrialStep rejected3.
Proof.
  eexists _, _, _. split; [vm_compute; reflexivity |].
  split; [reflexivity |]. split; [reflexivity |].
  refine (Step_trial_step tape log TDummyLogLikelihood TProposeSimple false
            rejected3 _ [1; 0.9] false [] _).
  vm_compute. reflexivity.
Defined.
(** *** Further runs *)

(** A driver with an output tree that saves the trial steps. *)
Abbreviation treed0 :=
  (TSimpleMCMC.new TProposeSimpleStep.new (Some {| saveStep := true; entries := [] |}) 0 0).

(** The rejected proposal 3 adds to the tree a second entry for the point
    0, with the trial step 3. *)
Lemma Step_fills_tree_witness :
  let m := TSimpleMCMC.Start TDummyLogLikelihood [0] true treed0 in
  exists m',
    SimpleStep true m [3; 0.5] = Ret (false, m', []) /\
    TSimpleMCMC.fTree m'
    = Fill (TSimpleMCMC.fAcceptedLogLikelihood m') (TSimpleMCMC.fAccepted m')
           (TSimpleMCMC.fTrialStep m') <$> TSimpleMCMC.fTree m /\
    TSimpleMCMC.fTree m'
    = Some {| saveStep := true;
              entries := [(0, [0], Some [0]); (0, [0], Some [3])] |}.
Proof.
  eexists. split; [vm_compute; reflexivity |]. split; [| reflexivity].
  refine (Step_fills_tree tape log TDummyLogLikelihood TProposeSimple true
            (TSimpleMCMC.Start TDummyLogLikelihood [0] true treed0) _ [3; 0.5] [] false _).
  vm_compute. reflexivity.
Defined.

Lemma Step_return_value_witness :
  let m := TSimpleMCMC.Start TDummyLogLikelihood [0] true simple0 in
  exists m',
    SimpleStep true m [3; 0.5] = Ret (false, m', []) /\
    TSimpleMCMC.fLogLikelihoodCount m' = (TSimpleMCMC.fLogLikelihoodCount m + 1)%Z /\
    (INT_MIN <= TSimpleMCMC.fLogLikelihoodCount m' <= INT_MAX)%Z /\
    TSimpleMCMC.fProposedLogLikelihood m' = TDummyLogLikelihood (TSimpleMCMC.fProposed m') /\
    TSimpleMCMC.fAcceptedLogLikelihood m' = TSimpleMCMC.fAcceptedLogLikelihood m /\
    TSimpleMCMC.fAccepted m' = TSimpleMCMC.fAccepted m.
Proof.
  eexists. split; [vm_compute; reflexivity |].
  refine (Step_return_value tape log TDummyLogLikelihood TProposeSimple true
            (TSimpleMCMC.Start TDummyLogLikelihood [0] true simple0) _ [3; 0.5] [] false _ _).
  - vm_compute. split; [discriminate | reflexivity].
  - vm_compute. reflexivity.
Defined.

(** A chain started at a point whose log-likelihood is NaN keeps the first
    proposal, with the log-likelihood NaN again. *)
Lemma Step_accepts_nan_witness :
  let m := TSimpleMCMC.Start TDummyLogLikelihood [nan] true simple0 in
  exists m', SimpleStep true m [0.5] = Ret (true, m', []) /\
             TSimpleMCMC.fAccepted m' = [nan] /\
             TSimpleMCMC.fAcceptedLogLikelihood m' = TDummyLogLikelihood [nan].
Proof.
  apply (Step_accepts_nan tape log TDummyLogLikelihood TProposeSimple true
           (TSimpleMCMC.Start TDummyLogLikelihood [nan] true simple0) [0.5]
           TProposeSimpleStep.new [] [nan]).
  - repeat split.
  - reflexivity.
  - reflexivity.
  - right. reflexivity.
Defined.

(** Started outside the box, at a point of zero probability, the chain
    moves to 6, which is outside the box as well. *)
Lemma Step_leaves_zero_probability_witness :
  let m := TSimpleMCMC.Start TBoxLogLikelihood [5] true simple0 in
  exists m', BoxStep true m [1] = Ret (true, m', []) /\
             TSimpleMCMC.fAccepted m' = [6] /\
             TSimpleMCMC.fAcceptedLogLikelihood m' = TBoxLogLikelihood [6].
Proof.
  apply (Step_leaves_zero_probability tape log TBoxLogLikelihood TProposeSimple true
           (TSimpleMCMC.Start TBoxLogLikelihood [5] true simple0) [1]
           TProposeSimpleStep.new [] [6]).
  - repeat split.
  - reflexivity.
  - reflexivity.
  - reflexivity.
Defined.

Lemma simple_Step_returns_witness :
  let m := TSimpleMCMC.Start TDummyLogLikelihood [0] true simple0 in
  exists b m' g', SimpleStep true m [3; 0.5] = Ret (b, m', g') /\ started m'.
Proof.
  apply (simple_Step_returns tape log TDummyLogLikelihood true
           (TSimpleMCMC.Start TDummyLogLikelihood [0] true simple0) [3; 0.5]).
  repeat split.
Defined.

Lemma adaptive_Step_started_witness :
  let m := TSimpleMCMC.Start TDummyLogLikelihood [0; 0] true
             (TSimpleMCMC.new (TProposeAdaptiveStep.new 0 0 0) None 0 0) in
  exists b m' g',
    TSimpleMCMC.Step tape log TDummyLogLikelihood (TProposeAdaptive 3) true m
      [0.25; -0.5; 0.75] = Ret (b, m', g') /\
    started m'.
Proof.
  eexists _, _, _. split; [vm_compute; reflexivity |].
  refine (adaptive_Step_started tape log TDummyLogLikelihood pow Decompose 3 true
            (TSimpleMCMC.Start TDummyLogLikelihood [0; 0] true
               (TSimpleMCMC.new (TProposeAdaptiveStep.new 0 0 0) None 0 0))
            _ [0.25; -0.5; 0.75] _ _ _ _).
  - repeat split.
  - vm_compute. reflexivity.
Defined.

(** On [stuck] the call goes through [ResetProposal]; the counts it returns
    with are within the bounds. *)
Lemma UpdateProposal_trial_bounds_witness :
  exists s',
    TProposeAdaptiveStep.UpdateProposal Decompose 2 stuck = Ret s' /\
    (0.1 * TProposeAdaptiveStep.fCovarianceWindow s'
       <? TProposeAdaptiveStep.fCovarianceTrials s') = false /\
    (0.1 * TProposeAdaptiveStep.fAcceptanceWindow s'
       <? TProposeAdaptiveStep.fAcceptanceTrials s') = false /\
    ((1000 <=? 0.1 * TProposeAdaptiveStep.fCovarianceWindow s') = true ->
     (1000 <=? TProposeAdaptiveStep.fCovarianceTrials s') = true) /\
    ((1000 <=? 0.1 * TProposeAdaptiveStep.fAcceptanceWindow s') = true ->
     (1000 <=? TProposeAdaptiveStep.fAcceptanceTrials s') = true).
Proof.
  eexists. split; [vm_compute; reflexivity |].
  match goal with
  | |- context [TProposeAdaptiveStep.fCovarianceTrials ?x] =>
      refine (UpdateProposal_trial_bounds Decompose 2 stuck x _)
  end.
  vm_compute. reflexivity.
Defined.

(** [stuck] with its two dimensions left as [SetDim] makes them: the repair
    of its covariance terminates the program. *)
Lemma UpdateProposal_unhinted_gaussian_witness :
  TProposeAdaptiveStep.UpdateProposal Decompose 1
    (TProposeAdaptiveStep.set_fProposalType
       [TProposeAdaptiveStep.ProposalType_new; TProposeAdaptiveStep.ProposalType_new] stuck)
  = Fault Terminate.
Proof.
  apply (UpdateProposal_unhinted_gaussian Decompose 0
           (TProposeAdaptiveStep.set_fProposalType
              [TProposeAdaptiveStep.ProposalType_new; TProposeAdaptiveStep.ProposalType_new]
              stuck)
           0 TProposeAdaptiveStep.ProposalType_new).
  - vm_compute. reflexivity.
  - cbn. lia.
  - cbn. lia.
  - reflexivity.
  - reflexivity.
  - reflexivity.
Defined.

(** The second call of a chain, at a new point: one success in two trials. *)
Lemma UpdateState_counts_witness :
  exists s',
    TProposeAdaptiveStep.UpdateState pow Decompose 3 [0.5; 0.5] (-0.25) uniform1 = Ret s' /\
    (0 <= TProposeAdaptiveStep.fSuccesses s' <= TProposeAdaptiveStep.fTrials s')%Z /\
    (TProposeAdaptiveStep.fTrials s' <= INT_MAX)%Z.
Proof.
  eexists. split; [vm_compute; reflexivity |].
  refine (UpdateState_counts pow Decompose 3 [0.5; 0.5] (-0.25) uniform1 _ _ _ _).
  - intros _. vm_compute. split; [split; discriminate | reflexivity].
  - intros s1 H. vm_compute in H. injection H as <-.
    vm_compute. split; [reflexivity | discriminate].
  - vm_compute. reflexivity.
Defined.


(** The first call on an engine as constructed, in two dimensions. *)
Lemma UpdateState_first_call_witness :
  exists s',
    TProposeAdaptiveStep.UpdateState pow Decompose 3 [0; 0] 0
      (TProposeAdaptiveStep.new 0 0 0) = Ret s' /\
    TProposeAdaptiveStep.fProposalType s'
    = [TProposeAdaptiveStep.ProposalType_new; TProposeAdaptiveStep.ProposalType_new] /\
    TProposeAdaptiveStep.fAcceptanceWindow s' = pow (1 * double_of_size 2) 2 + 1000 /\
    int_of_double (TProposeAdaptiveStep.fAcceptanceWindow s')
    = Ret (TProposeAdaptiveStep.fNextUpdate s') /\
    TProposeAdaptiveStep.fTrials s' = 1%Z /\ TProposeAdaptiveStep.fSuccesses s' = 0%Z.
Proof.
  eexists. split; [vm_compute; reflexivity |].
  refine (UpdateState_first_call pow Decompose 3 [0; 0] 0
            (TProposeAdaptiveStep.new 0 0 0) _ 0 _ _ _ _ _ _).
  - reflexivity.
  - left. reflexivity.
  - reflexivity.
  - reflexivity.
  - reflexivity.
  - vm_compute. reflexivity.
Defined.

(** The second call, at a new point, takes one from the countdown of 1004
    and keeps the decomposition. *)
Lemma UpdateState_countdown_witness :
  exists s',
    TProposeAdaptiveStep.UpdateState pow Decompose 3 [0.5; 0.5] (-0.25) uniform1 = Ret s' /\
    TProposeAdaptiveStep.fTrials s' = (TProposeAdaptiveStep.fTrials uniform1 + 1)%Z /\
    TProposeAdaptiveStep.fSuccesses s' = (TProposeAdaptiveStep.fSuccesses uniform1 + 1)%Z /\
    TProposeAdaptiveStep.fNextUpdate s' = (1004 - 1)%Z /\
    TProposeAdaptiveStep.fDecomposition s'
    = TProposeAdaptiveStep.fDecomposition uniform1.
Proof.
  eexists. split; [vm_compute; reflexivity |].
  refine (proj1 (UpdateState_countdown pow Decompose 3 [0.5; 0.5] (-0.25) uniform1 _ true
                   _ _ _ _ _ _ _)).
  - reflexivity.
  - vm_compute. split; [discriminate | reflexivity].
  - vm_compute. split; [discriminate | reflexivity].
  - vm_compute. split; [reflexivity | discriminate].
  - reflexivity.
  - vm_compute. reflexivity.
  - right. vm_compute. discriminate.
Defined.

(** An engine dimensioned by [SetDim(1)] and handed a point of two
    coordinates. *)
Lemma dimension_mismatch_overruns_witness :
  let s := TProposeAdaptiveStep.set_fProposalType [TProposeAdaptiveStep.ProposalType_new]
             (TProposeAdaptiveStep.set_fLastPoint [0] (TProposeAdaptiveStep.new 0 0 0)) in
  TProposeAdaptiveStep.SetDim 1 (TProposeAdaptiveStep.new 0 0 0) = Ret s /\
  TProposeAdaptiveStep.InitializeState pow Decompose 3 [0; 0] 0 s
    = Fault (OutOfBounds 1 1) /\
  TProposeAdaptive 3 s [] [0; 0] [0; 0] 0 = Fault (OutOfBounds 1 1).
Proof.
  split; [reflexivity |].
  apply (dimension_mismatch_overruns tape pow Decompose 3
           (TProposeAdaptiveStep.set_fProposalType [TProposeAdaptiveStep.ProposalType_new]
              (TProposeAdaptiveStep.set_fLastPoint [0] (TProposeAdaptiveStep.new 0 0 0)))
           [] [0; 0] [0; 0] 0).
  - reflexivity.
  - cbn. lia.
  - reflexivity.
Defined.

(** [uniform0] with the hint [SetGaussian(1, 2)]: the reset covariance is the
    diagonal of 1 and 4. *)
Lemma reset_seeds_covariance_witness :
  let s := TProposeAdaptiveStep.set_fProposalType
             [{| TProposeAdaptiveStep.type := 1; TProposeAdaptiveStep.param1 := -5;
                 TProposeAdaptiveStep.param2 := 5 |};
              {| TProposeAdaptiveStep.type := 0; TProposeAdaptiveStep.param1 := 4;
                 TProposeAdaptiveStep.param2 := 0 |}] uniform0 in
  TProposeAdaptiveStep.SetGaussian 1 2 uniform0 = Ret s /\
  exists s1,
    TProposeAdaptiveStep.reset s = Ret s1 /\
    TProposeAdaptiveStep.fCurrentCov s1 = [[1; 0]; [0; 4]] /\
    square 2 (TProposeAdaptiveStep.fCurrentCov s1) /\
    (forall i p, (i < 2)%nat -> TProposeAdaptiveStep.fProposalType s !! i = Some p ->
                 mget (TProposeAdaptiveStep.fCurrentCov s1) i i
                 = if (TProposeAdaptiveStep.type p =? 0)%Z
                      && (0 <? TProposeAdaptiveStep.param1 p)
                   then TProposeAdaptiveStep.param1 p else 1) /\
    (forall i j, (i < 2)%nat -> (j < 2)%nat -> i <> j ->
                 mget (TProposeAdaptiveStep.fCurrentCov s1) i j = 0) /\
    TProposeAdaptiveStep.ResetProposal Decompose 1 s
    = TProposeAdaptiveStep.UpdateProposal Decompose 1 s1 /\
    (forall u, Decompose (TProposeAdaptiveStep.fCurrentCov s1) = Some u ->
               exists s', TProposeAdaptiveStep.ResetProposal Decompose 2 s = Ret s' /\
                          TProposeAdaptiveStep.fCurrentCov s'
                          = TProposeAdaptiveStep.fCurrentCov s1 /\
                          TProposeAdaptiveStep.fDecomposition s' = u).
Proof.
  split; [reflexivity |].
  eexists. split; [vm_compute; reflexivity |]. split; [reflexivity |].
  refine (reset_seeds_covariance Decompose 1
            (TProposeAdaptiveStep.set_fProposalType
               [{| TProposeAdaptiveStep.type := 1; TProposeAdaptiveStep.param1 := -5;
                   TProposeAdaptiveStep.param2 := 5 |};
                {| TProposeAdaptiveStep.type := 0; TProposeAdaptiveStep.param1 := 4;
                   TProposeAdaptiveStep.param2 := 0 |}] uniform0) _ _).
  vm_compute. reflexivity.
Defined.


Lemma setters_store_witness :
  exists p su sg,
    TProposeAdaptiveStep.fProposalType uniform0 !! Z.to_nat 1 = Some p /\
    TProposeAdaptiveStep.SetUniform 1 (-1) 1 uniform0 = Ret su /\
    TProposeAdaptiveStep.SetGaussian 1 2 uniform0 = Ret sg /\
    TProposeAdaptiveStep.fProposalType su !! Z.to_nat 1
    = Some {| TProposeAdaptiveStep.type := 1; TProposeAdaptiveStep.param1 := -1;
              TProposeAdaptiveStep.param2 := 1 |} /\
    TProposeAdaptiveStep.fProposalType sg !! Z.to_nat 1
    = Some {| TProposeAdaptiveStep.type := 0; TProposeAdaptiveStep.param1 := 2 * 2;
              TProposeAdaptiveStep.param2 := TProposeAdaptiveStep.param2 p |} /\
    (forall j, j <> Z.to_nat 1 ->
               TProposeAdaptiveStep.fProposalType su !! j
               = TProposeAdaptiveStep.fProposalType uniform0 !! j /\
               TProposeAdaptiveStep.fProposalType sg !! j
               = TProposeAdaptiveStep.fProposalType uniform0 !! j) /\
    TProposeAdaptiveStep.fLastPoint su = TProposeAdaptiveStep.fLastPoint uniform0 /\
    TProposeAdaptiveStep.fLastPoint sg = TProposeAdaptiveStep.fLastPoint uniform0.
Proof. apply (setters_store 1 (-1) 1 2 uniform0). reflexivity. Defined.

(** The first proposal of [uniform0]: one draw for the Uniform dimension 0,
    one for the Gaussian dimension 1. *)
Lemma call_proposal_witness :
  exists v,
    TProposeAdaptiveStep.call flip pow Decompose 3 uniform0 true [0; 0] [0; 0] 0
    = Ret (uniform1, generator_before flip uniform1 true 2, v) /\
    length v = 2%nat /\
    forall j p x,
      TProposeAdaptiveStep.fProposalType uniform1 !! j = Some p -> [0; 0] !! j = Some x ->
      v !! j = Some (if (TProposeAdaptiveStep.type p =? 1)%Z then variate flip uniform1 true j
                     else rows_added flip uniform1 true j x 2).
Proof.
  apply (call_proposal flip pow Decompose 3 uniform0 uniform1 true [0; 0] [0; 0] 0).
  - reflexivity.
  - vm_compute. reflexivity.
  - reflexivity.
Defined.

(** That proposal is [-5 + 10 * 0.25] for the Uniform coordinate and
    [0 + fSigma * 0.75 * 1] for the Gaussian one. *)
Example call_proposal_run :
  TProposeAdaptiveStep.call flip pow Decompose 3 uniform0 true [0; 0] [0; 0] 0
  = Ret (uniform1, true, [-2.5; TProposeAdaptiveStep.fSigma uniform1 * 0.75]).
Proof. vm_compute. reflexivity. Qed.

(** On [stuck] the call resets the proposal: the settings are kept and the
    history is erased. *)
Lemma proposal_updates_keep_settings_witness :
  exists s',
    TProposeAdaptiveStep.UpdateProposal Decompose 2 stuck = Ret s' /\
    same_settings stuck s' /\ (same_history stuck s' \/ history_erased s').
Proof.
  eexists. split; [vm_compute; reflexivity |].
  match goal with
  | |- same_settings stuck ?x /\ _ =>
      refine (proj1 (proposal_updates_keep_settings Decompose 2 stuck x) _)
  end.
  vm_compute. reflexivity.
Defined.

(** A covariance window of 500 set before the reset is replaced. *)
Lemma ResetProposal_covariance_window_witness :
  exists s',
    TProposeAdaptiveStep.ResetProposal Decompose 2
      (TProposeAdaptiveStep.SetCovarianceWindow 500 uniform1) = Ret s' /\
    TProposeAdaptiveStep.fCovarianceWindow s' = 10000000.
Proof.
  eexists. split; [vm_compute; reflexivity |].
  match goal with
  | |- TProposeAdaptiveStep.fCovarianceWindow ?x = _ =>
      refine (proj2 (ResetProposal_covariance_window Decompose 2 500 uniform1 x) _)
  end.
  vm_compute. reflexivity.
Defined.

(** The second proposal of a chain in two dimensions, from a new point. *)
Lemma adaptive_call_returns_witness :
  exists s1 g' v,
    TProposeAdaptive 3 uniform1 [0.3; 0.6] [0; 0] [0.5; 0.5] (-0.25) = Ret (s1, g', v) /\
    length v = 2%nat /\
    TProposeAdaptiveStep.fStateInitialized s1 = true /\
    length (TProposeAdaptiveStep.fLastPoint s1) = 2%nat /\
    length (TProposeAdaptiveStep.fCentralPoint s1) = 2%nat /\
    length (TProposeAdaptiveStep.fProposalType s1) = 2%nat.
Proof.
  apply (adaptive_call_returns tape pow Decompose 3 uniform1 [0.3; 0.6] [0; 0] [0.5; 0.5]
           (-0.25) true).
  - reflexivity.
  - reflexivity.
  - reflexivity.
  - reflexivity.
  - reflexivity.
  - reflexivity.
  - right. vm_compute. discriminate.
Defined.

(** The constrained likelihood as [Init] sets it up, at a point of 25
    coordinates. *)
Lemma constrained_likelihood_not_positive_witness :
  let l := TConstrainedLikelihood.Init (TConstrainedLikelihood.mk [] [] 0 0) in
  exists logLikelihood,
    TConstrainedLikelihood.call l (replicate 25 75) = TConstrainedLikelihood.Value logLikelihood /\
    (0 <? logLikelihood) = false.
Proof.
  apply (constrained_likelihood_not_positive
           (TConstrainedLikelihood.Init (TConstrainedLikelihood.mk [] [] 0 0))
           (replicate 25 75)).
  - reflexivity.
  - cbn. lia.
Defined.

(** At the expected values the priors contribute nothing and the sum, 1904,
    is an eighth of its constraint above 1902. *)
Example constrained_likelihood_at_expected_values :
  TConstrainedLikelihood.call
    (TConstrainedLikelihood.Init (TConstrainedLikelihood.mk [] [] 0 0))
    (replicate 24 76 ++ [80])
  = TConstrainedLikelihood.Value (-0.0078125).
Proof. vm_compute. reflexivity. Qed.

End Runs.
